(** * zen: PR keys, worktree classification, reconcilers, poller and caches

    A shallow embedding of the daemon core of [mgreau/zen]:
    - [internal/reconciler/keys.go]   ([MakePRKey], [ParsePRKey]),
    - [internal/worktree]             ([Classify], worktree records, [AgeDays]),
    - [internal/reconciler/setup.go]  ([SetupReconciler]),
    - [internal/reconciler/cleanup.go] ([CleanupReconciler], [ScanMergedPRs]),
    - [internal/prcache]              ([Load], [Save], [Get], [Set]),
    - [cmd/watch.go]                  ([watchIsRunning], [watchStart], [pollOnce]).

    Go [int] is a 64-bit integer, modelled as [Z] with its range written out.
    Go strings are byte strings, modelled as [string] (a list of 8-bit
    characters).  Code that talks to the outside world (the file system,
    [git], the hosting service, the desktop notifier, the workqueue) is written
    in a small free monad [Prog] over the calls it makes; a handler gives the
    answers of the outside world, and theorems quantify over all handlers. *)

From Stdlib Require Import ZArith Ascii String List Bool Lia.
From stdpp Require Import gmap strings.
Import ListNotations.

Local Open Scope Z_scope.

(** ** Go's [int] *)

Module GoInt.

Definition min_int : Z := - 2 ^ 63.
Definition max_int : Z := 2 ^ 63 - 1.

Definition in_range (n : Z) : bool := (min_int <=? n) && (n <=? max_int).

End GoInt.

(** ** The pieces of [strconv], [strings] and [fmt] the program relies on *)

Module GoStr.

Definition is_digit (c : ascii) : bool :=
  let n := N_of_ascii c in (48 <=? n)%N && (n <=? 57)%N.

Definition digit_val (c : ascii) : Z := Z.of_N (N_of_ascii c) - 48.

Definition digit_char (d : Z) : ascii := ascii_of_N (Z.to_N (48 + d)).

Fixpoint all_digits (s : string) : bool :=
  match s with
  | EmptyString => true
  | String c s' => is_digit c && all_digits s'
  end.

(** The digit loop of [strconv.Atoi] / [strconv.ParseInt] in base 10:
    [n = n*10 + int(ch - '0')], failing on the first byte that is not a
    decimal digit. *)
Fixpoint parse_digits (acc : Z) (s : string) : option Z :=
  match s with
  | EmptyString => Some acc
  | String c s' =>
      if is_digit c then parse_digits (acc * 10 + digit_val c) s' else None
  end.

(** [strconv.Atoi]: an optional sign, at least one digit, nothing else, and
    the value has to fit [int]; [None] stands for the returned error. *)
Definition Atoi (s : string) : option Z :=
  match s with
  | EmptyString => None
  | String c rest =>
      let neg := Ascii.eqb c "-" in
      let body := if neg || Ascii.eqb c "+" then rest else s in
      match body with
      | EmptyString => None
      | _ =>
          match parse_digits 0 body with
          | None => None
          | Some v =>
              let n := if neg then - v else v in
              if GoInt.in_range n then Some n else None
          end
      end
  end.

(** Decimal digits of a non-negative number, most significant first. *)
Fixpoint utoa_fuel (fuel : nat) (n : Z) (acc : string) : string :=
  match fuel with
  | O => acc
  | S f =>
      let acc' := String (digit_char (n mod 10)) acc in
      if n <? 10 then acc' else utoa_fuel f (n / 10) acc'
  end.

Definition utoa (n : Z) : string :=
  utoa_fuel (S (Z.to_nat (Z.log2 n))) n EmptyString.

(** [%d] of [fmt.Sprintf] / [strconv.Itoa]. *)
Definition Itoa (n : Z) : string :=
  if n <? 0 then String "-" (utoa (- n)) else utoa n.

(** [strings.SplitN(s, sep, 2)] for a one-byte separator: the text before the
    first separator and the text after it, or the whole string alone. *)
Fixpoint cut (sep : ascii) (s : string) : option (string * string) :=
  match s with
  | EmptyString => None
  | String c s' =>
      if Ascii.eqb c sep then Some (EmptyString, s')
      else match cut sep s' with
           | Some (a, b) => Some (String c a, b)
           | None => None
           end
  end.

Definition SplitN2 (s : string) (sep : ascii) : list string :=
  match cut sep s with
  | Some (a, b) => [a; b]
  | None => [s]
  end.

Fixpoint contains (c : ascii) (s : string) : bool :=
  match s with
  | EmptyString => false
  | String c' s' => Ascii.eqb c' c || contains c s'
  end.

(** The white-space runes of one byte: tab, newline, vertical tab, form feed,
    carriage return, space. *)
Definition is_space (c : ascii) : bool :=
  let n := N_of_ascii c in ((9 <=? n)%N && (n <=? 13)%N) || (n =? 32)%N.

Fixpoint trim_left (s : string) : string :=
  match s with
  | String c s' => if is_space c then trim_left s' else s
  | EmptyString => EmptyString
  end.

(** White space as [unicode.IsSpace] sees it, in the UTF-8 bytes of a Go
    string.  Besides the runes of one byte these are U+0085 and U+00A0 (two
    bytes: C2 85, C2 A0) and U+1680, U+2000..U+200A, U+2028, U+2029, U+202F,
    U+205F and U+3000 (three bytes: E1 9A 80, E2 80 80..8A, E2 80 A8, E2 80
    A9, E2 80 AF, E2 81 9F, E3 80 80).  Go decodes a white-space rune from
    exactly these byte sequences (an overlong or cut-off sequence decodes to
    the error rune, one byte wide), and none of them starts with a
    continuation byte, so looking for them at every byte offset finds the
    same runes as decoding the text rune by rune. *)
Definition is_space2 (c1 c2 : ascii) : bool :=
  let n1 := N_of_ascii c1 in
  let n2 := N_of_ascii c2 in
  (N.eqb n2 133 || N.eqb n2 160) && N.eqb n1 194.

Definition is_space3 (c1 c2 c3 : ascii) : bool :=
  let n1 := N_of_ascii c1 in
  let n2 := N_of_ascii c2 in
  let n3 := N_of_ascii c3 in
  (N.eqb n3 128 && (N.eqb n2 154 && N.eqb n1 225))
  || ((N.leb 128 n3 && N.leb n3 138 || N.eqb n3 168 || N.eqb n3 169
       || N.eqb n3 175)
      && (N.eqb n2 128 && N.eqb n1 226))
  || (N.eqb n3 159 && (N.eqb n2 129 && N.eqb n1 226))
  || (N.eqb n3 128 && (N.eqb n2 128 && N.eqb n1 227)).

(** The number of bytes of the white-space rune at the start of the text; 0
    when the text does not start with one. *)
Definition space_rune (s : string) : nat :=
  match s with
  | String c1 r1 =>
      if is_space c1 then 1%nat
      else match r1 with
           | String c2 r2 =>
               if is_space2 c1 c2 then 2%nat
               else match r2 with
                    | String c3 _ =>
                        if is_space3 c1 c2 c3 then 3%nat else 0%nat
                    | EmptyString => 0%nat
                    end
           | EmptyString => 0%nat
           end
  | EmptyString => 0%nat
  end.

(** Is the text one white-space rune and nothing else? *)
Definition is_space_rune (s : string) : bool :=
  match space_rune s with
  | O => false
  | w => Nat.eqb w (String.length s)
  end.

(** [strings.TrimSpace]: the white-space runes at the start are dropped,
    then the ones at the end.  (Its fast path for ASCII gives the same
    result.) *)
Fixpoint trim_space_left (s : string) : string :=
  match s with
  | String c1 r1 =>
      if is_space c1 then trim_space_left r1
      else match r1 with
           | String c2 r2 =>
               if is_space2 c1 c2 then trim_space_left r2
               else match r2 with
                    | String c3 r3 =>
                        if is_space3 c1 c2 c3 then trim_space_left r3 else s
                    | EmptyString => s
                    end
           | EmptyString => s
           end
  | EmptyString => EmptyString
  end.

Fixpoint trim_space_right (s : string) : string :=
  match s with
  | EmptyString => EmptyString
  | String c s' =>
      let t := String c (trim_space_right s') in
      if is_space_rune t then EmptyString else t
  end.

Definition TrimSpace (s : string) : string :=
  trim_space_right (trim_space_left s).

(** [fmt.Sscanf(tok, "%d", &v)]: skip leading spaces, accept a sign, read the
    longest run of the scanner's decimal digits (the ten digits and the
    underscore) and convert it with [strconv.ParseInt] in base 10, which
    refuses underscores.  The result is the new value of [v]: it keeps [old]
    when nothing could be scanned or converted or when the number does not
    fit (the callers drop the error). *)
Definition is_scan_digit (c : ascii) : bool := is_digit c || Ascii.eqb c "_".

Fixpoint digit_prefix (s : string) : string :=
  match s with
  | String c s' =>
      if is_scan_digit c then String c (digit_prefix s') else EmptyString
  | EmptyString => EmptyString
  end.

Definition Sscanf_d (tok : string) (old : Z) : Z :=
  let s := trim_left tok in
  let '(neg, body) :=
    match s with
    | String c rest =>
        if Ascii.eqb c "-" then (true, rest)
        else if Ascii.eqb c "+" then (false, rest) else (false, s)
    | EmptyString => (false, s)
    end in
  match digit_prefix body with
  | EmptyString => old
  | ds =>
      match parse_digits 0 ds with
      | Some v =>
          let n := if neg then - v else v in
          if GoInt.in_range n then n else old
      | None => old
      end
  end.

(** [filepath.Join] of two elements: empty elements are dropped and the rest
    joined with a slash.  The normalisation done by [filepath.Clean] is not
    modelled; paths are only handed on to the file system and to [git]. *)
Definition filepath_Join (a b : string) : string :=
  match a, b with
  | EmptyString, _ => b
  | _, EmptyString => a
  | _, _ => a +:+ "/" +:+ b
  end.

End GoStr.

(** ** Errors *)

Module Err.

(** An argument of a format string. *)
Inductive Arg : Type :=
| AStr (s : string)
| AInt (n : Z).

(** Go errors as the program builds them: an error that came out of a
    library or a subprocess, [fmt.Errorf] without and with [%w], and the
    workqueue's marker for terminal failures. *)
Inductive GoError : Type :=
| LibError (msg : string)
| Errorf (format : string) (args : list Arg)
| Wrapf (format : string) (args : list Arg) (inner : GoError)
| NonRetriableError (inner : GoError) (reason : string).

(** Modelled from the spec: the workqueue package
    ([chainguard.dev/driftlessaf/workqueue]) is not part of the sources.
    [GetNonRetriableDetails] is its exposed classifier: reconcilers wrap an
    error with [NonRetriableError] to mark a terminal failure, and every
    other error is retriable.  The marker is looked for along the chain of
    wrapped errors, as [errors.As] does; [None] means retriable. *)
Fixpoint GetNonRetriableDetails (e : GoError) : option string :=
  match e with
  | LibError _ => None
  | Errorf _ _ => None
  | Wrapf _ _ inner => GetNonRetriableDetails inner
  | NonRetriableError _ reason => Some reason
  end.

(** What is printed: strings, numbers, errors ([%v]) and the result of a
    nested [fmt.Sprintf]. *)
Inductive LogArg : Type :=
| LStr (s : string)
| LInt (n : Z)
| LErr (e : GoError)
| LFmt (format : string) (args : list Arg).

(** [main]: any error returned by the command makes the process exit with
    status 1. *)
Definition exitCode (err : option GoError) : Z :=
  match err with
  | Some _ => 1
  | None => 0
  end.

End Err.

(** ** [internal/reconciler/keys.go] *)

Module Keys.
Import GoStr.

(** [fmt.Sprintf("%s:%d", repo, prNumber)] *)
Definition MakePRKey (repo : string) (prNumber : Z) : string :=
  repo +:+ ":" +:+ Itoa prNumber.

Definition ParsePRKey (key : string) : (string * Z) + Err.GoError :=
  match SplitN2 key ":" with
  | [repo; num] =>
      match Atoi num with
      | Some n => inl (repo, n)
      | None =>
          inr (Err.Wrapf "invalid PR key %q: bad number: %w" [Err.AStr key]
                 (Err.LibError "strconv.Atoi"))
      end
  | _ =>
      inr (Err.Errorf "invalid PR key %q: expected format repo:number"
             [Err.AStr key])
  end.

End Keys.

(** ** [internal/worktree]: classification of worktree directory names *)

Module Worktree.
Import GoStr.

Inductive Type_ : Type := TypePRReview | TypeFeature.

Record Worktree : Type := mkWorktree {
  Path : string;
  Name : string;
  Branch : string;
  Type' : Type_;
  PRNumber : Z;
  Repo : string
}.

(** The regular expression [-pr-(\d+)$] tried at the start of [s]: the
    captured digits when [s] is exactly [-pr-] followed by one or more
    decimal digits. *)
Definition prPattern_here (s : string) : option string :=
  match s with
  | String c1 (String c2 (String c3 (String c4 d))) =>
      if Ascii.eqb c1 "-" && Ascii.eqb c2 "p" && Ascii.eqb c3 "r"
         && Ascii.eqb c4 "-" && negb (String.eqb d EmptyString)
         && all_digits d
      then Some d else None
  | _ => None
  end.

(** [prPattern.FindStringSubmatch(name)]: the leftmost position at which the
    pattern matches; the result is the first group, [m[1]]. *)
Fixpoint prPattern_FindStringSubmatch (name : string) : option string :=
  match prPattern_here name with
  | Some d => Some d
  | None =>
      match name with
      | EmptyString => None
      | String _ rest => prPattern_FindStringSubmatch rest
      end
  end.

Definition Classify (name : string) : Type_ * Z :=
  match prPattern_FindStringSubmatch name with
  | Some d => (TypePRReview, Sscanf_d d 0)
  | None => (TypeFeature, 0)
  end.

(** The record [ListForRepo] builds for one line of [git worktree list]:
    the type comes from [Classify], and the PR number is filled in only when
    it is positive. *)
Definition worktreeOf (path name branch repo : string) : Worktree :=
  let '(wtype, pr) := Classify name in
  {| Path := path; Name := name; Branch := branch; Type' := wtype;
     PRNumber := if 0 <? pr then pr else 0; Repo := repo |}.

End Worktree.


(** ** Configuration and the data handed around *)

Module Config.

Record RepoConfig : Type := mkRepoConfig {
  FullName : string;
  BasePath : string
}.

Record WatchConfig : Type := mkWatchConfig {
  CleanupAfterDays : Z;
  Concurrency : Z;
  MaxRetries : Z
}.

Record Config : Type := mkConfig {
  Repos : gmap string RepoConfig;
  Authors : list string;
  Watch : WatchConfig
}.

Definition GetCleanupAfterDays (w : WatchConfig) : Z :=
  if 0 <? CleanupAfterDays w then CleanupAfterDays w else 5.

Definition RepoFullName (c : Config) (short : string) : string :=
  match Repos c !! short with
  | Some repo => FullName repo
  | None => short
  end.

Definition RepoBasePath (c : Config) (short : string) : string :=
  match Repos c !! short with
  | Some repo => BasePath repo
  | None => EmptyString
  end.

Fixpoint IsAuthor_loop (authors : list string) (login : string) : bool :=
  match authors with
  | [] => false
  | a :: rest => if String.eqb a login then true else IsAuthor_loop rest login
  end.

Definition IsAuthor (c : Config) (login : string) : bool :=
  IsAuthor_loop (Authors c) login.

End Config.

Module Github.

Record ReviewRequest : Type := mkReviewRequest {
  Number : Z;
  Title : string;
  AuthorLogin : string;          (* Author.Login *)
  RepositoryName : string;       (* Repository.Name *)
  RepositoryNameWithOwner : string;
  CreatedAt : string;
  URL : string
}.

End Github.

Module PRCacheData.

Record PRMeta : Type := mkPRMeta {
  Title : string;
  Author : string
}.

(** The bytes of [pr_cache.json] as [json.Unmarshal] into a
    [map[string]PRMeta] sees them: not JSON of that shape (an error), the
    JSON value [null] (no error, the map stays [nil]), or an object. *)
Inductive Json : Type :=
| JsonMalformed
| JsonNull
| JsonObject (m : gmap string PRMeta).

End PRCacheData.

(** ** The outside world: calls, programs, handlers and traces *)

Module Sys.
Import Err.

Inductive StatResult : Type :=
| StatOk          (* err == nil *)
| StatNotExist    (* os.IsNotExist(err) *)
| StatFailed.     (* any other error *)

(** The answer of [LastActivity]: an error, the zero time (no commit), or a
    commit time.  The conversion [int(time.Since(last).Hours() / 24)] is
    floating-point arithmetic on the wall clock and comes with the answer. *)
Inductive LastAct : Type :=
| LastErr (msg : string)
| LastZero
| LastAt (sinceDays : Z).

Inductive Call : Type -> Type :=
(* os, os/exec, sync *)
| OsStat (path : string) : Call StatResult
| OsRemove (path : string) : Call unit
| CombinedOutput (name : string) (args : list string) (dir : string)
    : Call (string * option string)
| GitMuLock : Call unit
| GitMuUnlock : Call unit
| Printf (format : string) (args : list LogArg) : Call unit
(* internal/context, internal/notify *)
| InjectPRContext (worktreePath fullRepo : string) (prNumber : Z)
    : Call (option string)
| NotifyWorktreeReady (prNumber : Z) (worktreePath : string)
    : Call (option string)
| NotifyPRReview (prNumber : Z) (prTitle author repo : string)
    : Call (option string)
(* the display cache file *)
| ReadCacheFile : Call (option PRCacheData.Json)
| MkdirAllStateDir : Call unit
| WriteCacheFile (data : PRCacheData.Json) : Call bool
(* internal/github, the workqueue, internal/worktree *)
| GetReviewRequests (repoFilter : string)
    : Call (list Github.ReviewRequest + string)
| QueueSetup (key : string) (priority : Z) : Call (option string)
| QueueCleanup (key : string) (priority : Z) : Call (option string)
| ListAll : Call (list Worktree.Worktree)
| NewClient : Call (option string)
| GetPRState (fullRepo : string) (prNumber : Z) : Call (string + string)
| LastActivity (path : string) : Call LastAct
(* the state directory and the daemon process *)
| WriteLastCheck (prCount : Z) (seenPRs : gset string) : Call unit
| EnsureDirs : Call (option string)
| ReadPidFile : Call (option string)
| WritePidFile (data : string) : Call (option string)
| RemovePidFile : Call unit
| Kill0 (pid : Z) : Call bool
| Getpid : Call Z
| OsExecutable : Call (string + string)
| OpenLogFile : Call (option string)
| CloseLogFile : Call unit
| StartProcess (binPath : string) (argv : list string) : Call (Z + string)
| ProcRelease : Call unit
| UiLog (level : string) (format : string) (args : list LogArg) : Call unit.

Inductive Prog (A : Type) : Type :=
| Ret (a : A)
| Panic (msg : string)
| Do {X : Type} (c : Call X) (k : X -> Prog A).

Arguments Ret {A} a.
Arguments Panic {A} msg.
Arguments Do {A X} c k.

Fixpoint bind {A B : Type} (p : Prog A) (f : A -> Prog B) : Prog B :=
  match p with
  | Ret a => f a
  | Panic msg => Panic msg
  | Do c k => Do c (fun x => bind (k x) f)
  end.

Definition call {X : Type} (c : Call X) : Prog X := Do c Ret.

(** [defer cleanup] around [body]: the cleanup runs when the body returns
    and when it panics. *)
Fixpoint defer_ {A : Type} (cleanup : Prog unit) (body : Prog A) : Prog A :=
  match body with
  | Ret a => bind cleanup (fun _ => Ret a)
  | Panic msg => bind cleanup (fun _ => Panic msg)
  | Do c k => Do c (fun x => defer_ cleanup (k x))
  end.

Inductive Event : Type :=
| Ev {X : Type} (c : Call X) (x : X).

Inductive Result (A : Type) : Type :=
| Done (a : A)
| Crashed (msg : string).

Arguments Done {A} a.
Arguments Crashed {A} msg.

(** A handler answers every call from a state of the outside world. *)
Definition Handler (S : Type) : Type := forall X : Type, Call X -> S -> X * S.

Fixpoint run {S A : Type} (h : Handler S) (p : Prog A) (s : S)
  : Result A * S * list Event :=
  match p with
  | Ret a => (Done a, s, [])
  | Panic msg => (Crashed msg, s, [])
  | Do c k =>
      let '(x, s1) := h _ c s in
      let '(r, s2, tr) := run h (k x) s1 in
      (r, s2, Ev c x :: tr)
  end.

(** Is every subprocess of the trace started while the version-control mutex
    is held?  [held] says whether it is held at the start. *)
Fixpoint exec_under_lock (held : bool) (tr : list Event) : bool :=
  match tr with
  | [] => true
  | Ev c _ :: rest =>
      match c with
      | GitMuLock => exec_under_lock true rest
      | GitMuUnlock => exec_under_lock false rest
      | CombinedOutput _ _ _ => held && exec_under_lock held rest
      | _ => exec_under_lock held rest
      end
  end.

(** The subprocesses of a trace: program name, arguments, directory. *)
Fixpoint subprocesses (tr : list Event) : list (string * list string * string) :=
  match tr with
  | [] => []
  | Ev c _ :: rest =>
      match c with
      | CombinedOutput name args dir => (name, args, dir) :: subprocesses rest
      | _ => subprocesses rest
      end
  end.

(** What was printed with [fmt.Printf] (the time stamp in front of each line
    is left out). *)
Fixpoint printed (tr : list Event) : list (string * list LogArg) :=
  match tr with
  | [] => []
  | Ev c _ :: rest =>
      match c with
      | Printf format args => (format, args) :: printed rest
      | _ => printed rest
      end
  end.

(** The keys handed to the cleanup queue and to the setup queue, with their
    priority. *)
Fixpoint queued_cleanup (tr : list Event) : list (string * Z) :=
  match tr with
  | [] => []
  | Ev c _ :: rest =>
      match c with
      | QueueCleanup key priority => (key, priority) :: queued_cleanup rest
      | _ => queued_cleanup rest
      end
  end.

Fixpoint queued_setup (tr : list Event) : list (string * Z) :=
  match tr with
  | [] => []
  | Ev c _ :: rest =>
      match c with
      | QueueSetup key priority => (key, priority) :: queued_setup rest
      | _ => queued_setup rest
      end
  end.

(** The new-review notifications: number, title, author, repository. *)
Fixpoint notified (tr : list Event) : list (Z * string * string * string) :=
  match tr with
  | [] => []
  | Ev c _ :: rest =>
      match c with
      | NotifyPRReview n title author repo =>
          (n, title, author, repo) :: notified rest
      | _ => notified rest
      end
  end.

(** The check-point records written: count and seen set. *)
Fixpoint checkpoints (tr : list Event) : list (Z * gset string) :=
  match tr with
  | [] => []
  | Ev c _ :: rest =>
      match c with
      | WriteLastCheck n seen => (n, seen) :: checkpoints rest
      | _ => checkpoints rest
      end
  end.

(** Failures recorded in a trace: a subprocess that exited with an error, a
    context injection, a display-cache write and a worktree-ready
    notification that failed. *)
Fixpoint subprocess_failed (tr : list Event) : bool :=
  match tr with
  | [] => false
  | Ev c x :: rest =>
      match c in Call X return X -> bool with
      | CombinedOutput _ _ _ =>
          fun r => match r.2 with Some _ => true | None => subprocess_failed rest end
      | _ => fun _ => subprocess_failed rest
      end x
  end.

Fixpoint inject_failed (tr : list Event) : option string :=
  match tr with
  | [] => None
  | Ev c x :: rest =>
      match c in Call X return X -> option string with
      | InjectPRContext _ _ _ =>
          fun r => match r with Some e => Some e | None => inject_failed rest end
      | _ => fun _ => inject_failed rest
      end x
  end.

Fixpoint notify_failed (tr : list Event) : option string :=
  match tr with
  | [] => None
  | Ev c x :: rest =>
      match c in Call X return X -> option string with
      | NotifyWorktreeReady _ _ =>
          fun r => match r with Some e => Some e | None => notify_failed rest end
      | _ => fun _ => notify_failed rest
      end x
  end.

(** The daemon start: was a live process found behind the pid file, which
    processes were spawned, and what was written to the pid file. *)
Fixpoint live_found (tr : list Event) : bool :=
  match tr with
  | [] => false
  | Ev c x :: rest =>
      match c in Call X return X -> bool with
      | Kill0 _ => fun alive => alive || live_found rest
      | _ => fun _ => live_found rest
      end x
  end.

Fixpoint spawned (tr : list Event) : list Z :=
  match tr with
  | [] => []
  | Ev c x :: rest =>
      match c in Call X return X -> list Z with
      | StartProcess _ _ =>
          fun r => match r with
                   | inl pid => pid :: spawned rest
                   | inr _ => spawned rest
                   end
      | _ => fun _ => spawned rest
      end x
  end.

Fixpoint pid_writes (tr : list Event) : list string :=
  match tr with
  | [] => []
  | Ev c _ :: rest =>
      match c with
      | WritePidFile data => data :: pid_writes rest
      | _ => pid_writes rest
      end
  end.

(** What the command printed through [ui.LogWarn], [ui.LogSuccess] and
    [ui.LogInfo]. *)
Fixpoint ui_logs (tr : list Event) : list (string * string * list LogArg) :=
  match tr with
  | [] => []
  | Ev c _ :: rest =>
      match c with
      | UiLog level format args => (level, format, args) :: ui_logs rest
      | _ => ui_logs rest
      end
  end.

Fixpoint cache_write_failed (tr : list Event) : bool :=
  match tr with
  | [] => false
  | Ev c x :: rest =>
      match c in Call X return X -> bool with
      | WriteCacheFile _ => fun ok => negb ok || cache_write_failed rest
      | _ => fun _ => cache_write_failed rest
      end x
  end.

End Sys.

#[global] Instance prog_ret : MRet Sys.Prog := @Sys.Ret.
#[global] Instance prog_bind : MBind Sys.Prog :=
  fun A B (f : A -> Sys.Prog B) (p : Sys.Prog A) => Sys.bind p f.

(** ** [internal/prcache] *)

Module prcache.
Import Sys PRCacheData.

(** A Go map value: [None] is the [nil] map. *)
Abbreviation GoMap := (option (gmap string PRMeta)).

(** [fmt.Sprintf("%s/%d", repo, pr)] *)
Definition cacheKey (repo : string) (pr : Z) : string :=
  repo +:+ "/" +:+ GoStr.Itoa pr.

(** [Load]: an empty map when the file cannot be read or decoded; otherwise
    whatever [json.Unmarshal] left in [cache]. *)
Definition Load : Prog GoMap :=
  data ← call ReadCacheFile;
  match data with
  | None => mret (Some ∅)
  | Some JsonMalformed => mret (Some ∅)
  | Some JsonNull => mret None
  | Some (JsonObject m) => mret (Some m)
  end.

(** [json.MarshalIndent] of a map of strings does not fail; a [nil] map is
    written as [null]. *)
Definition marshal (cache : GoMap) : Json :=
  match cache with
  | None => JsonNull
  | Some m => JsonObject m
  end.

Definition Save (cache : GoMap) : Prog unit :=
  call MkdirAllStateDir;;
  call (WriteCacheFile (marshal cache));;
  mret tt.

(** [meta, ok := cache[key]]; reading a [nil] map finds nothing. *)
Definition Get (repo : string) (pr : Z) : Prog (PRMeta * bool) :=
  cache ← Load;
  let key := cacheKey repo pr in
  match cache ≫= (fun m => m !! key) with
  | Some meta => mret (meta, true)
  | None => mret (mkPRMeta EmptyString EmptyString, false)
  end.

(** [cache[key] = PRMeta{...}]; writing to a [nil] map panics. *)
Definition Set_ (repo : string) (pr : Z) (title author : string) : Prog unit :=
  cache ← Load;
  let key := cacheKey repo pr in
  match cache with
  | None => Panic "assignment to entry in nil map"
  | Some m => Save (Some (<[key := mkPRMeta title author]> m))
  end.

End prcache.

(** ** [internal/reconciler/setup.go] *)

Module SetupReconciler.
Import Sys Err GoStr.

Definition ensureWorktree (originPath worktreePath worktreeName : string)
    (prNumber : Z) : Prog (option GoError) :=
  st ← call (OsStat worktreePath);
  match st with
  | StatOk => mret None   (* already exists *)
  | _ =>
    call GitMuLock;;
    defer_ (call GitMuUnlock)
      (* Re-check after acquiring lock *)
      (st2 ← call (OsStat worktreePath);
       match st2 with
       | StatOk => mret None
       | _ =>
         let fetchRef :=
           "+pull/" +:+ Itoa prNumber +:+ "/head:pr-" +:+ Itoa prNumber in
         fetched ← call (CombinedOutput "git" ["fetch"; "origin"; fetchRef] originPath);
         match fetched with
         | (out, Some err) =>
             mret (Some (Wrapf "git fetch: %w: %s" [AStr out] (LibError err)))
         | (_, None) =>
           added ← call (CombinedOutput "git"
                           ["worktree"; "add"; worktreePath; "pr-" +:+ Itoa prNumber]
                           originPath);
           match added with
           | (out, Some err) =>
               mret (Some (Wrapf "git worktree add: %w: %s" [AStr out] (LibError err)))
           | (_, None) =>
             (* Clean stale lock immediately *)
             let lockFile :=
               filepath_Join originPath
                 (filepath_Join ".git"
                    (filepath_Join "worktrees"
                       (filepath_Join worktreeName "index.lock"))) in
             call (OsRemove lockFile);;
             mret None
           end
         end
       end)
  end.

Definition ensureContextInjected (worktreePath fullRepo : string)
    (prNumber : Z) : Prog (option GoError) :=
  let claudeLocal := filepath_Join worktreePath "CLAUDE.local.md" in
  st ← call (OsStat claudeLocal);
  match st with
  | StatOk => mret None   (* already injected *)
  | _ =>
    r ← call (InjectPRContext worktreePath fullRepo prNumber);
    match r with
    | Some err => mret (Some (LibError err))
    | None => mret None
    end
  end.

(** The reconciler holds the configuration and the buffered PR payloads. *)
Record SetupReconciler : Type := mkSetupReconciler {
  cfg : Config.Config;
  prData : gmap string Github.ReviewRequest
}.

Definition StorePRData (r : SetupReconciler) (key : string)
    (pr : Github.ReviewRequest) : SetupReconciler :=
  {| cfg := cfg r; prData := <[key := pr]> (prData r) |}.

Definition getPRData (r : SetupReconciler) (key : string)
  : option Github.ReviewRequest := prData r !! key.

Definition Reconcile (r : SetupReconciler) (key : string) : Prog (option GoError) :=
  match Keys.ParsePRKey key with
  | inr err => mret (Some (NonRetriableError err "invalid key format"))
  | inl (repo, prNumber) =>
    let basePath := Config.RepoBasePath (cfg r) repo in
    if String.eqb basePath EmptyString then
      mret (Some (NonRetriableError
                    (Errorf "unknown repo %q" [AStr repo]) "repo not configured"))
    else
    match getPRData r key with
    | None =>
      mret (Some (NonRetriableError
                    (Errorf "no PR data for key %q" [AStr key]) "missing PR metadata"))
    | Some pr =>
      let label :=
        LFmt "%s PR #%d %q" [AStr repo; AInt prNumber; AStr (Github.Title pr)] in
      let worktreeName := repo +:+ "-pr-" +:+ Itoa prNumber in
      let worktreePath := filepath_Join basePath worktreeName in
      let originPath := filepath_Join basePath repo in
      let fullRepo := Config.RepoFullName (cfg r) repo in
      (* Step 1: Ensure worktree exists (retryable on failure) *)
      e1 ← ensureWorktree originPath worktreePath worktreeName prNumber;
      match e1 with
      | Some err => mret (Some (Wrapf "ensureWorktree: %w" [] err))
      | None =>
        (* Step 2: Ensure PR context is injected (non-blocking) *)
        e2 ← ensureContextInjected worktreePath fullRepo prNumber;
        match e2 with
        | Some err =>
            call (Printf "Warning: failed to inject PR context for %s: %v"
                    [label; LErr err])
        | None => mret tt
        end;;
        (* Step 3: Cache PR metadata for display commands (non-blocking) *)
        prcache.Set_ repo prNumber (Github.Title pr) (Github.AuthorLogin pr);;
        e3 ← call (NotifyWorktreeReady prNumber worktreePath);
        match e3 with
        | Some err =>
            call (Printf "Warning: notification failed for %s: %v"
                    [label; LErr (LibError err)])
        | None => mret tt
        end;;
        call (Printf "Setup complete for %s (worktree: %s)" [label; LStr worktreePath]);;
        mret None
      end
    end
  end.

End SetupReconciler.

(** ** [internal/reconciler/cleanup.go] *)

Module CleanupReconciler.
Import Sys Err GoStr.

Definition removeWorktree (originPath worktreePath : string) : Prog (option GoError) :=
  st ← call (OsStat worktreePath);
  match st with
  | StatNotExist => mret None   (* already removed *)
  | _ =>
    removed ← call (CombinedOutput "git"
                      ["worktree"; "remove"; worktreePath; "--force"] originPath);
    match removed with
    | (out, Some err) =>
        mret (Some (Wrapf "git worktree remove: %w: %s" [AStr out] (LibError err)))
    | (_, None) => mret None
    end
  end.

Definition Reconcile (cfg : Config.Config) (key : string) : Prog (option GoError) :=
  match Keys.ParsePRKey key with
  | inr err => mret (Some (NonRetriableError err "invalid key format"))
  | inl (repo, prNumber) =>
    let label := LFmt "%s PR #%d" [AStr repo; AInt prNumber] in
    let basePath := Config.RepoBasePath cfg repo in
    if String.eqb basePath EmptyString then
      mret (Some (NonRetriableError
                    (Errorf "unknown repo %q" [AStr repo]) "repo not configured"))
    else
      let worktreeName := repo +:+ "-pr-" +:+ Itoa prNumber in
      let worktreePath := filepath_Join basePath worktreeName in
      let originPath := filepath_Join basePath repo in
      (* Remove worktree (retryable on failure) *)
      e ← removeWorktree originPath worktreePath;
      match e with
      | Some err => mret (Some (Wrapf "removeWorktree: %w" [] err))
      | None =>
        call (Printf "Cleanup complete for %s" [label]);;
        mret None
      end
  end.

(** [AgeDays]: [-1] with the error of [LastActivity], [-1] without an error
    for the zero time, the number of whole days otherwise. *)
Definition AgeDays (path : string) : Prog (Z * option string) :=
  last ← call (LastActivity path);
  match last with
  | LastErr msg => mret (-1, Some msg)
  | LastZero => mret (-1, None)
  | LastAt days => mret (days, None)
  end.

Definition scanOne (cfg : Config.Config) (cleanupAfterDays : Z)
    (w : Worktree.Worktree) : Prog unit :=
  match Worktree.Type' w with
  | Worktree.TypeFeature => mret tt
  | Worktree.TypePRReview =>
    if Worktree.PRNumber w =? 0 then mret tt else
    let fullRepo := Config.RepoFullName cfg (Worktree.Repo w) in
    st ← call (GetPRState fullRepo (Worktree.PRNumber w));
    match st with
    | inr _ => mret tt   (* skip on API error, try next cycle *)
    | inl state =>
      if negb (String.eqb state "MERGED") then mret tt else
      aged ← AgeDays (Worktree.Path w);
      match aged with
      | (_, Some _) => mret tt
      | (age, None) =>
        if age <? cleanupAfterDays then mret tt else
        let key := Keys.MakePRKey (Worktree.Repo w) (Worktree.PRNumber w) in
        q ← call (QueueCleanup key 0);
        match q with
        | Some err =>
            call (Printf "Error queuing cleanup for %s PR #%d: %v"
                    [LStr (Worktree.Repo w); LInt (Worktree.PRNumber w);
                     LErr (LibError err)])
        | None => mret tt
        end
      end
    end
  end.

Fixpoint scanLoop (cfg : Config.Config) (cleanupAfterDays : Z)
    (wts : list Worktree.Worktree) : Prog unit :=
  match wts with
  | [] => mret tt
  | w :: rest => scanOne cfg cleanupAfterDays w;; scanLoop cfg cleanupAfterDays rest
  end.

(** [wt.ListAll] never returns an error, so the first early return of the
    source is not reachable and is left out. *)
Definition ScanMergedPRs (cfg : Config.Config) (cleanupAfterDays : Z) : Prog unit :=
  wts ← call ListAll;
  c ← call NewClient;
  match c with
  | Some err =>
      call (Printf "Error creating GitHub client for cleanup scan: %v"
              [LErr (LibError err)])
  | None => scanLoop cfg cleanupAfterDays wts
  end.

End CleanupReconciler.

(** ** [cmd/watch.go] *)

Module Watch.
Import Sys Err GoStr.
Import SetupReconciler.

Definition watchIsRunning : Prog (bool * Z) :=
  data ← call ReadPidFile;
  match data with
  | None => mret (false, 0)
  | Some d =>
    match Atoi (TrimSpace d) with
    | None => mret (false, 0)
    | Some pid =>
      alive ← call (Kill0 pid);
      if (alive : bool) then mret (true, pid)
      else (call RemovePidFile;; mret (false, 0))
    end
  end.

Definition watchStart : Prog (option GoError) :=
  dirs ← call EnsureDirs;
  match dirs with
  | Some err => mret (Some (LibError err))
  | None =>
    running ← watchIsRunning;
    match running with
    | (true, pid) =>
        call (UiLog "warn" "Watch daemon already running (PID: %d)" [LInt pid]);;
        mret None
    | (false, _) =>
      bin ← call OsExecutable;
      match bin with
      | inr err => mret (Some (LibError err))
      | inl binPath =>
        logF ← call OpenLogFile;
        match logF with
        | Some err => mret (Some (LibError err))
        | None =>
          proc ← call (StartProcess binPath [binPath; "watch"; "daemon"]);
          match proc with
          | inr err =>
              call CloseLogFile;;
              mret (Some (Wrapf "starting daemon: %w" [] (LibError err)))
          | inl procPid =>
            call CloseLogFile;;
            written ← call (WritePidFile (Itoa procPid));
            match written with
            | Some err => mret (Some (LibError err))
            | None =>
              call ProcRelease;;
              call (UiLog "success" "Watch daemon started (PID: %d)" [LInt procPid]);;
              call (UiLog "info" "Log file: %s" [LStr "watch.log"]);;
              mret None
            end
          end
        end
      end
    end
  end.

(** The first two statements of [watchDaemon], before the tickers and the
    main loop: the state directory is ensured and the pid file written, both
    without a look at the result. *)
Definition watchDaemon_startup : Prog unit :=
  call EnsureDirs;;
  pid ← call Getpid;
  call (WritePidFile (Itoa pid));;
  mret tt.

Definition saveState (seenPRs : gset string) (prCount : Z) : Prog unit :=
  call (WriteLastCheck prCount seenPRs).

(** One turn of the loop of [pollOnce]; the seen set and the reconciler are
    the shared objects the loop updates. *)
Definition pollStep (cfg : Config.Config) (pr : Github.ReviewRequest)
    (st : gset string * SetupReconciler) : Prog (gset string * SetupReconciler) :=
  let '(seenPRs, rec) := st in
  let prKey := Itoa (Github.Number pr) in
  if decide (prKey ∈ seenPRs) then mret (seenPRs, rec) else
  call (Printf "New PR review request: #%d - %s (by %s)"
          [LInt (Github.Number pr); LStr (Github.Title pr);
           LStr (Github.AuthorLogin pr)]);;
  call (NotifyPRReview (Github.Number pr) (Github.Title pr)
          (Github.AuthorLogin pr) (Github.RepositoryName pr));;
  rec' ←
    (if Config.IsAuthor cfg (Github.AuthorLogin pr) then
       let key := Keys.MakePRKey (Github.RepositoryName pr) (Github.Number pr) in
       let rec' := StorePRData rec key pr in
       q ← call (QueueSetup key 1);
       match q with
       | Some err =>
           call (Printf "Error queuing PR #%d: %v"
                   [LInt (Github.Number pr); LErr (LibError err)])
       | None =>
           call (Printf "Queued PR #%d for setup (author: %s)"
                   [LInt (Github.Number pr); LStr (Github.AuthorLogin pr)])
       end;;
       mret rec'
     else mret rec);
  mret ({[prKey]} ∪ seenPRs, rec').

Fixpoint pollLoop (cfg : Config.Config) (reviews : list Github.ReviewRequest)
    (st : gset string * SetupReconciler) : Prog (gset string * SetupReconciler) :=
  match reviews with
  | [] => mret st
  | pr :: rest => st' ← pollStep cfg pr st; pollLoop cfg rest st'
  end.

Definition pollOnce (cfg : Config.Config) (seenPRs : gset string)
    (rec : SetupReconciler) : Prog (gset string * SetupReconciler) :=
  got ← call (GetReviewRequests "chainguard-dev/mono");
  match got with
  | inr err =>
      call (Printf "Error fetching reviews: %v" [LErr (LibError err)]);;
      mret (seenPRs, rec)
  | inl reviews =>
      st ← pollLoop cfg reviews (seenPRs, rec);
      saveState (fst st) (Z.of_nat (length reviews));;
      mret st
  end.

(** The cleanup ticker of [watchDaemon]:
    [ScanMergedPRs(ctx, cfg, cleanupQueue, cfg.Watch.GetCleanupAfterDays())]. *)
Definition cleanupTick (cfg : Config.Config) : Prog unit :=
  CleanupReconciler.ScanMergedPRs cfg
    (Config.GetCleanupAfterDays (Config.Watch cfg)).

End Watch.

(** ** The words of the specification *)

Module Spec.
Import GoStr.

(** Text that reads as an integer: an optional sign and at least one
    decimal digit, nothing else. *)
Definition integer_text (s : string) : Prop :=
  exists sign ds : string,
    s = sign +:+ ds /\ (sign = "" \/ sign = "-" \/ sign = "+") /\
    ds <> "" /\ all_digits ds = true.

(** A directory name that ends in [-pr-] and one or more decimal digits. *)
Definition pr_suffixed (name : string) : Prop :=
  exists pre d : string,
    name = pre +:+ "-pr-" +:+ d /\ d <> "" /\ all_digits d = true.

(** The pull requests of a poll that are new: their number is not in the
    seen set, which grows as the poll goes through the list. *)
Fixpoint fresh (seen : gset string) (reviews : list Github.ReviewRequest)
  : list Github.ReviewRequest :=
  match reviews with
  | [] => []
  | pr :: rest =>
      let prKey := Itoa (Github.Number pr) in
      if decide (prKey ∈ seen) then fresh seen rest
      else pr :: fresh ({[prKey]} ∪ seen) rest
  end.

(** The key of a pull request in the seen set, and what a notification
    says about it. *)
Definition prKey (pr : Github.ReviewRequest) : string :=
  Itoa (Github.Number pr).

Definition info (pr : Github.ReviewRequest) : Z * string * string * string :=
  (Github.Number pr, Github.Title pr, Github.AuthorLogin pr,
   Github.RepositoryName pr).

Definition by_author (cfg : Config.Config) (pr : Github.ReviewRequest) : bool :=
  Config.IsAuthor cfg (Github.AuthorLogin pr).

Definition setup_key (pr : Github.ReviewRequest) : string :=
  Keys.MakePRKey (Github.RepositoryName pr) (Github.Number pr).

(** The reconciler after the payloads of the new pull requests of
    configured authors have been handed to it. *)
Definition stored (cfg : Config.Config)
    (rec : SetupReconciler.SetupReconciler)
    (new : list Github.ReviewRequest) : SetupReconciler.SetupReconciler :=
  fold_left (fun r pr => SetupReconciler.StorePRData r (setup_key pr) pr)
    (List.filter (by_author cfg) new) rec.

(** A worktree the cleanup scan has to hand to the cleanup queue: a PR
    review with a number, merged on the remote side, whose last commit can
    be dated and is at least [days] days old. *)
Definition merged_and_aged (cfg : Config.Config) (days : Z)
    (state_of : string -> Z -> string + string)
    (last_of : string -> Sys.LastAct) (w : Worktree.Worktree) : bool :=
  match Worktree.Type' w with
  | Worktree.TypeFeature => false
  | Worktree.TypePRReview =>
      negb (Worktree.PRNumber w =? 0) &&
      match state_of (Config.RepoFullName cfg (Worktree.Repo w))
                     (Worktree.PRNumber w) with
      | inl state =>
          String.eqb state "MERGED" &&
          match last_of (Worktree.Path w) with
          | Sys.LastAt age => days <=? age
          | _ => false
          end
      | inr _ => false
      end
  end.

(** The three causes of a terminal failure of the setup reconciler: a key
    that does not parse, a repo short name without a base path in the
    configuration, no buffered payload for the key. *)
Definition terminal_cause (r : SetupReconciler.SetupReconciler)
    (key : string) : Prop :=
  match Keys.ParsePRKey key with
  | inr _ => True
  | inl (repo, _) =>
      Config.RepoBasePath (SetupReconciler.cfg r) repo = "" \/
      SetupReconciler.getPRData r key = None
  end.

(** The warnings the setup reconciler prints for a failed context injection
    and for a failed notification. *)
Definition inject_warning (label : Err.LogArg) (failed : option string)
  : list (string * list Err.LogArg) :=
  match failed with
  | Some err =>
      [("Warning: failed to inject PR context for %s: %v",
        [label; Err.LErr (Err.LibError err)])]
  | None => []
  end.

Definition notify_warning (label : Err.LogArg) (failed : option string)
  : list (string * list Err.LogArg) :=
  match failed with
  | Some err =>
      [("Warning: notification failed for %s: %v",
        [label; Err.LErr (Err.LibError err)])]
  | None => []
  end.

Definition cleanup_key (w : Worktree.Worktree) : string :=
  Keys.MakePRKey (Worktree.Repo w) (Worktree.PRNumber w).

End Spec.

(** ** A simulated machine

    One concrete outside world, used to run the programs on concrete inputs:
    a disk with a set of existing paths, the display cache file and the pid
    file, a process table, and switches that make [git], the context
    injection, the notifier or the cache write fail. *)

Module Machine.
Import Sys PRCacheData.

Record World : Type := mkWorld {
  paths : list string;
  cacheFile : option Json;
  cacheWritable : bool;
  pidFile : option string;
  live : list Z;
  selfPid : Z;
  nextPid : Z;
  gitFails : bool;
  injectFails : bool;
  notifyFails : bool;
  clientFails : bool;
  reviews : list Github.ReviewRequest + string;
  worktrees : list Worktree.Worktree;
  remoteState : string -> Z -> string + string;
  lastActivity : string -> LastAct
}.

Definition has_path (w : World) (p : string) : bool :=
  existsb (String.eqb p) (paths w).

Definition set_paths (w : World) (ps : list string) : World :=
  mkWorld ps (cacheFile w) (cacheWritable w) (pidFile w) (live w) (selfPid w)
    (nextPid w) (gitFails w) (injectFails w) (notifyFails w) (clientFails w)
    (reviews w) (worktrees w) (remoteState w) (lastActivity w).

Definition set_cacheFile (w : World) (f : option Json) : World :=
  mkWorld (paths w) f (cacheWritable w) (pidFile w) (live w) (selfPid w)
    (nextPid w) (gitFails w) (injectFails w) (notifyFails w) (clientFails w)
    (reviews w) (worktrees w) (remoteState w) (lastActivity w).

Definition set_pidFile (w : World) (f : option string) : World :=
  mkWorld (paths w) (cacheFile w) (cacheWritable w) f (live w) (selfPid w)
    (nextPid w) (gitFails w) (injectFails w) (notifyFails w) (clientFails w)
    (reviews w) (worktrees w) (remoteState w) (lastActivity w).

Definition set_live (w : World) (l : list Z) : World :=
  mkWorld (paths w) (cacheFile w) (cacheWritable w) (pidFile w) l (selfPid w)
    (nextPid w) (gitFails w) (injectFails w) (notifyFails w) (clientFails w)
    (reviews w) (worktrees w) (remoteState w) (lastActivity w).

(** The cache as [prcache.Load] reads it from the disk of [w]. *)
Definition loaded (w : World) : gmap string PRMeta :=
  match cacheFile w with
  | Some (JsonObject m) => m
  | _ => ∅
  end.

Definition remove_path (p : string) (ps : list string) : list string :=
  List.filter (fun q => negb (String.eqb p q)) ps.

Definition git (w : World) (args : list string) : (string * option string) * World :=
  if gitFails w then (("fatal: unable to access", Some "exit status 128"), w)
  else
    match args with
    | ["worktree"; "add"; p; _] => ((EmptyString, None), set_paths w (p :: paths w))
    | ["worktree"; "remove"; p; "--force"] =>
        ((EmptyString, None), set_paths w (remove_path p (paths w)))
    | _ => ((EmptyString, None), w)
    end.

Definition fails (b : bool) (msg : string) : option string :=
  if b then Some msg else None.

Definition world : Handler World :=
  fun X c =>
    match c in Call X return World -> X * World with
    | OsStat p => fun w => (if has_path w p then StatOk else StatNotExist, w)
    | OsRemove p => fun w => (tt, set_paths w (remove_path p (paths w)))
    | CombinedOutput _ args _ => fun w => git w args
    | GitMuLock => fun w => (tt, w)
    | GitMuUnlock => fun w => (tt, w)
    | Printf _ _ => fun w => (tt, w)
    | InjectPRContext wp _ _ => fun w =>
        if injectFails w then (Some "fetching PR details", w)
        else (None, set_paths w (GoStr.filepath_Join wp "CLAUDE.local.md" :: paths w))
    | NotifyWorktreeReady _ _ => fun w => (fails (notifyFails w) "exit status 1", w)
    | NotifyPRReview _ _ _ _ => fun w => (fails (notifyFails w) "exit status 1", w)
    | ReadCacheFile => fun w => (cacheFile w, w)
    | MkdirAllStateDir => fun w => (tt, w)
    | WriteCacheFile data => fun w =>
        if cacheWritable w then (true, set_cacheFile w (Some data)) else (false, w)
    | GetReviewRequests _ => fun w => (reviews w, w)
    | QueueSetup _ _ => fun w => (None, w)
    | QueueCleanup _ _ => fun w => (None, w)
    | ListAll => fun w => (worktrees w, w)
    | NewClient => fun w => (fails (clientFails w) "no token", w)
    | GetPRState r n => fun w => (remoteState w r n, w)
    | LastActivity p => fun w => (lastActivity w p, w)
    | WriteLastCheck _ _ => fun w => (tt, w)
    | EnsureDirs => fun w => (None, w)
    | ReadPidFile => fun w => (pidFile w, w)
    | WritePidFile data => fun w => (None, set_pidFile w (Some data))
    | RemovePidFile => fun w => (tt, set_pidFile w None)
    | Kill0 pid => fun w => (existsb (Z.eqb pid) (live w), w)
    | Getpid => fun w => (selfPid w, w)
    | OsExecutable => fun w => (inl "/usr/local/bin/zen", w)
    | OpenLogFile => fun w => (None, w)
    | CloseLogFile => fun w => (tt, w)
    | StartProcess _ _ => fun w => (inl (nextPid w), set_live w (nextPid w :: live w))
    | ProcRelease => fun w => (tt, w)
    | UiLog _ _ _ => fun w => (tt, w)
    end.

(** A world that answers every call the same way each time: the answers of
    [w], which never changes. *)
Definition scripted (w : World) : Handler unit :=
  fun X c _ => ((world X c w).1, tt).

(** The machine of the scenarios: repository [app] ([acme/app]) under
    [/tmp/acme], author [alice]. *)
Definition acme : Config.Config :=
  Config.mkConfig
    {[ "app" := Config.mkRepoConfig "acme/app" "/tmp/acme" ]}
    ["alice"]
    (Config.mkWatchConfig 5 2 5).

Definition quiet : World :=
  {| paths := ["/tmp/acme/app"]; cacheFile := None; cacheWritable := true;
     pidFile := None; live := []; selfPid := 700; nextPid := 701;
     gitFails := false; injectFails := false; notifyFails := false;
     clientFails := false; reviews := inl []; worktrees := [];
     remoteState := fun _ _ => inl "OPEN";
     lastActivity := fun _ => LastZero |}.

Definition pr42 : Github.ReviewRequest :=
  Github.mkReviewRequest 42 "Add pagination" "alice" "app" "acme/app"
    "2024-01-15T14:30:00Z" "https://example.test/acme/app/pull/42".

Definition pr99 : Github.ReviewRequest :=
  Github.mkReviewRequest 99 "Bump deps" "eve" "app" "acme/app"
    "2024-01-16T09:00:00Z" "https://example.test/acme/app/pull/99".

Definition rec42 : SetupReconciler.SetupReconciler :=
  SetupReconciler.mkSetupReconciler acme {[ "app:42" := pr42 ]}.

(** The state directory cannot be written. *)
Definition readonly_cache : World :=
  {| paths := ["/tmp/acme/app"]; cacheFile := None; cacheWritable := false;
     pidFile := None; live := []; selfPid := 700; nextPid := 701;
     gitFails := false; injectFails := false; notifyFails := false;
     clientFails := false; reviews := inl []; worktrees := [];
     remoteState := fun _ _ => inl "OPEN";
     lastActivity := fun _ => LastZero |}.

(** [pr_cache.json] holds the JSON value [null]. *)
Definition null_cache : World := set_cacheFile quiet (Some JsonNull).

(** [git] fails (no network). *)
Definition offline : World :=
  {| paths := ["/tmp/acme/app"]; cacheFile := None; cacheWritable := true;
     pidFile := None; live := []; selfPid := 700; nextPid := 701;
     gitFails := true; injectFails := true; notifyFails := false;
     clientFails := false; reviews := inl []; worktrees := [];
     remoteState := fun _ _ => inr "network";
     lastActivity := fun _ => LastErr "exit status 128" |}.

(** The worktree of pull request 19 is on disk. *)
Definition with_worktree19 : World :=
  set_paths quiet ["/tmp/acme/app"; "/tmp/acme/app-pr-19"].

(** The context injection and the notifier fail. *)
Definition flaky : World :=
  {| paths := ["/tmp/acme/app"]; cacheFile := None; cacheWritable := true;
     pidFile := None; live := []; selfPid := 700; nextPid := 701;
     gitFails := false; injectFails := true; notifyFails := true;
     clientFails := false; reviews := inl []; worktrees := [];
     remoteState := fun _ _ => inl "OPEN";
     lastActivity := fun _ => LastZero |}.

(** A daemon with pid 4242 is running and has written its pid file. *)
Definition daemon_running : World :=
  set_live (set_pidFile quiet (Some "4242")) [4242].

(** Worktrees on disk: a merged review of six days, a merged review of two
    days, an open review, a merged review that cannot be dated, a feature
    worktree and a review directory with number 0. *)
Definition wt19 : Worktree.Worktree :=
  Worktree.worktreeOf "/tmp/acme/app-pr-19" "app-pr-19" "pr-19" "app".
Definition wt20 : Worktree.Worktree :=
  Worktree.worktreeOf "/tmp/acme/app-pr-20" "app-pr-20" "pr-20" "app".
Definition wt21 : Worktree.Worktree :=
  Worktree.worktreeOf "/tmp/acme/app-pr-21" "app-pr-21" "pr-21" "app".
Definition wt22 : Worktree.Worktree :=
  Worktree.worktreeOf "/tmp/acme/app-pr-22" "app-pr-22" "pr-22" "app".
Definition wtFeature : Worktree.Worktree :=
  Worktree.worktreeOf "/tmp/acme/app-search" "app-search" "search" "app".
Definition wt0 : Worktree.Worktree :=
  Worktree.worktreeOf "/tmp/acme/app-pr-0" "app-pr-0" "pr-0" "app".

Definition merged_worktrees : World :=
  {| paths := ["/tmp/acme/app"; "/tmp/acme/app-pr-19"; "/tmp/acme/app-pr-20";
               "/tmp/acme/app-pr-21"; "/tmp/acme/app-pr-22";
               "/tmp/acme/app-search"; "/tmp/acme/app-pr-0"];
     cacheFile := None; cacheWritable := true;
     pidFile := None; live := []; selfPid := 700; nextPid := 701;
     gitFails := false; injectFails := false; notifyFails := false;
     clientFails := false; reviews := inl [];
     worktrees := [wt19; wt20; wt21; wt22; wtFeature; wt0];
     remoteState := fun _ n => if n =? 21 then inl "OPEN" else inl "MERGED";
     lastActivity := fun p =>
       if String.eqb p "/tmp/acme/app-pr-19" then LastAt 6
       else if String.eqb p "/tmp/acme/app-pr-20" then LastAt 2
       else if String.eqb p "/tmp/acme/app-pr-22" then LastZero
       else LastAt 30 |}.

(** A poll that returns the pull requests 42 (by alice) and 99 (by eve). *)
Definition two_reviews : World :=
  {| paths := ["/tmp/acme/app"]; cacheFile := None; cacheWritable := true;
     pidFile := None; live := []; selfPid := 700; nextPid := 701;
     gitFails := false; injectFails := false; notifyFails := false;
     clientFails := false; reviews := inl [pr42; pr99]; worktrees := [];
     remoteState := fun _ _ => inl "OPEN";
     lastActivity := fun _ => LastZero |}.

End Machine.

(** * More of the code

    The parts below follow the same conventions: the name parsers and the
    statistics of [internal/worktree], the merge of the review requests and
    the repository names of [internal/github] and [internal/config], the
    filters of [cmd/inbox.go], the rows and the daemon state of
    [cmd/status.go], the lock cleaner of [internal/worktree/lock.go], the
    lines of [git worktree list], [watch stop], the restart of the daemon
    and the stale list of [cmd/cleanup.go]. *)

(** ** More of [strings] *)

Module GoStr2.
Import GoStr.

(** [strings.Index(s, sep)] for a one-byte separator: the offset of its first
    occurrence, [-1] when there is none. *)
Fixpoint Index (sep : ascii) (s : string) : Z :=
  match s with
  | EmptyString => -1
  | String c s' =>
      if Ascii.eqb c sep then 0
      else let i := Index sep s' in if i <? 0 then -1 else i + 1
  end.

Definition len (s : string) : Z := Z.of_nat (String.length s).

(** The slices [s[:i]] and [s[i:]] for an offset inside the string. *)
Definition slice_to (s : string) (i : Z) : string :=
  String.substring 0 (Z.to_nat i) s.

Definition slice_from (s : string) (i : Z) : string :=
  String.substring (Z.to_nat i) (String.length s - Z.to_nat i) s.

(** [strings.Split(s, sep)] for a one-byte separator: the pieces between the
    separators, one more piece than there are separators. *)
Fixpoint Split (sep : ascii) (s : string) : list string :=
  match s with
  | EmptyString => [EmptyString]
  | String c s' =>
      if Ascii.eqb c sep then EmptyString :: Split sep s'
      else match Split sep s' with
           | piece :: rest => String c piece :: rest
           | [] => [String c EmptyString]
           end
  end.

(** [strings.Fields(s)]: the maximal runs of bytes between the white-space
    runes ([unicode.IsSpace], as for [TrimSpace]); [cur] is the field being
    read. *)
Definition emit (cur : string) (fields : list string) : list string :=
  match cur with
  | EmptyString => fields
  | _ => cur :: fields
  end.

Fixpoint Fields_go (cur : string) (s : string) : list string :=
  match s with
  | EmptyString => emit cur []
  | String c1 r1 =>
      if is_space c1 then emit cur (Fields_go EmptyString r1)
      else
        let next := Fields_go (cur +:+ String c1 EmptyString) r1 in
        match r1 with
        | String c2 r2 =>
            if is_space2 c1 c2 then emit cur (Fields_go EmptyString r2)
            else match r2 with
                 | String c3 r3 =>
                     if is_space3 c1 c2 c3
                     then emit cur (Fields_go EmptyString r3)
                     else next
                 | EmptyString => next
                 end
        | EmptyString => next
        end
  end.

Definition Fields (s : string) : list string := Fields_go EmptyString s.

End GoStr2.

(** ** [internal/worktree/discovery.go]: names and statistics *)

Module Discovery.
Import GoStr GoStr2 Worktree.

(** e.g. [mono-pr-1234] gives [mono] *)
Definition ParseRepoFromName (name : string) : string :=
  let idx := Index "-" name in
  if idx <? 0 then name else slice_to name idx.

(** e.g. [mono-feature-branch] gives [feature-branch] *)
Definition ParseBranchFromName (name : string) : string :=
  let idx := Index "-" name in
  if (idx <? 0) || (len name <=? idx + 1) then EmptyString
  else slice_from name (idx + 1).

Record Stats : Type := mkStats {
  Total : Z;
  PRReviews : Z;
  Features : Z;
  ByRepo : gmap string Z
}.

(** One turn of the loop of [GetStats]; a key that is not in [ByRepo] reads
    as 0. *)
Definition countOne (stats : Stats) (wt : Worktree) : Stats :=
  let byRepo :=
    <[Repo wt := default 0 (ByRepo stats !! Repo wt) + 1]> (ByRepo stats) in
  match Type' wt with
  | TypePRReview =>
      mkStats (Total stats) (PRReviews stats + 1) (Features stats) byRepo
  | TypeFeature =>
      mkStats (Total stats) (PRReviews stats) (Features stats + 1) byRepo
  end.

Definition statsOf (wts : list Worktree) : Stats :=
  fold_left countOne wts (mkStats (Z.of_nat (length wts)) 0 0 ∅).

(** [GetStats]; [ListAll] does not return an error. *)
Definition GetStats : Sys.Prog Stats :=
  wts ← Sys.call Sys.ListAll;
  mret (statsOf wts).

End Discovery.

(** ** [internal/github]: merging the review requests, repository names *)

Module GithubMore.
Import GoStr Github.

(** The loop "merge and deduplicate" of [GetReviewRequests] over one of the
    two node lists; the state is the set of numbers seen and the merged list
    so far. *)
Definition mergeOne (st : gset Z * list ReviewRequest) (rr : ReviewRequest)
  : gset Z * list ReviewRequest :=
  let '(seen, merged) := st in
  if Number rr =? 0 then st
  else if decide (Number rr ∈ seen) then st
  else ({[Number rr]} ∪ seen, merged ++ [rr]).

Definition mergeLists (lists : list (list ReviewRequest))
  : gset Z * list ReviewRequest :=
  fold_left (fun st nodes => fold_left mergeOne nodes st) lists (∅, []).

Definition mergeReviewRequests (requested rereview : list ReviewRequest)
  : list ReviewRequest :=
  (mergeLists [requested; rereview]).2.

(** [splitRepo]: owner and repository of [owner/repo]. *)
Definition splitRepo (fullRepo : string) : string * string :=
  match SplitN2 fullRepo "/" with
  | [owner; repo] => (owner, repo)
  | _ => (fullRepo, EmptyString)
  end.

End GithubMore.

(** ** [internal/config]: from the full name back to the short name *)

Module ConfigMore.
Import GoStr GoStr2 Config.

(** The loop of [RepoShortName] over the entries of the map, in the order
    [range] in which the Go runtime hands them out. *)
Fixpoint findFullName (range : list (string * RepoConfig)) (full : string)
  : option string :=
  match range with
  | [] => None
  | (name, repo) :: rest =>
      if String.eqb (FullName repo) full then Some name
      else findFullName rest full
  end.

Definition RepoShortName (range : list (string * RepoConfig)) (full : string)
  : string :=
  match findFullName range full with
  | Some name => name
  | None =>
      (* Fallback: return last path component *)
      List.last (Split "/" full) EmptyString
  end.

End ConfigMore.

(** ** [cmd/inbox.go]: the filters of the inbox *)

Module Inbox.
Import Github.

Definition filterByAuthors (prs : list ReviewRequest) (authors : list string)
  : list ReviewRequest :=
  match authors with
  | [] => prs
  | _ =>
      let authorSet : gset string := list_to_set authors in
      List.filter (fun pr => bool_decide (AuthorLogin pr ∈ authorSet)) prs
  end.

(** The set built by [getLocalPRNumbers] from the worktrees of a repo. *)
Definition localPRNumbers (wts : list Worktree.Worktree) : gset Z :=
  fold_left
    (fun (m : gset Z) wt =>
       match Worktree.Type' wt with
       | Worktree.TypePRReview =>
           if 0 <? Worktree.PRNumber wt then {[Worktree.PRNumber wt]} ∪ m else m
       | Worktree.TypeFeature => m
       end)
    wts ∅.

Definition filterLocalPRsFromReviews (prs : list ReviewRequest)
    (local : gset Z) : list ReviewRequest :=
  List.filter (fun pr => negb (bool_decide (Number pr ∈ local))) prs.

End Inbox.

(** ** [cmd/status.go]: the daemon's state and the review rows *)

Module Status.
Import Sys GoStr.

(** [getDaemonStatus]: the state of the daemon and the text of the pid
    file. *)
Definition getDaemonStatus : Prog (string * string) :=
  data ← call ReadPidFile;
  match data with
  | None => mret ("stopped", EmptyString)
  | Some d =>
    let pidStr := TrimSpace d in
    match Atoi pidStr with
    | None => mret ("stopped", EmptyString)
    | Some pid =>
      alive ← call (Kill0 pid);
      if (alive : bool) then mret ("running", pidStr)
      else mret ("stale", pidStr)
    end
  end.

(** A worktree with the remote state of its pull request and the days left
    until its cleanup. *)
Record StatusPRReview : Type := mkStatusPRReview {
  Worktree_ : Worktree.Worktree;
  Title : string;
  State : string;
  AgeDays : Z;
  CleanupIn : Z
}.

(** One turn of the loop of [enrichPRReviews]; [hasClient] says whether
    [github.NewClient] gave a client. *)
Definition enrichOne (cfg : Config.Config)
    (prCache : prcache.GoMap) (hasClient : bool) (cleanupDays : Z)
    (wt : Worktree.Worktree) : Prog StatusPRReview :=
  (* Title from cache *)
  let key := prcache.cacheKey (Worktree.Repo wt) (Worktree.PRNumber wt) in
  let title :=
    match prCache ≫= (fun m => m !! key) with
    | Some meta => PRCacheData.Title meta
    | None => EmptyString
    end in
  (* Age *)
  aged ← CleanupReconciler.AgeDays (Worktree.Path wt);
  let ageDays :=
    match aged with
    | (days, None) => if 0 <=? days then days else 0
    | (_, Some _) => 0
    end in
  (* Remote state *)
  if hasClient && (0 <? Worktree.PRNumber wt) then
    let fullRepo := Config.RepoFullName cfg (Worktree.Repo wt) in
    st ← call (GetPRState fullRepo (Worktree.PRNumber wt));
    match st with
    | inl state =>
        if String.eqb state "MERGED" then
          let remaining := cleanupDays - ageDays in
          mret (mkStatusPRReview wt title state ageDays
                  (if remaining <? 0 then 0 else remaining))
        else mret (mkStatusPRReview wt title state ageDays 0)
    | inr _ => mret (mkStatusPRReview wt title EmptyString ageDays 0)
    end
  else mret (mkStatusPRReview wt title EmptyString ageDays 0).

Fixpoint enrichLoop (cfg : Config.Config) (prCache : prcache.GoMap)
    (hasClient : bool) (cleanupDays : Z) (wts : list Worktree.Worktree)
  : Prog (list StatusPRReview) :=
  match wts with
  | [] => mret []
  | wt :: rest =>
      r ← enrichOne cfg prCache hasClient cleanupDays wt;
      reviews ← enrichLoop cfg prCache hasClient cleanupDays rest;
      mret (r :: reviews)
  end.

Definition enrichPRReviews (cfg : Config.Config)
    (wts : list Worktree.Worktree) (prCache : prcache.GoMap)
  : Prog (list StatusPRReview) :=
  c ← call NewClient;
  let hasClient := match c with None => true | Some _ => false end in
  let cleanupDays := Config.GetCleanupAfterDays (Config.Watch cfg) in
  enrichLoop cfg prCache hasClient cleanupDays wts.

End Status.

(** ** More of the outside world

    The lock cleaner, [watch stop], the restart of the daemon and the
    [cleanup] command read files and directories by path, send [SIGTERM],
    read the check point and ask for the pull request of a branch; these
    calls are added to the ones above. *)

Module SysX.

(** [last_check.json] as [json.Unmarshal] reads it into a [checkState]: not
    decodable, or the three fields (absent fields are zero). *)
Inductive CheckJson : Type :=
| CheckMalformed
| CheckState (timestamp : string) (prCount : Z) (seenPRs : list string).

Inductive Call : Type -> Type :=
| Base {X : Type} (c : Sys.Call X) : Call X
| ReadFile (path : string) : Call (option string)
    (* os.ReadFile: the content, or an error *)
| ReadDir (path : string) : Call (option (list (string * bool)))
    (* os.ReadDir: name and IsDir of every entry, or an error *)
| KillTerm (pid : Z) : Call unit
    (* syscall.Kill(pid, syscall.SIGTERM), result dropped *)
| ReadLastCheck : Call (option CheckJson)
    (* os.ReadFile(lastCheckFile()) and json.Unmarshal *)
| GetPRStateByBranch (fullRepo branch : string) : Call (string * Z + string).
    (* state and number of the first pull request of the branch, or an error *)

Inductive Prog (A : Type) : Type :=
| Ret (a : A)
| Panic (msg : string)
| Do {X : Type} (c : Call X) (k : X -> Prog A).

Arguments Ret {A} a.
Arguments Panic {A} msg.
Arguments Do {A X} c k.

Fixpoint bind {A B : Type} (p : Prog A) (f : A -> Prog B) : Prog B :=
  match p with
  | Ret a => f a
  | Panic msg => Panic msg
  | Do c k => Do c (fun x => bind (k x) f)
  end.

Definition call {X : Type} (c : Call X) : Prog X := Do c Ret.

(** A program over the calls above, run among the additional ones. *)
Fixpoint lift {A : Type} (p : Sys.Prog A) : Prog A :=
  match p with
  | Sys.Ret a => Ret a
  | Sys.Panic msg => Panic msg
  | Sys.Do c k => Do (Base c) (fun x => lift (k x))
  end.

Inductive Event : Type :=
| Ev {X : Type} (c : Call X) (x : X).

Definition Handler (S : Type) : Type := forall X : Type, Call X -> S -> X * S.

Fixpoint run {S A : Type} (h : Handler S) (p : Prog A) (s : S)
  : Sys.Result A * S * list Event :=
  match p with
  | Ret a => (Sys.Done a, s, [])
  | Panic msg => (Sys.Crashed msg, s, [])
  | Do c k =>
      let '(x, s1) := h _ c s in
      let '(r, s2, tr) := run h (k x) s1 in
      (r, s2, Ev c x :: tr)
  end.

(** The calls of a trace that are among the ones of [Sys], as a trace of
    [Sys]. *)
Fixpoint base_events (tr : list Event) : list Sys.Event :=
  match tr with
  | [] => []
  | Ev c x :: rest =>
      match c in Call X return X -> list Sys.Event with
      | Base c0 => fun x => Sys.Ev c0 x :: base_events rest
      | _ => fun _ => base_events rest
      end x
  end.

(** The files removed, the processes probed with signal 0, the processes
    sent [SIGTERM], and what [ui] logged, in a trace. *)
Fixpoint removed (tr : list Event) : list string :=
  match tr with
  | [] => []
  | Ev c _ :: rest =>
      match c with
      | Base (Sys.OsRemove p) => p :: removed rest
      | _ => removed rest
      end
  end.

Fixpoint probed (tr : list Event) : list (Z * bool) :=
  match tr with
  | [] => []
  | Ev c x :: rest =>
      match c in Call X return X -> list (Z * bool) with
      | Base c0 =>
          match c0 in Sys.Call X return X -> list (Z * bool) with
          | Sys.Kill0 pid => fun alive => (pid, alive) :: probed rest
          | _ => fun _ => probed rest
          end
      | _ => fun _ => probed rest
      end x
  end.

Fixpoint terminated (tr : list Event) : list Z :=
  match tr with
  | [] => []
  | Ev c _ :: rest =>
      match c with
      | KillTerm pid => pid :: terminated rest
      | _ => terminated rest
      end
  end.

Fixpoint pid_file_removals (tr : list Event) : nat :=
  match tr with
  | [] => 0%nat
  | Ev c _ :: rest =>
      match c with
      | Base Sys.RemovePidFile => Datatypes.S (pid_file_removals rest)
      | _ => pid_file_removals rest
      end
  end.

Fixpoint files_read (tr : list Event) : list string :=
  match tr with
  | [] => []
  | Ev c _ :: rest =>
      match c with
      | ReadFile p => p :: files_read rest
      | _ => files_read rest
      end
  end.

Fixpoint stats (tr : list Event) : list (string * Sys.StatResult) :=
  match tr with
  | [] => []
  | Ev c x :: rest =>
      match c in Call X return X -> list (string * Sys.StatResult) with
      | Base c0 =>
          match c0 in Sys.Call X return X -> list (string * Sys.StatResult) with
          | Sys.OsStat p => fun st => (p, st) :: stats rest
          | _ => fun _ => stats rest
          end
      | _ => fun _ => stats rest
      end x
  end.

Fixpoint dir_listings (tr : list Event)
  : list (string * option (list (string * bool))) :=
  match tr with
  | [] => []
  | Ev c x :: rest =>
      match c in Call X
            return X -> list (string * option (list (string * bool))) with
      | ReadDir p => fun entries => (p, entries) :: dir_listings rest
      | _ => fun _ => dir_listings rest
      end x
  end.

Fixpoint pid_file_reads (tr : list Event) : list (option string) :=
  match tr with
  | [] => []
  | Ev c x :: rest =>
      match c in Call X return X -> list (option string) with
      | Base c0 =>
          match c0 in Sys.Call X return X -> list (option string) with
          | Sys.ReadPidFile => fun data => data :: pid_file_reads rest
          | _ => fun _ => pid_file_reads rest
          end
      | _ => fun _ => pid_file_reads rest
      end x
  end.

Fixpoint logged (tr : list Event) : list (string * string * list Err.LogArg) :=
  match tr with
  | [] => []
  | Ev c _ :: rest =>
      match c with
      | Base (Sys.UiLog level format args) => (level, format, args) :: logged rest
      | _ => logged rest
      end
  end.

End SysX.

#[global] Instance progx_ret : MRet SysX.Prog := @SysX.Ret.
#[global] Instance progx_bind : MBind SysX.Prog :=
  fun A B (f : A -> SysX.Prog B) (p : SysX.Prog A) => SysX.bind p f.

(** ** [internal/worktree/lock.go] *)

Module Locks.
Import SysX Err GoStr GoStr2.

(** The loop of [removeStaleLock] over the fields of the lock file: fields
    that are not numbers are passed over; the first number is probed, and
    the loop ends there whatever the answer. *)
Fixpoint holderAlive (fields : list string) : Prog bool :=
  match fields with
  | [] => mret false
  | field :: rest =>
      match Atoi field with
      | None => holderAlive rest
      | Some pid => call (Base (Sys.Kill0 pid))
      end
  end.

Definition removeStaleLock (lockFile name : string) : Prog unit :=
  data ← call (ReadFile lockFile);
  match data with
  | None => mret tt   (* file doesn't exist or can't be read *)
  | Some d =>
    let pidStr := TrimSpace d in
    alive ← holderAlive (Fields pidStr);
    if (alive : bool) then mret tt   (* process is alive, lock is legitimate *)
    else
      call (Base (Sys.UiLog "warn" "Removing stale index.lock for worktree: %s"
                    [LStr name]));;
      call (Base (Sys.OsRemove lockFile))
  end.

Fixpoint cleanEntries (worktreesDir : string) (entries : list (string * bool))
  : Prog unit :=
  match entries with
  | [] => mret tt
  | (name, isDir) :: rest =>
      (if (isDir : bool) then
         removeStaleLock
           (filepath_Join worktreesDir (filepath_Join name "index.lock")) name
       else mret tt);;
      cleanEntries worktreesDir rest
  end.

Definition CleanStaleLocks (cfg : Config.Config) (repo : string) : Prog unit :=
  let basePath := Config.RepoBasePath cfg repo in
  if String.eqb basePath EmptyString then mret tt else
  let gitDir := filepath_Join basePath (filepath_Join repo ".git") in
  st ← call (Base (Sys.OsStat gitDir));
  match st with
  | Sys.StatNotExist => mret tt
  | _ =>
    let worktreesDir := filepath_Join gitDir "worktrees" in
    entries ← call (ReadDir worktreesDir);
    match entries with
    | None => mret tt
    | Some es =>
      cleanEntries worktreesDir es;;
      (* Also check the main repo's own index.lock *)
      removeStaleLock (filepath_Join gitDir "index.lock") repo
    end
  end.

End Locks.

(** ** [cmd/watch.go]: stopping the daemon *)

Module WatchStop.
Import SysX Err GoStr.

Definition watchStop : Prog (option GoError) :=
  running ← lift Watch.watchIsRunning;
  match running with
  | (false, _) =>
      call (Base (Sys.UiLog "warn" "Watch daemon is not running" []));;
      mret None
  | (true, pid) =>
      call (KillTerm pid);;
      call (Base Sys.RemovePidFile);;
      call (Base (Sys.UiLog "success" "Watch daemon stopped (PID: %d)" [LInt pid]));;
      mret None
  end.

End WatchStop.

(** ** [internal/worktree/discovery.go]: the lines of [git worktree list] *)

Module ListParse.
Import GoStr GoStr2 Worktree.

(** A path without its trailing slashes. *)
Fixpoint strip_slashes (path : string) : string :=
  match path with
  | EmptyString => EmptyString
  | String c rest =>
      match strip_slashes rest with
      | EmptyString => if Ascii.eqb c "/" then EmptyString else String c EmptyString
      | t => String c t
      end
  end.

(** [filepath.Base] on a system without volume names: the last element of
    the path; [.] for the empty path and [/] for a path of slashes only. *)
Definition filepath_Base (path : string) : string :=
  match path with
  | EmptyString => "."
  | _ =>
      match strip_slashes path with
      | EmptyString => "/"
      | p => List.last (Split "/" p) EmptyString
      end
  end.

(** The text between the first [[] of the line and the first []] after it;
    empty when one of the two is missing. *)
Definition lineBranch (line : string) : string :=
  let idx := Index "[" line in
  if 0 <=? idx then
    let end_ := Index "]" (slice_from line idx) in
    if 0 <=? end_ then
      (* line[idx+1 : idx+end] *)
      String.substring (Z.to_nat (idx + 1))
        (Z.to_nat (idx + end_) - Z.to_nat (idx + 1)) line
    else EmptyString
  else EmptyString.

(** The body of the loop of [ListForRepo] for one line of the output: the
    record it appends, if any. *)
Definition parseLine (originPath repo line : string) : option Worktree :=
  if String.eqb line EmptyString then None else
  match Fields line with
  | [] => None
  | path :: _ =>
      (* Skip the main worktree *)
      if String.eqb path originPath then None
      else
        let name := filepath_Base path in
        Some (worktreeOf path name (lineBranch line) repo)
  end.

(** The loop over the lines that the scanner hands out. *)
Definition parseLines (originPath repo : string) (lines : list string)
  : list Worktree :=
  omap (parseLine originPath repo) lines.

End ListParse.

(** ** [cmd/watch.go]: the daemon after a restart *)

Module Restart.
Import SysX.

Definition loadSeenPRs : Prog (gset string) :=
  data ← call ReadLastCheck;
  match data with
  | None => mret ∅
  | Some CheckMalformed => mret ∅
  | Some (CheckState _ _ prs) =>
      mret (fold_left (fun (m : gset string) pr => {[pr]} ∪ m) prs ∅)
  end.

(** The two statements of [watchDaemon] that start its work:
    [seenPRs := loadSeenPRs()] and, after the tickers are set up, the
    initial [pollOnce]. *)
Definition firstPoll (cfg : Config.Config)
    (rec : SetupReconciler.SetupReconciler)
  : Prog (gset string * SetupReconciler.SetupReconciler) :=
  seenPRs ← loadSeenPRs;
  lift (Watch.pollOnce cfg seenPRs rec).

End Restart.

(** ** [cmd/cleanup.go]: finding the stale worktrees *)

Module CleanupCmd.
Import SysX Err GoStr.

Record staleWorktree : Type := mkStale {
  Worktree_ : Worktree.Worktree;
  Reason : LogArg
}.

(** The first check of the loop of [runCleanup]: the pull request of a
    review worktree. *)
Definition byNumber (cfg : Config.Config) (clientOk : bool)
    (wt : Worktree.Worktree) : Prog (option LogArg) :=
  match Worktree.Type' wt with
  | Worktree.TypePRReview =>
    if (0 <? Worktree.PRNumber wt) && clientOk then
      let fullRepo := Config.RepoFullName cfg (Worktree.Repo wt) in
      st ← call (Base (Sys.GetPRState fullRepo (Worktree.PRNumber wt)));
      match st with
      | inl state =>
          if String.eqb state "MERGED" then mret (Some (LStr "PR merged"))
          else if String.eqb state "CLOSED"
               then mret (Some (LStr "PR closed (not merged)"))
               else mret None
      | inr _ => mret None
      end
    else mret None
  | Worktree.TypeFeature => mret None
  end.

(** The second check: the pull request of the branch of a feature
    worktree. *)
Definition byBranch (cfg : Config.Config) (clientOk : bool)
    (wt : Worktree.Worktree) : Prog (option LogArg) :=
  match Worktree.Type' wt with
  | Worktree.TypeFeature =>
    if negb (String.eqb (Worktree.Branch wt) EmptyString) && clientOk then
      let fullRepo := Config.RepoFullName cfg (Worktree.Repo wt) in
      st ← call (GetPRStateByBranch fullRepo (Worktree.Branch wt));
      match st with
      | inl (state, prNum) =>
          if String.eqb state "MERGED"
          then mret (Some (LFmt "PR #%d merged" [AInt prNum]))
          else if String.eqb state "CLOSED"
               then mret (Some (LFmt "PR #%d closed (not merged)" [AInt prNum]))
               else mret None
      | inr _ => mret None
      end
    else mret None
  | Worktree.TypePRReview => mret None
  end.

(** The third check: the age of the last commit. *)
Definition byAge (cleanupDays : Z) (wt : Worktree.Worktree)
  : Prog (option LogArg) :=
  aged ← lift (CleanupReconciler.AgeDays (Worktree.Path wt));
  match aged with
  | (age, None) =>
      if cleanupDays <=? age
      then mret (Some (LFmt "No activity for %d days" [AInt age]))
      else mret None
  | (_, Some _) => mret None
  end.

(** One turn of the loop: the later checks are made only while the worktree
    is not yet found stale. *)
Definition staleOne (cfg : Config.Config) (clientOk : bool) (cleanupDays : Z)
    (wt : Worktree.Worktree) : Prog (option staleWorktree) :=
  r1 ← byNumber cfg clientOk wt;
  r2 ← match r1 with
       | Some _ => mret r1
       | None => byBranch cfg clientOk wt
       end;
  r3 ← match r2 with
       | Some _ => mret r2
       | None => byAge cleanupDays wt
       end;
  mret (match r3 with
        | Some reason => Some (mkStale wt reason)
        | None => None
        end).

Fixpoint staleLoop (cfg : Config.Config) (clientOk : bool) (cleanupDays : Z)
    (wts : list Worktree.Worktree) : Prog (list staleWorktree) :=
  match wts with
  | [] => mret []
  | wt :: rest =>
      r ← staleOne cfg clientOk cleanupDays wt;
      staleList ← staleLoop cfg clientOk cleanupDays rest;
      mret (match r with
            | Some st => st :: staleList
            | None => staleList
            end)
  end.

(** The part of [runCleanup] that finds the stale worktrees (between the
    banner and the report); [cleanupDays] is the value of [--days]. *)
Definition findStale (cfg : Config.Config) (cleanupDays : Z)
  : Prog (list staleWorktree) :=
  wts ← call (Base Sys.ListAll);
  c ← call (Base Sys.NewClient);
  let clientOk := match c with None => true | Some _ => false end in
  staleLoop cfg clientOk cleanupDays wts.

End CleanupCmd.

(** ** More vocabulary for the statements *)

Module SpecMore.
Import Worktree Github.

(** The state of the merge loop is sound: the set holds the numbers of the
    merged list, no number is in the list twice, and 0 is not among them. *)
Definition merge_inv (st : gset Z * list ReviewRequest) : Prop :=
  st.1 = list_to_set (map Number st.2) /\
  NoDup (map Number st.2) /\
  0 ∉ st.1.

(** The number of worktrees of a list that belong to repo [r], and the
    number of a given type. *)
Definition count_repo (r : string) (wts : list Worktree) : Z :=
  Z.of_nat (length (List.filter (fun wt => String.eqb (Repo wt) r) wts)).

Definition count_type (t : Type_) (wts : list Worktree) : Z :=
  Z.of_nat (length (List.filter
    (fun wt => match Type' wt, t with
               | TypePRReview, TypePRReview | TypeFeature, TypeFeature => true
               | _, _ => false
               end) wts)).

(** Is the version-control mutex held after a trace, when [held] says
    whether it was before? *)
Fixpoint held_after (held : bool) (tr : list Sys.Event) : bool :=
  match tr with
  | [] => held
  | Sys.Ev c _ :: rest =>
      match c with
      | Sys.GitMuLock => held_after true rest
      | Sys.GitMuUnlock => held_after false rest
      | _ => held_after held rest
      end
  end.

(** The files removed with [os.Remove] in a trace. *)
Fixpoint removed_files (tr : list Sys.Event) : list string :=
  match tr with
  | [] => []
  | Sys.Ev c _ :: rest =>
      match c with
      | Sys.OsRemove p => p :: removed_files rest
      | _ => removed_files rest
      end
  end.

(** The context injections, the worktree-ready notifications and the cache
    files written in a trace, and the number of times the mutex was taken. *)
Fixpoint injected (tr : list Sys.Event) : list (string * string * Z) :=
  match tr with
  | [] => []
  | Sys.Ev c _ :: rest =>
      match c with
      | Sys.InjectPRContext p r n => (p, r, n) :: injected rest
      | _ => injected rest
      end
  end.

Fixpoint ready_notified (tr : list Sys.Event) : list (Z * string) :=
  match tr with
  | [] => []
  | Sys.Ev c _ :: rest =>
      match c with
      | Sys.NotifyWorktreeReady n p => (n, p) :: ready_notified rest
      | _ => ready_notified rest
      end
  end.

Fixpoint cache_writes (tr : list Sys.Event) : list PRCacheData.Json :=
  match tr with
  | [] => []
  | Sys.Ev c _ :: rest =>
      match c with
      | Sys.WriteCacheFile data => data :: cache_writes rest
      | _ => cache_writes rest
      end
  end.

Fixpoint locks_taken (tr : list Sys.Event) : nat :=
  match tr with
  | [] => 0%nat
  | Sys.Ev c _ :: rest =>
      match c with
      | Sys.GitMuLock => Datatypes.S (locks_taken rest)
      | _ => locks_taken rest
      end
  end.

(** The cache that [prcache.Load] makes of the content of the file. *)
Definition loaded_of (file : option PRCacheData.Json)
  : gmap string PRCacheData.PRMeta :=
  match file with
  | Some (PRCacheData.JsonObject m) => m
  | _ => ∅
  end.

(** Was the pid file removed in a trace? *)
Fixpoint pid_removed (tr : list Sys.Event) : bool :=
  match tr with
  | [] => false
  | Sys.Ev c _ :: rest =>
      match c with
      | Sys.RemovePidFile => true
      | _ => pid_removed rest
      end
  end.

(** The remote state queries of a trace. *)
Fixpoint state_queries (tr : list Sys.Event) : list (string * Z) :=
  match tr with
  | [] => []
  | Sys.Ev c _ :: rest =>
      match c with
      | Sys.GetPRState r n => (r, n) :: state_queries rest
      | _ => state_queries rest
      end
  end.

(** What [enrichPRReviews] promises about one row. *)
Definition row_ok (cfg : Config.Config) (days : Z) (hasClient : bool)
    (state_of : string -> Z -> string + string)
    (last_of : string -> Sys.LastAct)
    (r : Status.StatusPRReview) : Prop :=
  0 <= Status.AgeDays r /\ 0 <= Status.CleanupIn r <= days /\
  (Status.State r <> "MERGED" -> Status.CleanupIn r = 0) /\
  (Status.State r = "MERGED" ->
   Status.CleanupIn r = Z.max 0 (days - Status.AgeDays r)) /\
  (hasClient = false -> Status.State r = "") /\
  (hasClient = true ->
   Worktree.Type' (Status.Worktree_ r) = Worktree.TypePRReview ->
   0 <= Worktree.PRNumber (Status.Worktree_ r) ->
   (Status.State r = "MERGED" /\ Status.CleanupIn r = 0 <->
    Spec.merged_and_aged cfg days state_of last_of (Status.Worktree_ r) = true)).

(** The first of the fields that reads as a number, if there is one. *)
Fixpoint firstInt (fields : list string) : option Z :=
  match fields with
  | [] => None
  | field :: rest =>
      match GoStr.Atoi field with
      | Some pid => Some pid
      | None => firstInt rest
      end
  end.

(** The [index.lock] of the worktree entry [name] under [worktreesDir]. *)
Definition entryLock (worktreesDir name : string) : string :=
  GoStr.filepath_Join worktreesDir (GoStr.filepath_Join name "index.lock").

(** Does the text hold a white-space rune? *)
Fixpoint has_space (s : string) : bool :=
  match s with
  | EmptyString => false
  | String c rest =>
      negb (Nat.eqb (GoStr.space_rune (String c rest)) 0) || has_space rest
  end.

(** The subprocesses of a trace with their answers: program, arguments,
    directory, and the output and the error of the run. *)
Fixpoint subprocess_outcomes (tr : list Sys.Event)
  : list (string * list string * string * (string * option string)) :=
  match tr with
  | [] => []
  | Sys.Ev c x :: rest =>
      match c in Sys.Call X
            return X -> list (string * list string * string *
                              (string * option string)) with
      | Sys.CombinedOutput name args dir =>
          fun r => (name, args, dir, r) :: subprocess_outcomes rest
      | _ => fun _ => subprocess_outcomes rest
      end x
  end.

(** Does the pid file of the state [s] name a live process?  The file can be
    read, its text without the surrounding white space is a number, and the
    process of that number answers signal 0. *)
Definition pid_file_live {S : Type} (h : Sys.Handler S) (s : S) : option Z :=
  match h _ Sys.ReadPidFile s with
  | (None, _) => None
  | (Some d, s1) =>
      match GoStr.Atoi (GoStr.TrimSpace d) with
      | None => None
      | Some pid => if (h _ (Sys.Kill0 pid) s1).1 then Some pid else None
      end
  end.

(** The remote state of the pull request of a worktree as the scanner can
    learn it: the answer of the remote client to the state query, which
    fails when no client could be created. *)
Definition remote_state (cfg : Config.Config) (client : option string)
    (state_of : string -> Z -> string + string) (w : Worktree.Worktree)
  : string + string :=
  match client with
  | Some err => inr err
  | None =>
      state_of (Config.RepoFullName cfg (Worktree.Repo w)) (Worktree.PRNumber w)
  end.

(** A PR-review worktree whose remote state is MERGED and whose age in
    days, from its last commit, is at least [days]; a worktree that cannot
    be dated has no age. *)
Definition merged_review (days : Z)
    (remote : Worktree.Worktree -> string + string)
    (last_of : string -> Sys.LastAct) (w : Worktree.Worktree) : bool :=
  match Worktree.Type' w with
  | Worktree.TypeFeature => false
  | Worktree.TypePRReview =>
      match remote w with
      | inl state =>
          String.eqb state "MERGED" &&
          match last_of (Worktree.Path w) with
          | Sys.LastAt age => days <=? age
          | _ => false
          end
      | inr _ => false
      end
  end.

(** A review worktree with a positive number whose pull request is merged
    or closed, and the reason [zen cleanup] gives for it. *)
Definition stale_by_state (cfg : Config.Config)
    (state_of : string -> Z -> string + string) (w : Worktree.Worktree)
  : option Err.LogArg :=
  match Worktree.Type' w with
  | Worktree.TypeFeature => None
  | Worktree.TypePRReview =>
      if 0 <? Worktree.PRNumber w then
        match state_of (Config.RepoFullName cfg (Worktree.Repo w))
                       (Worktree.PRNumber w) with
        | inl state =>
            if String.eqb state "MERGED" then Some (Err.LStr "PR merged")
            else if String.eqb state "CLOSED"
                 then Some (Err.LStr "PR closed (not merged)")
                 else None
        | inr _ => None
        end
      else None
  end.

(** A worktree whose last commit is at least [days] days old; a worktree
    without a commit counts as -1 days old. *)
Definition stale_by_age (days : Z) (last_of : string -> Sys.LastAct)
    (w : Worktree.Worktree) : bool :=
  match last_of (Worktree.Path w) with
  | Sys.LastAt age => days <=? age
  | Sys.LastZero => days <=? -1
  | Sys.LastErr _ => false
  end.

(** A Go map of counters read at a key: a missing key reads as 0. *)
Definition lookup0 (m : gmap string Z) (r : string) : Z := default 0 (m !! r).

End SpecMore.

(** ** More states of the simulated machine *)

Module Machine2.
Import Sys PRCacheData Machine.

(** The review worktree of pull request 42 is set up: the directory and its
    [CLAUDE.local.md] are on disk, and the cache holds its entry. *)
Definition set_up42 : World :=
  set_cacheFile
    (set_paths quiet
       ["/tmp/acme/app"; "/tmp/acme/app-pr-42";
        "/tmp/acme/app-pr-42/CLAUDE.local.md"])
    (Some (JsonObject {[ "app/42" := mkPRMeta "Add pagination" "alice" ]})).

(** The worktrees of [merged_worktrees] with a remote side that knows no
    pull request of number 0. *)
Definition merged_reviews : World :=
  {| paths := paths merged_worktrees;
     cacheFile := None; cacheWritable := true;
     pidFile := None; live := []; selfPid := 700; nextPid := 701;
     gitFails := false; injectFails := false; notifyFails := false;
     clientFails := false; reviews := inl [];
     worktrees := worktrees merged_worktrees;
     remoteState := fun _ n =>
       if n =? 0 then inr "404 Not Found"
       else if n =? 21 then inl "OPEN" else inl "MERGED";
     lastActivity := lastActivity merged_worktrees |}.

(** The machine with files and directories read by path, the processes
    that were sent [SIGTERM], the check point file and the pull requests of
    branches. *)
Record WorldX : Type := mkWorldX {
  base : World;
  files : list (string * string);
  dirs : list (string * list (string * bool));
  signalled : list Z;
  checkFile : option SysX.CheckJson;
  branchState : string -> string -> string * Z + string
}.

Fixpoint lookup_path {A : Type} (p : string) (l : list (string * A))
  : option A :=
  match l with
  | [] => None
  | (q, a) :: rest => if String.eqb p q then Some a else lookup_path p rest
  end.

Definition remove_file (p : string) (l : list (string * string))
  : list (string * string) :=
  List.filter (fun e => negb (String.eqb p (fst e))) l.

Definition worldx : SysX.Handler WorldX :=
  fun X c =>
    match c in SysX.Call X return WorldX -> X * WorldX with
    | SysX.Base c0 => fun w =>
        let '(x, b) := world _ c0 (base w) in
        (x, mkWorldX b
              match c0 with
              | OsRemove p => remove_file p (files w)
              | _ => files w
              end
              (dirs w) (signalled w) (checkFile w) (branchState w))
    | SysX.ReadFile p => fun w => (lookup_path p (files w), w)
    | SysX.ReadDir p => fun w => (lookup_path p (dirs w), w)
    | SysX.KillTerm pid => fun w =>
        (tt, mkWorldX
               (set_live (base w)
                  (List.filter (fun q => negb (Z.eqb pid q)) (live (base w))))
               (files w) (dirs w) (pid :: signalled w) (checkFile w)
               (branchState w))
    | SysX.ReadLastCheck => fun w => (checkFile w, w)
    | SysX.GetPRStateByBranch r b => fun w => (branchState w r b, w)
    end.

(** The answers of [w], which never changes. *)
Definition scriptedx (w : WorldX) : SysX.Handler unit :=
  fun X c _ => ((worldx X c w).1, tt).

(** The clone of [app] with two worktree entries: the lock of [app-pr-19]
    names the live process 4242, the lock of [app-pr-20] names no process at
    all; the clone's own lock names the dead process 99. *)
Definition locked : WorldX :=
  mkWorldX
    (set_paths daemon_running ["/tmp/acme/app"; "/tmp/acme/app/.git"])
    [("/tmp/acme/app/.git/worktrees/app-pr-19/index.lock", "4242 host");
     ("/tmp/acme/app/.git/worktrees/app-pr-20/index.lock", "DIRC");
     ("/tmp/acme/app/.git/index.lock", "host 99")]
    [("/tmp/acme/app/.git/worktrees",
      [("app-pr-19", true); ("app-pr-20", true); ("README", false)])]
    [] None (fun _ _ => inl (EmptyString, 0)).

(** The text of a lock file with a no-break space (U+00A0, the bytes C2 A0)
    between the pid and the host, and a clone whose own lock holds it while
    the process 4242 is alive. *)
Definition lock_no_break : string :=
  "4242" +:+ String "194" (String "160" "host") +:+ String "010" "".

Definition locked_no_break : WorldX :=
  mkWorldX (base locked)
    [("/tmp/acme/app/.git/index.lock", lock_no_break)]
    [] [] None (fun _ _ => inl (EmptyString, 0)).

(** The daemon is started again: the last check point names pull request
    42 as seen, and the poll returns 42 and 99. *)
Definition restarted : WorldX :=
  mkWorldX two_reviews [] [] []
    (Some (SysX.CheckState "2024-01-16T10:00:00Z" 1 ["42"]))
    (fun _ _ => inl (EmptyString, 0)).

(** The worktrees of [merged_worktrees] as the [cleanup] command meets
    them; the branch of the feature worktree has a closed pull request. *)
Definition cleanup_time : WorldX :=
  mkWorldX merged_worktrees [] [] [] None
    (fun _ b => if String.eqb b "search" then inl ("CLOSED", 77)
                else inl (EmptyString, 0)).

End Machine2.

(** * Theorems *)

#[local] Set Warnings "-clear-no-such-hyp".

(** ** Proof steps shared by the runs of programs *)

(** Takes the answer of the handler to the next call of the program. *)
Ltac answer :=
  match goal with
  | |- context [let '(_, _) := ?h ?X ?c ?s in _] =>
      is_var h;
      let x := fresh "x" in
      let s1 := fresh "s" in
      let E := fresh "E" in
      destruct (h X c s) as [x s1] eqn:E
  end.

(** Runs the program to its end, branching on every answer. *)
Ltac explore :=
  repeat (cbn; try unfold mret, prog_ret, mbind, prog_bind, Sys.call; cbn;
          first
            [ match goal with
              | |- context [match ?x with _ => _ end] => is_var x; destruct x
              end
            | answer ]);
  cbn; try unfold mret, prog_ret, mbind, prog_bind, Sys.call; cbn.

(** ** The string and number conversions *)

Module GoStrFacts.
Import GoStr.

Lemma app_nil_l (b : string) : EmptyString +:+ b = b.
Proof. reflexivity. Qed.

Lemma app_cons (x : ascii) (a b : string) :
  String x a +:+ b = String x (a +:+ b).
Proof. reflexivity. Qed.

Tactic Notation "simpl_app" := rewrite ?app_cons, ?app_nil_l.
Tactic Notation "simpl_app" "in" hyp(H) := rewrite ?app_cons, ?app_nil_l in H.

Lemma append_assoc (a b c : string) : (a +:+ b) +:+ c = a +:+ (b +:+ c).
Proof.
  induction a as [|x a IH]; simpl_app; [reflexivity | f_equal; exact IH].
Qed.

Lemma append_nil_r (a : string) : a +:+ EmptyString = a.
Proof.
  induction a as [|x a IH]; simpl_app; [reflexivity | f_equal; exact IH].
Qed.

Lemma length_append (a b : string) :
  String.length (a +:+ b) = (String.length a + String.length b)%nat.
Proof.
  induction a as [|x a IH]; simpl_app; simpl; [reflexivity | now rewrite IH].
Qed.

Lemma digit_char_ok (d : Z) :
  0 <= d < 10 -> is_digit (digit_char d) = true /\ digit_val (digit_char d) = d.
Proof.
  intros H.
  assert (d = 0 \/ d = 1 \/ d = 2 \/ d = 3 \/ d = 4 \/ d = 5 \/ d = 6 \/
          d = 7 \/ d = 8 \/ d = 9) as Hd by lia.
  repeat (destruct Hd as [-> | Hd]; [split; reflexivity |]).
  subst d; split; reflexivity.
Qed.

Lemma all_digits_app (a b : string) :
  all_digits (a +:+ b) = all_digits a && all_digits b.
Proof.
  induction a as [|x a IH]; simpl_app; simpl; [reflexivity |].
  rewrite IH. now rewrite andb_assoc.
Qed.

Lemma parse_digits_app (a b : string) (acc : Z) :
  parse_digits acc (a +:+ b) =
  match parse_digits acc a with
  | Some v => parse_digits v b
  | None => None
  end.
Proof.
  revert acc. induction a as [|x a IH]; intros acc; simpl_app; simpl;
    [reflexivity |].
  destruct (is_digit x); [apply IH | reflexivity].
Qed.

Lemma parse_digits_all_digits (s : string) (acc v : Z) :
  parse_digits acc s = Some v -> all_digits s = true.
Proof.
  revert acc. induction s as [|x s IH]; intros acc; simpl; [reflexivity |].
  destruct (is_digit x); [apply IH | discriminate].
Qed.

(** The digits written for [n] in front of [rest]: they are digits, there is
    at least one, and read back they extend any accumulator by [n]. *)
Lemma utoa_fuel_spec (fuel : nat) :
  forall (n : Z) (rest : string),
    (0 < fuel)%nat -> 0 <= n < 2 ^ Z.of_nat fuel ->
    exists ds : string,
      utoa_fuel fuel n rest = ds +:+ rest /\
      ds <> EmptyString /\
      all_digits ds = true /\
      forall acc, parse_digits acc ds =
                  Some (acc * 10 ^ Z.of_nat (String.length ds) + n).
Proof.
  induction fuel as [|f IH]; intros n rest Hf Hn; [lia |].
  simpl. destruct (Z.ltb_spec n 10) as [Hlt | Hge].
  - exists (String (digit_char (n mod 10)) EmptyString).
    rewrite Z.mod_small by lia.
    destruct (digit_char_ok n ltac:(lia)) as [Hd Hv].
    split; [reflexivity |]. split; [discriminate |]. split; simpl.
    + now rewrite Hd.
    + intros acc. rewrite Hd, Hv. f_equal; lia.
  - assert (Hq : 1 <= n / 10) by (apply Z.div_le_lower_bound; lia).
    assert (Hq2 : n / 10 < 2 ^ Z.of_nat f).
    { rewrite Nat2Z.inj_succ, Z.pow_succ_r in Hn by lia.
      apply Z.div_lt_upper_bound; lia. }
    assert (Hf' : (0 < f)%nat).
    { destruct f; [simpl in Hq2; lia | lia]. }
    destruct (IH (n / 10) (String (digit_char (n mod 10)) rest) Hf' ltac:(lia))
      as (ds & Heq & Hne & Hall & Hparse).
    destruct (digit_char_ok (n mod 10) ltac:(apply Z.mod_pos_bound; lia))
      as [Hd Hv].
    exists (ds +:+ String (digit_char (n mod 10)) EmptyString).
    split; [| split; [| split]].
    + rewrite Heq, append_assoc. simpl_app. reflexivity.
    + destruct ds; [congruence | discriminate].
    + rewrite all_digits_app, Hall. simpl. now rewrite Hd.
    + intros acc. rewrite parse_digits_app, Hparse. simpl.
      rewrite Hd, Hv, length_append. simpl String.length.
      f_equal. rewrite Nat.add_1_r, Nat2Z.inj_succ, Z.pow_succ_r by lia.
      pose proof (Z.div_mod n 10 ltac:(lia)). lia.
Qed.

Lemma utoa_spec (n : Z) :
  0 <= n ->
  utoa n <> EmptyString /\ all_digits (utoa n) = true /\
  parse_digits 0 (utoa n) = Some n.
Proof.
  intros Hn. unfold utoa.
  destruct (utoa_fuel_spec (S (Z.to_nat (Z.log2 n))) n EmptyString)
    as (ds & Heq & Hne & Hall & Hparse).
  - lia.
  - split; [lia |].
    destruct (Z.eq_dec n 0) as [-> | Hnz]; [simpl; lia |].
    rewrite Nat2Z.inj_succ, Z2Nat.id by apply Z.log2_nonneg.
    apply Z.log2_spec. lia.
  - rewrite append_nil_r in Heq. rewrite Heq.
    split; [assumption |]. split; [assumption |].
    rewrite Hparse. f_equal; lia.
Qed.

Lemma Itoa_nonneg (n : Z) : 0 <= n -> Itoa n = utoa n.
Proof. intros H. unfold Itoa. destruct (Z.ltb_spec n 0); [lia | reflexivity]. Qed.

Lemma digit_not_sign (c : ascii) :
  is_digit c = true ->
  Ascii.eqb c "-" = false /\ Ascii.eqb c "+" = false /\ is_space c = false.
Proof.
  intros H. split; [| split].
  - destruct (Ascii.eqb_spec c "-"); [subst; discriminate | reflexivity].
  - destruct (Ascii.eqb_spec c "+"); [subst; discriminate | reflexivity].
  - unfold is_digit in H. unfold is_space.
    apply andb_true_iff in H as [H1 H2].
    apply N.leb_le in H1.
    destruct (N.leb_spec (N_of_ascii c) 13); [lia |].
    rewrite andb_false_r. simpl. apply N.eqb_neq. lia.
Qed.

(** Reading back a number that [Itoa] wrote. *)
Lemma Atoi_Itoa (n : Z) : 0 <= n <= GoInt.max_int -> Atoi (Itoa n) = Some n.
Proof.
  intros Hn. rewrite Itoa_nonneg by lia.
  destruct (utoa_spec n ltac:(lia)) as (Hne & Hall & Hparse).
  unfold Atoi. destruct (utoa n) as [|c s] eqn:E; [congruence |].
  simpl in Hall. apply andb_true_iff in Hall as [Hc _].
  destruct (digit_not_sign c Hc) as (-> & -> & _). simpl orb. cbv iota.
  rewrite Hparse.
  assert (GoInt.in_range n = true) as ->; [| reflexivity].
  unfold GoInt.in_range, GoInt.min_int. apply andb_true_iff.
  split; apply Z.leb_le; [lia | tauto].
Qed.

Lemma cut_append (sep : ascii) (a b : string) :
  contains sep a = false ->
  cut sep (a +:+ String sep b) = Some (a, b).
Proof.
  induction a as [|x a IH]; simpl_app; simpl; intros H.
  - now rewrite Ascii.eqb_refl.
  - apply orb_false_iff in H as [Hx Ha].
    rewrite Hx, (IH Ha). reflexivity.
Qed.

Lemma cut_none (sep : ascii) (s : string) :
  contains sep s = false -> cut sep s = None.
Proof.
  induction s as [|x s IH]; simpl; intros H; [reflexivity |].
  apply orb_false_iff in H as [Hx Hs]. now rewrite Hx, (IH Hs).
Qed.

End GoStrFacts.

(** ** PR keys *)

Module KeysFacts.
Import GoStr GoStrFacts Keys Spec.

Lemma Atoi_integer_text (s : string) (n : Z) :
  Atoi s = Some n -> integer_text s.
Proof.
  unfold Atoi. destruct s as [|c rest]; [discriminate |].
  destruct (Ascii.eqb_spec c "-") as [-> | Hm]; simpl orb; cbv iota.
  - destruct rest as [|c' rest']; [discriminate |].
    destruct (parse_digits 0 (String c' rest')) eqn:E; [| discriminate].
    intros _. exists "-", (String c' rest').
    split; [reflexivity |]. split; [tauto |]. split; [discriminate |].
    eapply parse_digits_all_digits; eassumption.
  - destruct (Ascii.eqb_spec c "+") as [-> | Hp]; cbv iota.
    + destruct rest as [|c' rest']; [discriminate |].
      destruct (parse_digits 0 (String c' rest')) eqn:E; [| discriminate].
      intros _. exists "+", (String c' rest').
      split; [reflexivity |]. split; [tauto |]. split; [discriminate |].
      eapply parse_digits_all_digits; eassumption.
    + destruct (parse_digits 0 (String c rest)) eqn:E; [| discriminate].
      intros _. exists "", (String c rest).
      split; [reflexivity |]. split; [tauto |]. split; [discriminate |].
      eapply parse_digits_all_digits; eassumption.
Qed.

(** C2, as amended: for every repo name [r] without a colon and every
    [int] [n >= 0], [ParsePRKey (MakePRKey r n)] gives back [(r, n)] and no
    error; a key without a colon, and a key whose text after the first colon
    is not an integer, make [ParsePRKey] return an error. *)
Theorem ParsePRKey_MakePRKey :
  (forall (r : string) (n : Z),
      contains ":" r = false -> 0 <= n <= GoInt.max_int ->
      ParsePRKey (MakePRKey r n) = inl (r, n)) /\
  (forall key : string,
      contains ":" key = false ->
      ParsePRKey key =
      inr (Err.Errorf "invalid PR key %q: expected format repo:number"
             [Err.AStr key])) /\
  (forall r num : string,
      contains ":" r = false -> ~ integer_text num ->
      ParsePRKey (r +:+ ":" +:+ num) =
      inr (Err.Wrapf "invalid PR key %q: bad number: %w"
             [Err.AStr (r +:+ ":" +:+ num)] (Err.LibError "strconv.Atoi"))).
Proof.
  split; [| split].
  - intros r n Hr Hn. unfold ParsePRKey, MakePRKey, SplitN2.
    simpl_app. rewrite (cut_append ":" r (Itoa n) Hr).
    now rewrite (Atoi_Itoa n Hn).
  - intros key Hk. unfold ParsePRKey, SplitN2.
    now rewrite (cut_none ":" key Hk).
  - intros r num Hr Hnum. unfold ParsePRKey, SplitN2.
    simpl_app. rewrite (cut_append ":" r num Hr).
    destruct (Atoi num) as [n|] eqn:E; [| reflexivity].
    exfalso. apply Hnum. eapply Atoi_integer_text; eassumption.
Qed.

Lemma abc_not_integer_text : ~ integer_text "abc".
Proof.
  intros (sign & ds & Heq & Hs & Hne & Hd).
  destruct Hs as [-> | [-> | ->]]; simpl_app in Heq; try discriminate.
  subst ds. discriminate.
Qed.

Lemma ParsePRKey_MakePRKey_witness :
  ParsePRKey (MakePRKey "mono" 31414) = inl ("mono", 31414) /\
  ParsePRKey "invalid" =
    inr (Err.Errorf "invalid PR key %q: expected format repo:number"
           [Err.AStr "invalid"]) /\
  ParsePRKey ("mono" +:+ ":" +:+ "abc") =
    inr (Err.Wrapf "invalid PR key %q: bad number: %w"
           [Err.AStr ("mono" +:+ ":" +:+ "abc")] (Err.LibError "strconv.Atoi")).
Proof.
  destruct ParsePRKey_MakePRKey as (H1 & H2 & H3).
  split; [| split].
  - apply H1; [reflexivity | vm_compute; split; discriminate].
  - apply H2. reflexivity.
  - apply H3; [reflexivity | exact abc_not_integer_text].
Defined.

(** C2 as the specification states it fails for a repo name with a colon in
    it: the key is cut at its first colon. *)
Lemma ParsePRKey_MakePRKey_colon :
  "a:b" <> "" /\ 0 <= 1 /\
  MakePRKey "a:b" 1 = "a:b:1" /\
  ParsePRKey (MakePRKey "a:b" 1) <> inl ("a:b", 1).
Proof.
  split; [discriminate |]. split; [lia |]. split; [reflexivity |].
  vm_compute. discriminate.
Qed.

End KeysFacts.

(** ** Classification of worktree names *)

Module WorktreeFacts.
Import GoStr GoStrFacts Worktree.

Lemma prPattern_here_inv (s d : string) :
  prPattern_here s = Some d ->
  s = "-pr-" +:+ d /\ d <> "" /\ all_digits d = true.
Proof.
  unfold prPattern_here.
  destruct s as [|c1 [|c2 [|c3 [|c4 d']]]]; try discriminate.
  destruct (Ascii.eqb_spec c1 "-") as [-> |]; [| discriminate].
  destruct (Ascii.eqb_spec c2 "p") as [-> |]; [| discriminate].
  destruct (Ascii.eqb_spec c3 "r") as [-> |]; [| discriminate].
  destruct (Ascii.eqb_spec c4 "-") as [-> |]; [| discriminate].
  destruct (String.eqb_spec d' "") as [-> | Hne]; [discriminate |].
  destruct (all_digits d') eqn:Hd; [| discriminate].
  simpl. intros [= <-]. auto.
Qed.

Lemma prPattern_here_digits (d : string) :
  d <> "" -> all_digits d = true -> prPattern_here ("-pr-" +:+ d) = Some d.
Proof.
  intros Hne Hd. simpl_app. unfold prPattern_here.
  rewrite !Ascii.eqb_refl, Hd.
  destruct (String.eqb_spec d ""); [contradiction | reflexivity].
Qed.

Lemma all_digits_dash (a b : string) : all_digits (a +:+ "-" +:+ b) = false.
Proof.
  rewrite all_digits_app. simpl_app. simpl. apply andb_false_r.
Qed.

Lemma FindStringSubmatch_unfold (s : string) :
  prPattern_FindStringSubmatch s =
  match prPattern_here s with
  | Some d => Some d
  | None =>
      match s with
      | EmptyString => None
      | String _ rest => prPattern_FindStringSubmatch rest
      end
  end.
Proof. destruct s; reflexivity. Qed.

(** The leftmost match of [-pr-(\d+)$] is the only one: the digits at the
    end of the name. *)
Lemma FindStringSubmatch_suffix (pre d : string) :
  d <> "" -> all_digits d = true ->
  prPattern_FindStringSubmatch (pre +:+ "-pr-" +:+ d) = Some d.
Proof.
  intros Hne Hd. induction pre as [|c p IH].
  - rewrite app_nil_l, FindStringSubmatch_unfold.
    now rewrite (prPattern_here_digits d Hne Hd).
  - rewrite (app_cons c p), FindStringSubmatch_unfold.
    destruct (prPattern_here (String c (p +:+ "-pr-" +:+ d))) as [d0|] eqn:E;
      [| exact IH].
    apply prPattern_here_inv in E as (Heq & _ & Hd0).
    simpl_app in Heq. injection Heq as -> Heq.
    exfalso.
    destruct p as [|p1 [|p2 [|p3 p']]]; simpl_app in Heq;
      try discriminate Heq.
    + injection Heq as _ _ Heq. subst d0. discriminate Hd0.
    + injection Heq as _ _ _ Heq. subst d0.
      pose proof (all_digits_dash p' ("pr-" +:+ d)) as Hx.
      simpl_app in Hx. simpl_app in Hd0. congruence.
Qed.

Lemma FindStringSubmatch_inv (name d : string) :
  prPattern_FindStringSubmatch name = Some d ->
  exists pre : string,
    name = pre +:+ "-pr-" +:+ d /\ d <> "" /\ all_digits d = true.
Proof.
  induction name as [|c rest IH]; rewrite FindStringSubmatch_unfold.
  - discriminate.
  - destruct (prPattern_here (String c rest)) as [d0|] eqn:E.
    + intros [= ->]. apply prPattern_here_inv in E as (Heq & Hne & Hd).
      exists "". simpl_app. auto.
    + intros H. destruct (IH H) as (pre & -> & Hne & Hd).
      exists (String c pre). simpl_app. auto.
Qed.

Lemma digit_prefix_all (s : string) : all_digits s = true -> digit_prefix s = s.
Proof.
  induction s as [|c s IH]; simpl; [reflexivity |].
  intros H. apply andb_true_iff in H as [Hc Hs].
  unfold is_scan_digit. now rewrite Hc, (IH Hs).
Qed.

Lemma Sscanf_d_digits (ds : string) (old v : Z) :
  ds <> "" -> all_digits ds = true -> parse_digits 0 ds = Some v ->
  Sscanf_d ds old = if GoInt.in_range v then v else old.
Proof.
  intros Hne Hd Hp. destruct ds as [|c s]; [contradiction |].
  assert (Hc : is_digit c = true).
  { simpl in Hd. now apply andb_true_iff in Hd as [Hc _]. }
  destruct (digit_not_sign c Hc) as (Hm & Hpl & Hsp).
  unfold Sscanf_d. simpl trim_left. rewrite Hsp, Hm, Hpl.
  rewrite (digit_prefix_all _ Hd), Hp. reflexivity.
Qed.

Lemma Classify_digits (pre d : string) (v : Z) :
  d <> "" -> all_digits d = true -> parse_digits 0 d = Some v ->
  Classify (pre +:+ "-pr-" +:+ d) =
  (TypePRReview, if GoInt.in_range v then v else 0).
Proof.
  intros Hne Hd Hp. unfold Classify.
  rewrite (FindStringSubmatch_suffix pre d Hne Hd).
  now rewrite (Sscanf_d_digits d 0 v Hne Hd Hp).
Qed.

(** C5, as amended: a directory name [<repo>-pr-<k>], with [k] a positive
    [int] written in decimal, is classified as a PR review of number [k];
    a name that does not end in [-pr-] followed by one or more decimal digits
    is classified as feature work with number 0. *)
Theorem Classify_spec :
  (forall (repo : string) (k : Z),
      0 < k <= GoInt.max_int ->
      Classify (repo +:+ "-pr-" +:+ Itoa k) = (TypePRReview, k)) /\
  (forall name : string,
      ~ Spec.pr_suffixed name ->
      Classify name = (TypeFeature, 0)).
Proof.
  split.
  - intros repo k Hk. rewrite Itoa_nonneg by lia.
    destruct (utoa_spec k ltac:(lia)) as (Hne & Hd & Hp).
    rewrite (Classify_digits repo (utoa k) k Hne Hd Hp).
    assert (GoInt.in_range k = true) as ->; [| reflexivity].
    unfold GoInt.in_range, GoInt.min_int. apply andb_true_iff.
    split; apply Z.leb_le; [lia | tauto].
  - intros name Hn. unfold Classify.
    destruct (prPattern_FindStringSubmatch name) as [d|] eqn:E; [| reflexivity].
    exfalso. apply Hn. apply FindStringSubmatch_inv in E as (pre & H).
    exists pre, d. exact H.
Qed.

Lemma solo_no_pr_suffix : ~ Spec.pr_suffixed "solo".
Proof.
  intros (pre & d & H & _ & _).
  destruct pre as [|a [|b [|c [|e [|f pre]]]]]; simpl_app in H; discriminate H.
Qed.

Lemma Classify_spec_witness :
  Classify ("mono" +:+ "-pr-" +:+ Itoa 31640) = (TypePRReview, 31640) /\
  Classify "solo" = (TypeFeature, 0).
Proof.
  destruct Classify_spec as (H1 & H2). split.
  - apply H1. vm_compute. split; [reflexivity | discriminate].
  - apply H2. exact solo_no_pr_suffix.
Defined.

(** C5 as the specification states it fails on [mono-pr-0]: the name is not
    [<repo>-pr-<k>] for any positive [k], and it is classified as a PR review
    (of number 0), not as feature work. *)
Lemma Classify_pr_zero :
  (forall (repo : string) (k : Z), 0 < k -> "mono-pr-0" <> repo +:+ "-pr-" +:+ Itoa k) /\
  Classify "mono-pr-0" = (TypePRReview, 0) /\
  Classify "mono-pr-0" <> (TypeFeature, 0).
Proof.
  split; [| split; [reflexivity | discriminate]].
  intros repo k Hk Heq. rewrite Itoa_nonneg in Heq by lia.
  destruct (utoa_spec k ltac:(lia)) as (Hne & Hd & Hp).
  pose proof (FindStringSubmatch_suffix repo (utoa k) Hne Hd) as Hf.
  rewrite <- Heq in Hf. clear Heq Hne Hd.
  generalize dependent (utoa k). intros u Hp Hf.
  vm_compute in Hf. injection Hf as <-.
  vm_compute in Hp. injection Hp as Hp. lia.
Qed.

End WorktreeFacts.

(** ** Runs of programs *)

Module SysFacts.
Import Sys.

Section Run.
Context {S : Type} (h : Handler S).

Lemma run_Ret {A} (a : A) (s : S) : run h (Ret a) s = (Done a, s, []).
Proof. reflexivity. Qed.

Lemma run_Do {A X} (c : Call X) (k : X -> Prog A) (s : S) :
  run h (Do c k) s =
  let '(r, s2, tr) := run h (k (h X c s).1) (h X c s).2 in
  (r, s2, Ev c (h X c s).1 :: tr).
Proof. simpl. destruct (h X c s). reflexivity. Qed.

Lemma run_bind {A B} (p : Prog A) (f : A -> Prog B) (s : S) :
  run h (p ≫= f) s =
  match run h p s with
  | (Done a, s1, tr1) =>
      let '(r, s2, tr2) := run h (f a) s1 in (r, s2, tr1 ++ tr2)
  | (Crashed msg, s1, tr1) => (Crashed msg, s1, tr1)
  end.
Proof.
  change (p ≫= f) with (bind p f).
  revert s. induction p as [a | msg | X c k IH]; intros s; simpl.
  - destruct (run h (f a) s) as [[r s2] tr2]. reflexivity.
  - reflexivity.
  - destruct (h X c s) as [x s1]. rewrite IH.
    destruct (run h (k x) s1) as [[[a | msg] s2] tr1].
    + destruct (run h (f a) s2) as [[r s3] tr2]. reflexivity.
    + reflexivity.
Qed.

Lemma run_defer {A} (cleanup : Prog unit) (body : Prog A) (s : S) :
  run h (defer_ cleanup body) s =
  let '(r, s1, tr1) := run h body s in
  match run h cleanup s1 with
  | (Done _, s2, tr2) => (r, s2, tr1 ++ tr2)
  | (Crashed msg, s2, tr2) => (Crashed msg, s2, tr1 ++ tr2)
  end.
Proof.
  revert s. induction body as [a | msg | X c k IH]; intros s; simpl.
  - change (bind cleanup (fun _ => Ret a)) with (cleanup ≫= (fun _ => Ret a)).
    rewrite run_bind.
    destruct (run h cleanup s) as [[[u | msg] s2] tr2]; simpl;
      rewrite ?app_nil_r; reflexivity.
  - change (bind cleanup (fun _ => Panic msg))
      with (cleanup ≫= (fun _ => @Panic A msg)).
    rewrite run_bind.
    destruct (run h cleanup s) as [[[u | msg'] s2] tr2]; simpl;
      rewrite ?app_nil_r; reflexivity.
  - destruct (h X c s) as [x s1]. rewrite IH.
    destruct (run h (k x) s1) as [[r s2] tr1].
    destruct (run h cleanup s2) as [[[u | msg] s3] tr2]; reflexivity.
Qed.

End Run.

Lemma subprocesses_app (a b : list Event) :
  subprocesses (a ++ b) = subprocesses a ++ subprocesses b.
Proof.
  induction a as [|[X c x] a IH]; simpl; [reflexivity |].
  destruct c; simpl; rewrite ?IH; reflexivity.
Qed.

Lemma printed_app (a b : list Event) :
  printed (a ++ b) = printed a ++ printed b.
Proof.
  induction a as [|[X c x] a IH]; simpl; [reflexivity |].
  destruct c; simpl; rewrite ?IH; reflexivity.
Qed.

Lemma queued_cleanup_app (a b : list Event) :
  queued_cleanup (a ++ b) = queued_cleanup a ++ queued_cleanup b.
Proof.
  induction a as [|[X c x] a IH]; simpl; [reflexivity |].
  destruct c; simpl; rewrite ?IH; reflexivity.
Qed.
Lemma notified_app (a b : list Event) :
  notified (a ++ b) = notified a ++ notified b.
Proof.
  induction a as [|[X c x] a IH]; simpl; [reflexivity |].
  destruct c; simpl; rewrite ?IH; reflexivity.
Qed.

Lemma queued_setup_app (a b : list Event) :
  queued_setup (a ++ b) = queued_setup a ++ queued_setup b.
Proof.
  induction a as [|[X c x] a IH]; simpl; [reflexivity |].
  destruct c; simpl; rewrite ?IH; reflexivity.
Qed.

Lemma checkpoints_app (a b : list Event) :
  checkpoints (a ++ b) = checkpoints a ++ checkpoints b.
Proof.
  induction a as [|[X c x] a IH]; simpl; [reflexivity |].
  destruct c; simpl; rewrite ?IH; reflexivity.
Qed.
End SysFacts.

(** ** The cleanup reconciler *)

Module CleanupFacts.
Import Sys Err GoStr Keys SysFacts.
Import CleanupReconciler.

(** C8: for a key that parses and names a repo with a base path, when
    [os.Stat] of the worktree path says that it does not exist, the cleanup
    reconciler returns success and starts no subprocess, whatever the outside
    world answers to its other calls. *)
Theorem Reconcile_missing_worktree {S : Type} (h : Handler S) (s : S)
    (cfg : Config.Config) (key repo : string) (n : Z) :
  ParsePRKey key = inl (repo, n) ->
  Config.RepoBasePath cfg repo <> "" ->
  (h _ (OsStat (filepath_Join (Config.RepoBasePath cfg repo)
                  (repo +:+ "-pr-" +:+ Itoa n))) s).1 = StatNotExist ->
  exists (s' : S) (tr : list Event),
    run h (Reconcile cfg key) s = (Done None, s', tr) /\
    subprocesses tr = [].
Proof.
  intros Hkey Hbase Hstat. unfold Reconcile. rewrite Hkey.
  destruct (String.eqb_spec (Config.RepoBasePath cfg repo) "") as [? | _];
    [contradiction |].
  unfold removeWorktree. cbn.
  answer. cbn in Hstat. subst x. cbn. answer.
  eexists _, _. split; reflexivity.
Qed.

Lemma Reconcile_missing_worktree_witness :
  exists (s' : Machine.World) (tr : list Event),
    run Machine.world (Reconcile Machine.acme "app:19") Machine.quiet
    = (Done None, s', tr) /\
    subprocesses tr = [].
Proof.
  apply (Reconcile_missing_worktree Machine.world Machine.quiet Machine.acme
           "app:19" "app" 19).
  - reflexivity.
  - vm_compute. discriminate.
  - reflexivity.
Defined.

(** C1 does not hold for the code: for a key whose worktree path exists,
    the cleanup reconciler starts [git worktree remove <path> --force] from
    the origin clone, and it does so without the version-control mutex: the
    one subprocess of the run is started while the mutex is not held. *)
Theorem removeWorktree_without_GitMu {S : Type} (h : Handler S) (s : S)
    (cfg : Config.Config) (key repo : string) (n : Z) :
  ParsePRKey key = inl (repo, n) ->
  Config.RepoBasePath cfg repo <> "" ->
  (h _ (OsStat (filepath_Join (Config.RepoBasePath cfg repo)
                  (repo +:+ "-pr-" +:+ Itoa n))) s).1 = StatOk ->
  forall tr : list Event,
    tr = (run h (Reconcile cfg key) s).2 ->
    subprocesses tr =
      [("git",
        ["worktree"; "remove";
         filepath_Join (Config.RepoBasePath cfg repo) (repo +:+ "-pr-" +:+ Itoa n);
         "--force"],
        filepath_Join (Config.RepoBasePath cfg repo) repo)] /\
    exec_under_lock false tr = false.
Proof.
  intros Hkey Hbase Hstat tr ->. unfold Reconcile. rewrite Hkey.
  destruct (String.eqb_spec (Config.RepoBasePath cfg repo) "") as [? | _];
    [contradiction |].
  unfold removeWorktree. cbn.
  answer. cbn in Hstat. subst x. cbn. answer.
  destruct x as [out [err |]]; cbn.
  - split; reflexivity.
  - answer. split; reflexivity.
Qed.

Lemma removeWorktree_without_GitMu_witness :
  subprocesses
    (run Machine.world (Reconcile Machine.acme "app:19")
       Machine.with_worktree19).2 =
    [("git", ["worktree"; "remove"; "/tmp/acme/app-pr-19"; "--force"],
      "/tmp/acme/app")] /\
  exec_under_lock false
    (run Machine.world (Reconcile Machine.acme "app:19")
       Machine.with_worktree19).2 = false.
Proof.
  apply (removeWorktree_without_GitMu Machine.world Machine.with_worktree19
           Machine.acme "app:19" "app" 19).
  - reflexivity.
  - vm_compute. discriminate.
  - reflexivity.
  - reflexivity.
Defined.

(** Scenario 6: the worktree of a merged pull request is removed, and a
    second cleanup of the same key finds nothing to do, starts no subprocess
    and leaves the disk as it is. *)
Example cleanup_twice :
  let first := run Machine.world (Reconcile Machine.acme "app:19")
                 Machine.with_worktree19 in
  let second := run Machine.world (Reconcile Machine.acme "app:19") first.1.2 in
  first.1.1 = Done None /\
  Machine.has_path first.1.2 "/tmp/acme/app-pr-19" = false /\
  second.1.1 = Done None /\
  subprocesses second.2 = [] /\
  second.1.2 = first.1.2.
Proof. vm_compute. repeat split; reflexivity. Qed.

End CleanupFacts.

(** ** The setup reconciler *)

Module SetupFacts.
Import Sys Err GoStr Keys SysFacts.
Import SetupReconciler.

(** Setup starts [git fetch] and [git worktree add] with the mutex held. *)
Lemma ensureWorktree_under_GitMu {S : Type} (h : Handler S) (s : S)
    (originPath worktreePath worktreeName : string) (prNumber : Z) :
  exec_under_lock false
    (run h (ensureWorktree originPath worktreePath worktreeName prNumber) s).2
  = true.
Proof.
  unfold ensureWorktree. explore; reflexivity.
Qed.

(** C3: the setup reconciler returns a terminal (non-retriable) error
    exactly when the key does not parse, the repo has no base path in the
    configuration, or no payload is buffered for the key; any other error it
    returns is retriable, and a run in which a [git] subprocess failed ends
    in a retriable error. *)
Theorem Reconcile_terminal_errors {S : Type} (h : Handler S) (s s' : S)
    (r : SetupReconciler) (key : string)
    (res : Result (option GoError)) (tr : list Event) :
  run h (Reconcile r key) s = (res, s', tr) ->
  ((exists (e : GoError) (reason : string),
       res = Done (Some e) /\ GetNonRetriableDetails e = Some reason)
   <-> Spec.terminal_cause r key) /\
  (forall e : GoError,
      res = Done (Some e) -> ~ Spec.terminal_cause r key ->
      GetNonRetriableDetails e = None) /\
  (subprocess_failed tr = true ->
   exists e : GoError, res = Done (Some e) /\ GetNonRetriableDetails e = None).
Proof.
  unfold Reconcile, Spec.terminal_cause.
  destruct (ParsePRKey key) as [[repo n] | err].
  2:{ cbn. intros Hrun; simplify_eq. split; [| split].
      - split; [tauto | intros _; eauto].
      - tauto.
      - discriminate. }
  destruct (String.eqb_spec (Config.RepoBasePath (cfg r) repo) "") as [Hb | Hb].
  { cbn. intros Hrun; simplify_eq. split; [| split].
    - split; [tauto | intros _; eauto].
    - tauto.
    - discriminate. }
  destruct (getPRData r key) as [pr |].
  2:{ cbn. intros Hrun; simplify_eq. split; [| split].
      - split; [tauto | intros _; eauto].
      - tauto.
      - discriminate. }
  unfold ensureWorktree, ensureContextInjected, prcache.Set_, prcache.Load,
    prcache.Save.
  explore; intros Hrun; simplify_eq; (split; [| split]);
    try (split; [intros (e & reason & He & Hr); simplify_eq
                | intros [? | ?]; [contradiction | discriminate]]);
    try (intros e He _; simplify_eq; reflexivity);
    try (intros Hf; try discriminate Hf; eexists; split; reflexivity).
Qed.

(** Once step 1 has succeeded the setup reconciler never returns an error:
    it returns success, or it panics in the cache write of step 3 (the
    defect of [prcache.Set] on a cache file that holds [null]).  When it
    returns, a failed context injection and a failed notification have been
    printed as warnings, and after them the closing line. *)
Lemma Reconcile_after_step1 {S : Type} (h : Handler S) (s s1 : S)
    (r : SetupReconciler) (key repo : string) (n : Z)
    (pr : Github.ReviewRequest) (tr1 : list Event) :
  let basePath := Config.RepoBasePath (cfg r) repo in
  let worktreeName := repo +:+ "-pr-" +:+ Itoa n in
  let worktreePath := filepath_Join basePath worktreeName in
  let label :=
    LFmt "%s PR #%d %q" [AStr repo; AInt n; AStr (Github.Title pr)] in
  ParsePRKey key = inl (repo, n) ->
  basePath <> "" ->
  getPRData r key = Some pr ->
  run h (ensureWorktree (filepath_Join basePath repo) worktreePath
           worktreeName n) s = (Done None, s1, tr1) ->
  exists (res : Result (option GoError)) (s' : S) (tr2 : list Event),
    run h (Reconcile r key) s = (res, s', tr1 ++ tr2) /\
    (res = Done None \/ exists msg : string, res = Crashed msg) /\
    (res = Done None ->
     printed tr2 =
       Spec.inject_warning label (inject_failed tr2) ++
       Spec.notify_warning label (notify_failed tr2) ++
       [("Setup complete for %s (worktree: %s)", [label; LStr worktreePath])]).
Proof.
  intros basePath worktreeName worktreePath label Hkey Hbase Hdata Hens.
  unfold Reconcile. rewrite Hkey. fold basePath.
  destruct (String.eqb_spec basePath "") as [? | _]; [contradiction |].
  rewrite Hdata. fold worktreeName worktreePath label.
  rewrite run_bind, Hens.
  unfold ensureContextInjected, prcache.Set_, prcache.Load, prcache.Save.
  explore;
    eexists _, _, _; (split; [reflexivity |]);
    (split; [first [left; reflexivity | right; eexists; reflexivity] |]);
    intros Hr; try discriminate Hr; reflexivity.
Qed.

(** C7 does not hold for the code at step 3.  In every run of the setup
    reconciler in which the write of the display cache fails, the
    reconciler returns success, as the claim says, but the failure is not
    logged: nothing goes to the user log, and the lines printed are the
    warning of a failed context injection, if it failed, the warning of a
    failed notification, if it failed, and the closing line, with no line
    for the cache. *)
Theorem Reconcile_cache_failure_unlogged {S : Type} (h : Handler S) (s s' : S)
    (r : SetupReconciler) (key : string)
    (res : Result (option GoError)) (tr : list Event) :
  run h (Reconcile r key) s = (res, s', tr) ->
  cache_write_failed tr = true ->
  res = Done None /\ ui_logs tr = [] /\
  exists (repo : string) (n : Z) (pr : Github.ReviewRequest),
    ParsePRKey key = inl (repo, n) /\ getPRData r key = Some pr /\
    let label :=
      LFmt "%s PR #%d %q" [AStr repo; AInt n; AStr (Github.Title pr)] in
    let worktreePath :=
      filepath_Join (Config.RepoBasePath (cfg r) repo)
        (repo +:+ "-pr-" +:+ Itoa n) in
    printed tr =
      Spec.inject_warning label (inject_failed tr) ++
      Spec.notify_warning label (notify_failed tr) ++
      [("Setup complete for %s (worktree: %s)", [label; LStr worktreePath])].
Proof.
  unfold Reconcile.
  destruct (ParsePRKey key) as [[repo n] | err].
  2:{ cbn. intros Hrun Hc; simplify_eq; try discriminate Hc. }
  destruct (String.eqb_spec (Config.RepoBasePath (cfg r) repo) "") as [Hb | Hb].
  { cbn. intros Hrun Hc; simplify_eq; try discriminate Hc. }
  destruct (getPRData r key) as [pr |].
  2:{ cbn. intros Hrun Hc; simplify_eq; try discriminate Hc. }
  unfold ensureWorktree, ensureContextInjected, prcache.Set_, prcache.Load,
    prcache.Save.
  explore; intros Hrun Hc; simplify_eq; try discriminate Hc;
    (split; [reflexivity |]); (split; [reflexivity |]);
    exists repo, n, pr; (split; [reflexivity |]); (split; [reflexivity |]);
    reflexivity.
Qed.

Lemma Reconcile_terminal_errors_witness :
  exists (res : Result (option GoError)) (tr : list Event),
    subprocess_failed tr = true /\
    (exists e : GoError, res = Done (Some e) /\ GetNonRetriableDetails e = None) /\
    ((exists (e : GoError) (reason : string),
         res = Done (Some e) /\ GetNonRetriableDetails e = Some reason)
     <-> Spec.terminal_cause Machine.rec42 "app:42").
Proof.
  destruct (run Machine.world (Reconcile Machine.rec42 "app:42") Machine.offline)
    as [[res s'] tr] eqn:Hrun.
  destruct (Reconcile_terminal_errors Machine.world Machine.offline s'
              Machine.rec42 "app:42" res tr Hrun) as (Hiff & _ & Hfail).
  exists res, tr.
  assert (Hf : subprocess_failed tr = true).
  { vm_compute in Hrun. simplify_eq. reflexivity. }
  split; [exact Hf |]. split; [exact (Hfail Hf) | exact Hiff].
Defined.

(** The three terminal failures and a retriable one, on the simulated
    machine. *)
Example Reconcile_failures :
  (exists e, (run Machine.world (Reconcile Machine.rec42 "badkey") Machine.quiet).1.1
             = Done (Some e) /\
             GetNonRetriableDetails e = Some "invalid key format") /\
  (exists e, (run Machine.world (Reconcile Machine.rec42 "nonexistent:7") Machine.quiet).1.1
             = Done (Some e) /\
             GetNonRetriableDetails e = Some "repo not configured") /\
  (exists e, (run Machine.world (Reconcile Machine.rec42 "app:7") Machine.quiet).1.1
             = Done (Some e) /\
             GetNonRetriableDetails e = Some "missing PR metadata") /\
  (exists e, (run Machine.world (Reconcile Machine.rec42 "app:42") Machine.offline).1.1
             = Done (Some e) /\
             GetNonRetriableDetails e = None).
Proof. repeat split; eexists; split; reflexivity. Qed.

Lemma Reconcile_cache_failure_unlogged_witness :
  (run Machine.world (Reconcile Machine.rec42 "app:42")
     Machine.readonly_cache).1.1 = Done None /\
  cache_write_failed
    (run Machine.world (Reconcile Machine.rec42 "app:42")
       Machine.readonly_cache).2 = true /\
  ui_logs
    (run Machine.world (Reconcile Machine.rec42 "app:42")
       Machine.readonly_cache).2 = [] /\
  printed
    (run Machine.world (Reconcile Machine.rec42 "app:42")
       Machine.readonly_cache).2 =
    [("Setup complete for %s (worktree: %s)",
      [LFmt "%s PR #%d %q" [AStr "app"; AInt 42; AStr "Add pagination"];
       LStr "/tmp/acme/app-pr-42"])].
Proof.
  destruct (run Machine.world (Reconcile Machine.rec42 "app:42")
              Machine.readonly_cache) as [[res s'] tr] eqn:Hrun.
  assert (Hc : cache_write_failed tr = true).
  { vm_compute in Hrun. simplify_eq. reflexivity. }
  destruct (Reconcile_cache_failure_unlogged Machine.world
              Machine.readonly_cache s' Machine.rec42 "app:42" res tr Hrun Hc)
    as (Hres & Hui & _).
  split; [exact Hres |]. split; [exact Hc |]. split; [exact Hui |].
  vm_compute in Hrun. simplify_eq. reflexivity.
Defined.

End SetupFacts.

(** ** The cleanup scanner *)

Module ScanFacts.
Import Sys Err GoStr Keys SysFacts.
Import CleanupReconciler.

Section Scan.
Context {S : Type} (h : Handler S) (cfg : Config.Config) (days : Z).
Context (state_of : string -> Z -> string + string).
Context (last_of : string -> LastAct).
Hypothesis Hstate :
  forall fullRepo n s, (h _ (GetPRState fullRepo n) s).1 = state_of fullRepo n.
Hypothesis Hlast : forall path s, (h _ (LastActivity path) s).1 = last_of path.
Hypothesis Hdays : 0 <= days.

Lemma scanOne_queued (w : Worktree.Worktree) (s : S) :
  exists (s' : S) (tr : list Event),
    run h (scanOne cfg days w) s = (Done tt, s', tr) /\
    queued_cleanup tr =
      if Spec.merged_and_aged cfg days state_of last_of w
      then [(Spec.cleanup_key w, 0)] else [].
Proof.
  unfold scanOne, Spec.merged_and_aged, Spec.cleanup_key, AgeDays.
  destruct (Worktree.Type' w); [| eexists _, _; split; reflexivity].
  destruct (Worktree.PRNumber w =? 0); [eexists _, _; split; reflexivity |].
  cbn. answer.
  pose proof (Hstate (Config.RepoFullName cfg (Worktree.Repo w))
                (Worktree.PRNumber w) s) as Hs.
  rewrite E in Hs. cbn in Hs. rewrite <- Hs. clear Hs.
  destruct x as [state | err]; cbn; [| eexists _, _; split; reflexivity].
  destruct (String.eqb state "MERGED"); cbn;
    [| eexists _, _; split; reflexivity].
  answer.
  pose proof (Hlast (Worktree.Path w) s0) as Hl.
  rewrite E0 in Hl. cbn in Hl. rewrite <- Hl. clear Hl.
  destruct x as [msg | | age]; cbn; try (eexists _, _; split; reflexivity).
  - destruct (Z.ltb_spec (-1) days); [| lia].
    eexists _, _; split; reflexivity.
  - destruct (Z.ltb_spec age days), (Z.leb_spec days age); try lia;
      cbn; [eexists _, _; split; reflexivity |].
    answer. destruct x as [err |]; cbn; try (answer; destruct x);
      eexists _, _; split; reflexivity.
Qed.

Lemma scanLoop_queued (wts : list Worktree.Worktree) (s : S) :
  exists (s' : S) (tr : list Event),
    run h (scanLoop cfg days wts) s = (Done tt, s', tr) /\
    queued_cleanup tr =
      map (fun w => (Spec.cleanup_key w, 0))
          (List.filter (Spec.merged_and_aged cfg days state_of last_of) wts).
Proof.
  revert s. induction wts as [|w rest IH]; intros s.
  - eexists _, _; split; reflexivity.
  - cbn [scanLoop]. rewrite run_bind.
    destruct (scanOne_queued w s) as (s1 & tr1 & -> & Hq1).
    destruct (IH s1) as (s2 & tr2 & -> & Hq2).
    eexists _, _; split; [reflexivity |].
    rewrite queued_cleanup_app, Hq1, Hq2. cbn [List.filter].
    destruct (Spec.merged_and_aged cfg days state_of last_of w); reflexivity.
Qed.

End Scan.

Lemma GetCleanupAfterDays_pos (w : Config.WatchConfig) :
  0 < Config.GetCleanupAfterDays w.
Proof.
  unfold Config.GetCleanupAfterDays.
  destruct (Z.ltb_spec 0 (Config.CleanupAfterDays w)); lia.
Qed.

(** The guard on the number 0 changes nothing when the remote side has no
    merged pull request of that number. *)
Lemma merged_and_aged_review (cfg : Config.Config) (days : Z)
    (state_of : string -> Z -> string + string) (last_of : string -> LastAct)
    (w : Worktree.Worktree) :
  (forall fullRepo, state_of fullRepo 0 <> inl "MERGED") ->
  Spec.merged_and_aged cfg days state_of last_of w =
  SpecMore.merged_review days (SpecMore.remote_state cfg None state_of) last_of w.
Proof.
  intros Hzero. unfold Spec.merged_and_aged, SpecMore.merged_review,
    SpecMore.remote_state.
  destruct (Worktree.Type' w); [| reflexivity].
  destruct (Z.eqb_spec (Worktree.PRNumber w) 0) as [E | _]; [| reflexivity].
  rewrite E. cbn.
  specialize (Hzero (Config.RepoFullName cfg (Worktree.Repo w))).
  destruct (state_of (Config.RepoFullName cfg (Worktree.Repo w)) 0)
    as [state | err]; [| reflexivity].
  destruct (String.eqb_spec state "MERGED") as [-> | _];
    [contradiction | reflexivity].
Qed.

Lemma no_client_no_review (cfg : Config.Config) (days : Z) (err : string)
    (state_of : string -> Z -> string + string) (last_of : string -> LastAct)
    (wts : list Worktree.Worktree) :
  List.filter
    (SpecMore.merged_review days (SpecMore.remote_state cfg (Some err) state_of)
       last_of) wts = [].
Proof.
  induction wts as [|w rest IH]; [reflexivity |].
  cbn [List.filter]. unfold SpecMore.merged_review at 1. cbn.
  destruct (Worktree.Type' w); exact IH.
Qed.

(** C6: a cleanup tick returns normally and hands to the cleanup queue, in
    the order of the inventory, the key [MakePRKey repo n] of exactly the
    PR-review worktrees whose remote state is MERGED and whose age in days,
    from the last commit, is at least [cleanup_after_days]; feature
    worktrees, worktrees whose state query fails and worktrees that cannot
    be dated are passed over.  The remote state of a worktree is the answer
    of the remote client, and the query fails for every worktree when no
    client can be created.  The remote side has no merged pull request of
    number 0: pull requests are numbered from 1.  The answers of the remote
    side and the commit dates are those of the handler, the same at every
    call of the scan. *)
Theorem cleanupTick_merged_reviews {S : Type} (h : Handler S) (s : S)
    (cfg : Config.Config)
    (state_of : string -> Z -> string + string)
    (last_of : string -> LastAct) :
  (forall fullRepo n s0, (h _ (GetPRState fullRepo n) s0).1 = state_of fullRepo n) ->
  (forall path s0, (h _ (LastActivity path) s0).1 = last_of path) ->
  (forall fullRepo, state_of fullRepo 0 <> inl "MERGED") ->
  let days := Config.GetCleanupAfterDays (Config.Watch cfg) in
  let wts := (h _ ListAll s).1 in
  let client := (h _ NewClient (h _ ListAll s).2).1 in
  exists (s' : S) (tr : list Event),
    run h (Watch.cleanupTick cfg) s = (Done tt, s', tr) /\
    queued_cleanup tr =
      map (fun w => (MakePRKey (Worktree.Repo w) (Worktree.PRNumber w), 0))
        (List.filter
           (SpecMore.merged_review days
              (SpecMore.remote_state cfg client state_of) last_of) wts).
Proof.
  intros Hstate Hlast Hzero days wts client.
  unfold Watch.cleanupTick, ScanMergedPRs. fold days. cbn.
  subst wts client.
  destruct (h _ ListAll s) as [wts s1]. cbn.
  destruct (h _ NewClient s1) as [[err |] s2]; cbn.
  - answer. destruct x. eexists _, _; split; [reflexivity |].
    rewrite no_client_no_review. reflexivity.
  - pose proof (GetCleanupAfterDays_pos (Config.Watch cfg)) as Hpos.
    destruct (scanLoop_queued h cfg days state_of last_of Hstate Hlast
                ltac:(subst days; lia) wts s2) as (s3 & tr & Hrun & Hq).
    rewrite Hrun. eexists _, _; split; [reflexivity |]. refine (eq_trans Hq _).
    unfold Spec.cleanup_key. f_equal.
    apply filter_ext. intros w.
    apply merged_and_aged_review, Hzero.
Qed.

Lemma cleanupTick_merged_reviews_witness :
  exists (s' : unit) (tr : list Event),
    run (Machine.scripted Machine2.merged_reviews)
      (Watch.cleanupTick Machine.acme) tt = (Done tt, s', tr) /\
    queued_cleanup tr = [("app:19", 0)].
Proof.
  apply (cleanupTick_merged_reviews (Machine.scripted Machine2.merged_reviews) tt
           Machine.acme
           (Machine.remoteState Machine2.merged_reviews)
           (Machine.lastActivity Machine2.merged_reviews)).
  - intros fullRepo n s0. reflexivity.
  - intros path s0. reflexivity.
  - intros fullRepo. cbn. discriminate.
Defined.

End ScanFacts.

(** ** The poller *)

Module PollFacts.
Import Sys Err GoStr GoStrFacts Keys SysFacts.
Import SetupReconciler Watch.

Lemma Itoa_inj (n m : Z) : Itoa n = Itoa m -> n = m.
Proof.
  unfold Itoa.
  destruct (Z.ltb_spec n 0) as [Hn | Hn], (Z.ltb_spec m 0) as [Hm | Hm];
    intros H.
  - injection H as H.
    destruct (utoa_spec (- n) ltac:(lia)) as (_ & _ & Hp).
    destruct (utoa_spec (- m) ltac:(lia)) as (_ & _ & Hq).
    rewrite H in Hp. rewrite Hp in Hq. injection Hq as Hq. lia.
  - destruct (utoa_spec m ltac:(lia)) as (_ & Hd & _).
    rewrite <- H in Hd. discriminate Hd.
  - destruct (utoa_spec n ltac:(lia)) as (_ & Hd & _).
    rewrite H in Hd. discriminate Hd.
  - destruct (utoa_spec n ltac:(lia)) as (_ & _ & Hp).
    destruct (utoa_spec m ltac:(lia)) as (_ & _ & Hq).
    rewrite H in Hp. rewrite Hp in Hq. injection Hq as Hq. lia.
Qed.

Import Spec.

Section Poll.
Context {S : Type} (h : Handler S) (cfg : Config.Config).

Lemma pollStep_spec (pr : Github.ReviewRequest) (seen : gset string)
    (rec : SetupReconciler) (s : S) :
  exists (s' : S) (tr : list Event),
    run h (pollStep cfg pr (seen, rec)) s =
      (Done (if decide (prKey pr ∈ seen) then (seen, rec)
             else ({[prKey pr]} ∪ seen,
                   if Spec.by_author cfg pr
                   then StorePRData rec (Spec.setup_key pr) pr else rec)),
       s', tr) /\
    notified tr = (if decide (prKey pr ∈ seen) then [] else [info pr]) /\
    queued_setup tr =
      (if decide (prKey pr ∈ seen) then []
       else if Spec.by_author cfg pr then [(Spec.setup_key pr, 1)] else []) /\
    checkpoints tr = [].
Proof.
  unfold pollStep, prKey, Spec.by_author, Spec.setup_key, info.
  destruct (decide (Itoa (Github.Number pr) ∈ seen)) as [Hin | Hnin].
  - eexists _, _. repeat split; reflexivity.
  - cbn. answer. cbn. answer. cbn.
    destruct (Config.IsAuthor cfg (Github.AuthorLogin pr)); cbn.
    + answer. destruct x1 as [err |]; cbn; answer; cbn;
        eexists _, _; repeat split; reflexivity.
    + eexists _, _. repeat split; reflexivity.
Qed.

Lemma pollLoop_spec (reviews : list Github.ReviewRequest) :
  forall (seen : gset string) (rec : SetupReconciler) (s : S),
  exists (seen' : gset string) (s' : S) (tr : list Event),
    run h (pollLoop cfg reviews (seen, rec)) s =
      (Done (seen', stored cfg rec (Spec.fresh seen reviews)), s', tr) /\
    seen' = list_to_set (map prKey reviews) ∪ seen /\
    notified tr = map info (Spec.fresh seen reviews) /\
    queued_setup tr =
      map (fun pr => (Spec.setup_key pr, 1))
        (List.filter (Spec.by_author cfg) (Spec.fresh seen reviews)) /\
    checkpoints tr = [].
Proof.
  induction reviews as [|pr rest IH]; intros seen rec s.
  - exists seen, s, []. cbn. repeat split; try reflexivity. set_solver.
  - cbn [pollLoop]. rewrite run_bind.
    destruct (pollStep_spec pr seen rec s) as (s1 & tr1 & -> & Hn1 & Hq1 & Hc1).
    cbn [Spec.fresh]. fold (prKey pr) in *.
    destruct (decide (prKey pr ∈ seen)) as [Hin | Hnin].
    + destruct (IH seen rec s1) as (seen' & s2 & tr2 & -> & -> & Hn2 & Hq2 & Hc2).
      eexists _, _, _. split; [reflexivity |].
      rewrite notified_app, queued_setup_app, checkpoints_app.
      rewrite Hn1, Hq1, Hc1, Hn2, Hq2, Hc2.
      repeat split; try reflexivity. cbn. set_solver.
    + destruct (IH ({[prKey pr]} ∪ seen)
                  (if Spec.by_author cfg pr
                   then StorePRData rec (Spec.setup_key pr) pr else rec) s1)
        as (seen' & s2 & tr2 & -> & -> & Hn2 & Hq2 & Hc2).
      eexists _, _, _. split.
      { unfold stored. cbn [List.filter].
        destruct (Spec.by_author cfg pr); reflexivity. }
      rewrite notified_app, queued_setup_app, checkpoints_app.
      rewrite Hn1, Hq1, Hc1, Hn2, Hq2, Hc2. cbn [List.filter].
      destruct (Spec.by_author cfg pr); repeat split; try reflexivity;
        cbn; set_solver.
Qed.

End Poll.

Lemma fresh_filter (reviews : list Github.ReviewRequest) :
  forall seen : gset string,
    NoDup (map Github.Number reviews) ->
    Spec.fresh seen reviews =
    List.filter (fun pr => negb (bool_decide (prKey pr ∈ seen))) reviews.
Proof.
  induction reviews as [|pr rest IH]; intros seen Hnd; [reflexivity |].
  cbn [map] in Hnd. apply NoDup_cons in Hnd as [Hnotin Hnd].
  cbn [Spec.fresh List.filter]. fold (prKey pr).
  destruct (decide (prKey pr ∈ seen)) as [Hin | Hnin].
  - rewrite (bool_decide_eq_true_2 _ Hin). cbn. apply IH, Hnd.
  - rewrite (bool_decide_eq_false_2 _ Hnin). cbn. f_equal.
    rewrite (IH _ Hnd). apply List.filter_ext_in. intros q Hq.
    f_equal. apply bool_decide_ext.
    assert (prKey q <> prKey pr).
    { intros Heq. apply Itoa_inj in Heq. apply Hnotin.
      rewrite <- Heq. apply list_elem_of_In, in_map, Hq. }
    set_solver.
Qed.

(** C4: one poll, for the list of review requests the remote client
    returned.  For every pull request that is new (its number is not in the
    seen set) a notification is sent; its payload is stored and its key
    queued for setup, with priority 1, exactly when its author is
    configured; the seen set ends up holding the number of every returned
    pull request; and the check point is written once, after the loop. *)
Theorem pollOnce_spec {S : Type} (h : Handler S) (s s0 : S)
    (cfg : Config.Config) (seen : gset string) (rec : SetupReconciler)
    (reviews : list Github.ReviewRequest) :
  h _ (GetReviewRequests "chainguard-dev/mono") s = (inl reviews, s0) ->
  let new := fresh seen reviews in
  let seen' : gset string := list_to_set (map prKey reviews) ∪ seen in
  exists (s' : S) (loop : list Event),
    run h (pollOnce cfg seen rec) s =
      (Done (seen', stored cfg rec new), s',
       Ev (GetReviewRequests "chainguard-dev/mono") (inl reviews)
       :: loop ++
          [Ev (WriteLastCheck (Z.of_nat (length reviews)) seen') tt]) /\
    notified loop = map info new /\
    queued_setup loop =
      map (fun pr => (setup_key pr, 1)) (List.filter (by_author cfg) new) /\
    checkpoints loop = [] /\
    (NoDup (map Github.Number reviews) ->
     new = List.filter (fun pr => negb (bool_decide (prKey pr ∈ seen))) reviews).
Proof.
  intros Hget new seen'. unfold pollOnce. rewrite run_bind.
  cbn [call run]. rewrite Hget. cbn [run].
  rewrite run_bind.
  destruct (pollLoop_spec h cfg reviews seen rec s0)
    as (seen1 & s1 & loop & -> & -> & Hn & Hq & Hc).
  fold seen'. unfold saveState. cbn.
  answer. destruct x.
  exists s2, loop. split; [reflexivity |].
  split; [exact Hn |]. split; [exact Hq |]. split; [exact Hc |].
  intros Hnd. apply fresh_filter, Hnd.
Qed.

Lemma pollOnce_spec_witness :
  exists (s' : Machine.World) (loop : list Event),
    run Machine.world
      (pollOnce Machine.acme ∅ (mkSetupReconciler Machine.acme ∅))
      Machine.two_reviews =
      (Done ({["42"; "99"]},
             mkSetupReconciler Machine.acme {[ "app:42" := Machine.pr42 ]}),
       s',
       Ev (GetReviewRequests "chainguard-dev/mono")
         (inl [Machine.pr42; Machine.pr99])
       :: loop ++ [Ev (WriteLastCheck 2 {["42"; "99"]}) tt]) /\
    notified loop = [info Machine.pr42; info Machine.pr99] /\
    queued_setup loop = [("app:42", 1)] /\
    checkpoints loop = [].
Proof.
  destruct (pollOnce_spec Machine.world Machine.two_reviews Machine.two_reviews
              Machine.acme ∅ (mkSetupReconciler Machine.acme ∅)
              [Machine.pr42; Machine.pr99] eq_refl)
    as (s' & loop & Hrun & Hn & Hq & Hc & Hnew).
  exists s', loop. split; [| split; [exact Hn | split; [exact Hq | exact Hc]]].
  rewrite Hrun. reflexivity.
Defined.

End PollFacts.

(** ** Starting the daemon *)

Module WatchFacts.
Import Sys Err GoStr Keys SysFacts SpecMore.
Import Watch.

(** C9, as amended.  Whether the pid file names a live process is read off
    the machine: the file can be read, its text is a number, and the process
    of that number answers the probe.  If it does, [start] spawns nothing,
    writes no pid file and leaves the one in place; once the state
    directories are ensured it warns that the daemon is already running and
    returns without an error, so that the command exits with status 0.  If
    it does not, every run that returns without an error has spawned
    exactly one daemon and written the pid of that daemon to the pid file.
    The daemon itself writes its own pid when it starts, whatever the pid
    file holds. *)
Theorem watchStart_live_pid_file {S : Type} (h : Handler S) (s : S) :
  let dirs := (h _ EnsureDirs s).1 in
  let live := pid_file_live h (h _ EnsureDirs s).2 in
  (let '(res, _, tr) := run h watchStart s in
   match live with
   | Some pid =>
       spawned tr = [] /\ pid_writes tr = [] /\ pid_removed tr = false /\
       (dirs = None ->
        res = Done None /\ exitCode None = 0 /\
        ui_logs tr =
          [("warn", "Watch daemon already running (PID: %d)", [LInt pid])])
   | None =>
       res = Done None ->
       exists pid : Z, spawned tr = [pid] /\ pid_writes tr = [Itoa pid]
   end) /\
  (exists (s' : S) (tr : list Event),
      run h watchDaemon_startup s = (Done tt, s', tr) /\
      pid_writes tr = [Itoa (h _ Getpid (h _ EnsureDirs s).2).1]).
Proof.
  intros dirs live. subst dirs live. split.
  - unfold watchStart, watchIsRunning, pid_file_live.
    cbn. destruct (h _ EnsureDirs s) as [e s1]. cbn [fst snd].
    destruct e as [err |]; cbn.
    { destruct (h _ ReadPidFile s1) as [[d |] s2]; [| discriminate].
      destruct (Atoi (TrimSpace d)) as [pid |]; [| discriminate].
      destruct ((h _ (Kill0 pid) s2).1); [| discriminate].
      split; [reflexivity |]. split; [reflexivity |].
      split; [reflexivity | discriminate]. }
    destruct (h _ ReadPidFile s1) as [[d |] s2]; cbn.
    + destruct (Atoi (TrimSpace d)) as [pid |]; cbn.
      * destruct (h _ (Kill0 pid) s2) as [[|] s3]; cbn.
        -- answer. destruct x. cbn.
           split; [reflexivity |]. split; [reflexivity |].
           split; [reflexivity |]. intros _.
           split; [reflexivity |]. split; reflexivity.
        -- explore; intros Hr; try discriminate Hr; eexists; split; reflexivity.
      * explore; intros Hr; try discriminate Hr; eexists; split; reflexivity.
    + explore; intros Hr; try discriminate Hr; eexists; split; reflexivity.
  - unfold watchDaemon_startup. cbn.
    destruct (h _ EnsureDirs s) as [e s1]. cbn.
    destruct (h _ Getpid s1) as [pid s2]. cbn.
    answer. eexists _, _. split; reflexivity.
Qed.

Lemma watchStart_live_pid_file_witness :
  (pid_file_live Machine.world
     (Machine.world _ EnsureDirs Machine.daemon_running).2 = Some 4242 /\
   (run Machine.world watchStart Machine.daemon_running).1.1 = Done None /\
   spawned (run Machine.world watchStart Machine.daemon_running).2 = [] /\
   pid_writes (run Machine.world watchStart Machine.daemon_running).2 = []) /\
  (pid_file_live Machine.world
     (Machine.world _ EnsureDirs Machine.quiet).2 = None /\
   exists pid : Z,
     spawned (run Machine.world watchStart Machine.quiet).2 = [pid] /\
     pid_writes (run Machine.world watchStart Machine.quiet).2 = [Itoa pid]).
Proof.
  split.
  - destruct (watchStart_live_pid_file Machine.world Machine.daemon_running)
      as [H _].
    change (pid_file_live Machine.world
              (Machine.world _ EnsureDirs Machine.daemon_running).2)
      with (Some 4242) in H.
    destruct (run Machine.world watchStart Machine.daemon_running)
      as [[res s'] tr].
    destruct H as (Hsp & Hw & _ & H).
    destruct (H eq_refl) as (Hres & _).
    split; [reflexivity |]. split; [exact Hres |]. split; [exact Hsp | exact Hw].
  - destruct (watchStart_live_pid_file Machine.world Machine.quiet) as [H _].
    change (pid_file_live Machine.world
              (Machine.world _ EnsureDirs Machine.quiet).2)
      with (@None Z) in H.
    destruct (run Machine.world watchStart Machine.quiet)
      as [[res s'] tr] eqn:E.
    split; [reflexivity |]. apply H.
    vm_compute in E. simplify_eq. reflexivity.
Defined.

(** C9 as the specification states it fails: with the pid file of a live
    daemon in place, [start] returns no error, and with it the command exits
    with status 0. *)
Lemma watchStart_running_exits_zero :
  Machine.pidFile Machine.daemon_running = Some "4242" /\
  In 4242 (Machine.live Machine.daemon_running) /\
  exists (s' : Machine.World) (tr : list Event),
    run Machine.world watchStart Machine.daemon_running = (Done None, s', tr) /\
    exitCode None = 0 /\ ~ (exitCode None <> 0).
Proof.
  split; [reflexivity |]. split; [left; reflexivity |].
  eexists _, _. split; [reflexivity |]. split; [reflexivity |].
  intros H. apply H. reflexivity.
Qed.

End WatchFacts.

(** ** The display cache *)

Module CacheFacts.
Import Sys PRCacheData prcache Machine SysFacts.

(** C10 does not hold for the code at one prior cache state: with [null]
    in [pr_cache.json], [Set] panics on the assignment to the [nil] map that
    [Load] returned, and nothing is written. *)
Theorem Set_panics_on_null_cache :
  run world (Set_ "app" 42 "Add pagination" "alice") null_cache =
    (Crashed "assignment to entry in nil map", null_cache,
     [Ev ReadCacheFile (Some JsonNull)]) /\
  forall {S : Type} (h : Handler S) (s : S) repo pr title author,
    (h _ ReadCacheFile s).1 = Some JsonNull ->
    (run h (Set_ repo pr title author) s).1.1 =
      Crashed "assignment to entry in nil map" /\
    (run h (Set_ repo pr title author) s).2 =
      [Ev ReadCacheFile (Some JsonNull)].
Proof.
  split; [reflexivity |].
  intros S h s repo pr title author Hnull.
  unfold Set_, Load. cbn.
  destruct (h _ ReadCacheFile s) as [x s1]. cbn in Hnull. subst x. cbn.
  split; reflexivity.
Qed.

Lemma Set_panics_on_null_cache_witness :
  (run world (Set_ "app" 42 "Add pagination" "alice") null_cache).1.1 =
    Crashed "assignment to entry in nil map".
Proof.
  destruct Set_panics_on_null_cache as [_ H].
  apply (H World world null_cache "app" 42 "Add pagination" "alice").
  reflexivity.
Defined.

(** Away from that input, and when the file can be written, [Set] is a
    load-merge-store: the entry of the key is the new one, every other entry
    is the one [Load] saw before, and [Get] finds the new entry. *)
Lemma Set_then_Get (w : World) (repo : string) (pr : Z) (title author : string) :
  cacheWritable w = true ->
  cacheFile w <> Some JsonNull ->
  let after := <[cacheKey repo pr := mkPRMeta title author]> (loaded w) in
  let w' := set_cacheFile w (Some (JsonObject after)) in
  (exists tr : list Event,
      run world (Set_ repo pr title author) w = (Done tt, w', tr)) /\
  loaded w' !! cacheKey repo pr = Some (mkPRMeta title author) /\
  (forall key : string, key <> cacheKey repo pr -> loaded w' !! key = loaded w !! key) /\
  (run world (Get repo pr) w').1.1 = Done (mkPRMeta title author, true).
Proof.
  intros Hw Hnull after w'.
  assert (Hl : loaded w' = after) by reflexivity.
  split; [| split; [| split]].
  - assert (Hload : run world Load w =
                    (Done (Some (loaded w)), w, [Ev ReadCacheFile (cacheFile w)])).
    { unfold Load, loaded. cbn.
      destruct (cacheFile w) as [[| | m] |]; try contradiction; reflexivity. }
    unfold Set_. rewrite run_bind, Hload. unfold Save. cbn. rewrite Hw.
    eexists. reflexivity.
  - rewrite Hl. apply lookup_insert_eq.
  - intros key Hkey. rewrite Hl. apply lookup_insert_ne. congruence.
  - unfold Get, Load. cbn. unfold after. rewrite lookup_insert_eq. reflexivity.
Qed.

End CacheFacts.

(** ** The cases of the test files *)

Module Tests.

Example MakePRKey_mono : Keys.MakePRKey "mono" 31414 = "mono:31414".
Proof. reflexivity. Qed.

Example ParsePRKey_mono : Keys.ParsePRKey "mono:31414" = inl ("mono", 31414).
Proof. reflexivity. Qed.

Example ParsePRKey_invalid :
  Keys.ParsePRKey "invalid" =
  inr (Err.Errorf "invalid PR key %q: expected format repo:number"
         [Err.AStr "invalid"]).
Proof. reflexivity. Qed.

Example ParsePRKey_empty_repo : Keys.ParsePRKey ":123" = inl ("", 123).
Proof. reflexivity. Qed.

Example Classify_infra :
  Worktree.Classify "infra-images-pr-500" = (Worktree.TypePRReview, 500).
Proof. reflexivity. Qed.

Example Classify_feature :
  Worktree.Classify "mono-feature-branch" = (Worktree.TypeFeature, 0).
Proof. reflexivity. Qed.

Example Classify_solo : Worktree.Classify "solo" = (Worktree.TypeFeature, 0).
Proof. reflexivity. Qed.

Example Classify_overflow :
  Worktree.Classify "mono-pr-99999999999999999999" = (Worktree.TypePRReview, 0).
Proof. reflexivity. Qed.

Example ParsePRKey_bad_number :
  Keys.ParsePRKey "mono:abc" =
  inr (Err.Wrapf "invalid PR key %q: bad number: %w" [Err.AStr "mono:abc"]
         (Err.LibError "strconv.Atoi")).
Proof. reflexivity. Qed.

End Tests.

(** ** More about PR keys and cache keys *)

Module KeysMore.
Import GoStr GoStrFacts Keys.

Lemma all_digits_contains (sep : ascii) (s : string) :
  is_digit sep = false -> all_digits s = true -> contains sep s = false.
Proof.
  intros Hsep. induction s as [|c s IH]; simpl; [reflexivity |].
  intros H. apply andb_true_iff in H as [Hc Hs]. rewrite (IH Hs).
  destruct (Ascii.eqb_spec c sep) as [-> | _]; [congruence | reflexivity].
Qed.

Lemma contains_cons (sep c : ascii) (s : string) :
  contains sep (String c s) = Ascii.eqb c sep || contains sep s.
Proof. reflexivity. Qed.

Lemma Itoa_contains (sep : ascii) (n : Z) :
  is_digit sep = false -> sep <> "-"%char -> contains sep (Itoa n) = false.
Proof.
  intros Hsep Hdash. unfold Itoa. destruct (Z.ltb_spec n 0).
  - rewrite contains_cons.
    destruct (utoa_spec (- n) ltac:(lia)) as (_ & Hd & _).
    rewrite (all_digits_contains sep _ Hsep Hd).
    destruct (Ascii.eqb_spec "-" sep) as [<- | _]; [contradiction | reflexivity].
  - destruct (utoa_spec n ltac:(lia)) as (_ & Hd & _).
    exact (all_digits_contains sep _ Hsep Hd).
Qed.

(** Text in front of the last separator and text behind it are determined
    by the whole. *)
Lemma app_sep_inj (sep : ascii) (a b x y : string) :
  contains sep x = false -> contains sep y = false ->
  a +:+ String sep x = b +:+ String sep y -> a = b /\ x = y.
Proof.
  intros Hx Hy. revert b. induction a as [|c a IH]; intros b H.
  - destruct b as [|c' b]; simpl_app in H.
    + injection H as H. auto.
    + injection H as <- H. subst x.
      assert (contains sep (b +:+ String sep y) = true) as Hc.
      { clear. induction b as [|d b IHb]; simpl_app; simpl.
        - now rewrite Ascii.eqb_refl.
        - rewrite IHb. apply orb_true_r. }
      congruence.
  - destruct b as [|c' b]; simpl_app in H.
    + injection H as -> H. subst y.
      assert (contains sep (a +:+ String sep x) = true) as Hc.
      { clear. induction a as [|d a IHa]; simpl_app; simpl.
        - now rewrite Ascii.eqb_refl.
        - rewrite IHa. apply orb_true_r. }
      congruence.
    + injection H as <- H. destruct (IH b H) as [-> ->]. auto.
Qed.

Lemma MakePRKey_eq_inv (r r' : string) (n n' : Z) :
  MakePRKey r n = MakePRKey r' n' -> r = r' /\ n = n'.
Proof.
  intros H. unfold MakePRKey in H. simpl_app in H.
  apply app_sep_inj in H as [-> H];
    try (apply Itoa_contains; [reflexivity | discriminate]).
  split; [reflexivity | exact (PollFacts.Itoa_inj _ _ H)].
Qed.

Lemma cacheKey_eq_inv (r r' : string) (n n' : Z) :
  prcache.cacheKey r n = prcache.cacheKey r' n' -> r = r' /\ n = n'.
Proof.
  intros H. unfold prcache.cacheKey in H. simpl_app in H.
  apply app_sep_inj in H as [-> H];
    try (apply Itoa_contains; [reflexivity | discriminate]).
  split; [reflexivity | exact (PollFacts.Itoa_inj _ _ H)].
Qed.

(** X1: two pull requests share a workqueue key only when they are the same
    pair of repo name and number, whatever the repo name looks like; the
    same holds for the keys of the display cache. *)
Theorem MakePRKey_inj (r r' : string) (n n' : Z) :
  (MakePRKey r n = MakePRKey r' n' <-> r = r' /\ n = n') /\
  (prcache.cacheKey r n = prcache.cacheKey r' n' <-> r = r' /\ n = n').
Proof.
  split; (split; [| intros [-> ->]; reflexivity]).
  - apply MakePRKey_eq_inv.
  - apply cacheKey_eq_inv.
Qed.

Lemma MakePRKey_inj_witness :
  MakePRKey "a:b" 1 <> MakePRKey "a" 1 /\
  prcache.cacheKey "acme/app" 4 <> prcache.cacheKey "acme" 4.
Proof.
  split; intros H.
  - apply (proj1 (MakePRKey_inj "a:b" "a" 1 1)) in H as [H _]. discriminate H.
  - apply (proj2 (MakePRKey_inj "acme/app" "acme" 4 4)) in H as [H _].
    discriminate H.
Defined.

Lemma Atoi_Itoa_int (n : Z) :
  GoInt.in_range n = true -> Atoi (Itoa n) = Some n.
Proof.
  intros Hr. destruct (Z.ltb_spec n 0) as [Hneg | Hpos].
  - unfold Itoa. destruct (Z.ltb_spec n 0); [| lia].
    destruct (utoa_spec (- n) ltac:(lia)) as (Hne & Hd & Hp).
    unfold Atoi. simpl.
    destruct (utoa (- n)) as [|c s] eqn:E; [congruence |].
    rewrite Hp. replace (- - n) with n by lia. now rewrite Hr.
  - apply Atoi_Itoa. unfold GoInt.in_range in Hr.
    apply andb_true_iff in Hr as [_ Hr]. apply Z.leb_le in Hr. lia.
Qed.

Lemma cut_inv (sep : ascii) (s a b : string) :
  cut sep s = Some (a, b) -> s = a +:+ String sep b /\ contains sep a = false.
Proof.
  revert a. induction s as [|c s IH]; intros a; simpl; [discriminate |].
  destruct (Ascii.eqb_spec c sep) as [-> | Hne].
  - intros [= <- <-]. auto.
  - destruct (cut sep s) as [[a' b'] |]; [| discriminate].
    intros [= <- <-]. destruct (IH a' eq_refl) as [-> Hc].
    simpl_app. simpl. rewrite Hc.
    destruct (Ascii.eqb_spec c sep); [contradiction | auto].
Qed.

Lemma Atoi_in_range (s : string) (n : Z) :
  Atoi s = Some n -> GoInt.in_range n = true.
Proof.
  unfold Atoi. destruct s as [|c rest]; [discriminate |].
  destruct (if (Ascii.eqb c "-" || Ascii.eqb c "+")%bool then rest else String c rest);
    [discriminate |].
  destruct (parse_digits 0 _); [| discriminate].
  destruct (GoInt.in_range _) eqn:E; [| discriminate].
  intros [= <-]. exact E.
Qed.

(** X2: whatever [ParsePRKey] accepts, it gives a repo name without a colon
    and a number that fits [int], and the key made of them parses to the
    same pair again, also for a negative number.  The key itself need not
    come back: [mono:+07] parses to [(mono, 7)], whose key is [mono:7]. *)
Theorem ParsePRKey_canonical (key r : string) (n : Z) :
  ParsePRKey key = inl (r, n) ->
  contains ":" r = false /\ GoInt.in_range n = true /\
  (exists num : string, key = r +:+ ":" +:+ num /\ Atoi num = Some n) /\
  ParsePRKey (MakePRKey r n) = inl (r, n).
Proof.
  unfold ParsePRKey, SplitN2.
  destruct (cut ":" key) as [[a b] |] eqn:Hcut; [| discriminate].
  destruct (Atoi b) as [m |] eqn:Hb; [| discriminate].
  intros [= <- <-].
  destruct (cut_inv _ _ _ _ Hcut) as [-> Hc].
  pose proof (Atoi_in_range _ _ Hb) as Hr.
  split; [exact Hc |]. split; [exact Hr |]. split.
  - exists b. simpl_app. auto.
  - unfold MakePRKey. simpl_app. rewrite (cut_append ":" a (Itoa m) Hc).
    now rewrite (Atoi_Itoa_int m Hr).
Qed.

Lemma ParsePRKey_canonical_witness :
  ParsePRKey "mono:+07" = inl ("mono", 7) /\
  MakePRKey "mono" 7 <> "mono:+07" /\
  ParsePRKey (MakePRKey "mono" 7) = inl ("mono", 7) /\
  ParsePRKey (MakePRKey "mono" (-3)) = inl ("mono", -3).
Proof.
  split; [reflexivity |]. split; [vm_compute; discriminate |]. split.
  - apply (ParsePRKey_canonical "mono:+07" "mono" 7 eq_refl).
  - apply (ParsePRKey_canonical "mono:-3" "mono" (-3) eq_refl).
Defined.

End KeysMore.

(** ** Names of worktree directories *)

Module NamesFacts.
Import GoStr GoStr2 GoStrFacts Worktree Discovery.

Lemma Index_ge (sep : ascii) (s : string) : -1 <= Index sep s.
Proof.
  induction s as [|c s IH]; simpl; [lia |].
  destruct (Ascii.eqb c sep); [lia |].
  destruct (Z.ltb_spec (Index sep s) 0); lia.
Qed.

Lemma Index_none (sep : ascii) (s : string) :
  contains sep s = false -> Index sep s = -1.
Proof.
  induction s as [|c s IH]; simpl; [reflexivity |].
  intros H. apply orb_false_iff in H as [Hc Hs]. rewrite Hc, (IH Hs).
  reflexivity.
Qed.

Lemma Index_app (sep : ascii) (a b : string) :
  contains sep a = false -> Index sep (a +:+ String sep b) = len a.
Proof.
  unfold len. induction a as [|c a IH]; simpl_app; simpl; intros H.
  - now rewrite Ascii.eqb_refl.
  - apply orb_false_iff in H as [Hc Ha]. rewrite Hc, (IH Ha).
    destruct (Z.ltb_spec (Z.of_nat (String.length a)) 0); lia.
Qed.

(** A string with the separator in it is cut at the first one. *)
Lemma contains_split (sep : ascii) (s : string) :
  contains sep s = true ->
  exists a b : string, s = a +:+ String sep b /\ contains sep a = false.
Proof.
  induction s as [|c s IH]; simpl; [discriminate |].
  destruct (Ascii.eqb_spec c sep) as [-> | Hne]; simpl.
  - intros _. exists EmptyString, s. auto.
  - intros H. destruct (IH H) as (a & b & -> & Ha).
    exists (String c a), b. simpl_app. simpl. rewrite Ha.
    destruct (Ascii.eqb_spec c sep); [contradiction | auto].
Qed.

Lemma substring_prefix (a b : string) :
  String.substring 0 (String.length a) (a +:+ b) = a.
Proof.
  induction a as [|c a IH]; simpl_app; simpl.
  - destruct b; reflexivity.
  - now rewrite IH.
Qed.

Lemma substring_all (b : string) : String.substring 0 (String.length b) b = b.
Proof. induction b as [|c b IH]; simpl; [reflexivity | now rewrite IH]. Qed.

Lemma substring_suffix (a b : string) :
  String.substring (String.length a) (String.length b) (a +:+ b) = b.
Proof.
  induction a as [|c a IH]; simpl_app; simpl; [apply substring_all | exact IH].
Qed.

Lemma slice_to_app (a b : string) : slice_to (a +:+ b) (len a) = a.
Proof.
  unfold slice_to, len. rewrite Nat2Z.id. apply substring_prefix.
Qed.

Lemma slice_from_app (a b : string) : slice_from (a +:+ b) (len a) = b.
Proof.
  unfold slice_from, len. rewrite Nat2Z.id, length_append.
  replace (String.length a + String.length b - String.length a)%nat
    with (String.length b) by lia.
  apply substring_suffix.
Qed.

Lemma ParseNames_cut (a b : string) :
  contains "-" a = false ->
  ParseRepoFromName (a +:+ "-" +:+ b) = a /\
  ParseBranchFromName (a +:+ "-" +:+ b) = b.
Proof.
  intros Ha. unfold ParseRepoFromName, ParseBranchFromName. simpl_app.
  rewrite (Index_app "-" a b Ha).
  assert (Hl : 0 <= len a) by (unfold len; lia).
  destruct (Z.ltb_spec (len a) 0); [lia |]. split.
  - apply slice_to_app.
  - simpl orb.
    assert (Hlen : len (a +:+ String "-" b) = len a + 1 + len b).
    { unfold len. rewrite length_append. simpl. lia. }
    rewrite Hlen.
    destruct (Z.leb_spec (len a + 1 + len b) (len a + 1)) as [Hle | Hgt].
    + assert (len b = 0) as Hb by (unfold len in *; lia).
      destruct b; [reflexivity | unfold len in Hb; simpl in Hb; lia].
    + replace (a +:+ String "-" b) with ((a +:+ "-") +:+ b)
        by (rewrite append_assoc; reflexivity).
      replace (len a + 1) with (len (a +:+ "-"))
        by (unfold len; rewrite length_append; simpl; lia).
      apply slice_from_app.
Qed.

(** X3: a directory name with a hyphen is the repo part, a hyphen and the
    branch part, and the repo part has no hyphen; a name without a hyphen is
    all repo and has no branch.  For the directory of a review worktree this
    gives the text before the first hyphen of the repo name, which is the
    repo name only when that has no hyphen. *)
Theorem ParseNames_spec (name : string) :
  (if contains "-" name
   then ParseRepoFromName name +:+ "-" +:+ ParseBranchFromName name = name /\
        contains "-" (ParseRepoFromName name) = false
   else ParseRepoFromName name = name /\ ParseBranchFromName name = "") /\
  (forall n : Z,
      ParseRepoFromName (name +:+ "-pr-" +:+ Itoa n) = ParseRepoFromName name /\
      (contains "-" name = false ->
       ParseRepoFromName (name +:+ "-pr-" +:+ Itoa n) = name /\
       ParseBranchFromName (name +:+ "-pr-" +:+ Itoa n) = "pr-" +:+ Itoa n)).
Proof.
  split.
  - destruct (contains "-" name) eqn:Hc.
    + destruct (contains_split _ _ Hc) as (a & b & -> & Ha).
      destruct (ParseNames_cut a b Ha) as [Hr Hb]. simpl_app in Hr.
      simpl_app in Hb. rewrite Hr, Hb. simpl_app. auto.
    + unfold ParseRepoFromName, ParseBranchFromName.
      rewrite (Index_none _ _ Hc). auto.
  - intros n. destruct (contains "-" name) eqn:Hc.
    + split; [| discriminate].
      destruct (contains_split _ _ Hc) as (a & b & -> & Ha).
      rewrite append_assoc. simpl_app.
      destruct (ParseNames_cut a (b +:+ "-pr-" +:+ Itoa n) Ha) as [Hr _].
      destruct (ParseNames_cut a b Ha) as [Hr' _].
      simpl_app in Hr. simpl_app in Hr'. now rewrite Hr, Hr'.
    + destruct (ParseNames_cut name ("pr-" +:+ Itoa n) Hc) as [Hr Hb].
      simpl_app in Hr. simpl_app in Hb. simpl_app.
      rewrite Hr, Hb. repeat split; try reflexivity.
      unfold ParseRepoFromName. now rewrite (Index_none _ _ Hc).
Qed.

Lemma ParseNames_spec_witness :
  ParseRepoFromName ("mono" +:+ "-pr-" +:+ Itoa 31640) = "mono" /\
  ParseBranchFromName ("mono" +:+ "-pr-" +:+ Itoa 31640) = "pr-" +:+ Itoa 31640 /\
  ParseRepoFromName ("infra-images" +:+ "-pr-" +:+ Itoa 500) = "infra".
Proof.
  destruct (ParseNames_spec "mono") as [_ H].
  destruct (H 31640) as [_ Hm]. destruct (Hm eq_refl) as [Hr Hb].
  split; [exact Hr |]. split; [exact Hb |].
  destruct (ParseNames_spec "infra-images") as [_ H'].
  destruct (H' 500) as [-> _]. reflexivity.
Defined.

Lemma parse_digits_nonneg (s : string) (acc v : Z) :
  0 <= acc -> parse_digits acc s = Some v -> 0 <= v.
Proof.
  revert acc. induction s as [|c s IH]; intros acc Hacc; simpl.
  - intros [= <-]. exact Hacc.
  - destruct (is_digit c) eqn:Hc; [| discriminate].
    apply IH. unfold is_digit in Hc. unfold digit_val.
    apply andb_true_iff in Hc as [H1 _]. apply N.leb_le in H1. lia.
Qed.

Lemma Classify_range (name : string) :
  0 <= (Classify name).2 <= GoInt.max_int.
Proof.
  unfold Classify.
  destruct (prPattern_FindStringSubmatch name) as [d |] eqn:E;
    [| simpl; unfold GoInt.max_int; lia].
  apply WorktreeFacts.FindStringSubmatch_inv in E as (pre & _ & Hne & Hd).
  simpl. destruct (parse_digits 0 d) as [v |] eqn:Hp.
  - rewrite (WorktreeFacts.Sscanf_d_digits d 0 v Hne Hd Hp).
    pose proof (parse_digits_nonneg d 0 v ltac:(lia) Hp).
    destruct (GoInt.in_range v) eqn:Hr; [| unfold GoInt.max_int; lia].
    unfold GoInt.in_range in Hr. apply andb_true_iff in Hr as [_ Hr].
    apply Z.leb_le in Hr. lia.
  - exfalso. clear -Hd Hp. revert Hp. generalize 0.
    induction d as [|c d IH]; intros acc; simpl; [discriminate |].
    simpl in Hd. apply andb_true_iff in Hd as [Hc Hd]. rewrite Hc.
    apply IH, Hd.
Qed.

Lemma worktreeOf_Classify (path name branch repo : string) :
  Type' (worktreeOf path name branch repo) = (Classify name).1 /\
  PRNumber (worktreeOf path name branch repo) = (Classify name).2.
Proof.
  pose proof (Classify_range name) as Hrange. unfold worktreeOf.
  destruct (Classify name) as [t n]. simpl in *. split; [reflexivity |].
  destruct (Z.ltb_spec 0 n); lia.
Qed.

(** X4: [Classify] says PR review exactly for the names that end in [-pr-]
    and decimal digits; its number is never negative, fits [int], and is 0
    for feature work.  So the number that [ListForRepo] puts in the record is
    the one [Classify] gave, and a feature record has number 0. *)
Theorem Classify_invariant (name : string) :
  ((Classify name).1 = TypePRReview <-> Spec.pr_suffixed name) /\
  0 <= (Classify name).2 <= GoInt.max_int /\
  ((Classify name).1 = TypeFeature -> (Classify name).2 = 0) /\
  (forall path branch repo : string,
      Type' (worktreeOf path name branch repo) = (Classify name).1 /\
      PRNumber (worktreeOf path name branch repo) = (Classify name).2).
Proof.
  split; [| split; [exact (Classify_range name) | split]].
  - unfold Classify, Spec.pr_suffixed.
    destruct (prPattern_FindStringSubmatch name) as [d |] eqn:E; simpl.
    + split; [intros _ | reflexivity].
      apply WorktreeFacts.FindStringSubmatch_inv in E as (pre & H).
      exists pre, d. exact H.
    + split; [discriminate |]. intros (pre & d & -> & Hne & Hd).
      rewrite (WorktreeFacts.FindStringSubmatch_suffix pre d Hne Hd) in E.
      discriminate.
  - unfold Classify.
    destruct (prPattern_FindStringSubmatch name); simpl;
      [discriminate | reflexivity].
  - intros path branch repo. apply worktreeOf_Classify.
Qed.

Lemma Classify_invariant_witness :
  (Classify "mono-feature-x").2 = 0 /\ Spec.pr_suffixed "mono-pr-0".
Proof.
  split.
  - apply (proj1 (proj2 (proj2 (Classify_invariant "mono-feature-x")))).
    reflexivity.
  - apply (proj1 (proj1 (Classify_invariant "mono-pr-0"))). reflexivity.
Defined.

End NamesFacts.

(** ** The merge of the review requests *)

Module GithubFacts.
Import GoStr GoStrFacts Github GithubMore SpecMore.

Lemma mergeOne_inv (st : gset Z * list ReviewRequest) (rr : ReviewRequest) :
  merge_inv st -> merge_inv (mergeOne st rr).
Proof.
  destruct st as [seen merged]. unfold merge_inv, mergeOne. simpl.
  intros (Hs & Hnd & Hz).
  destruct (Z.eqb_spec (Number rr) 0) as [H0 | H0]; [auto |].
  destruct (decide (Number rr ∈ seen)) as [Hin | Hnin]; [auto |]. simpl.
  rewrite map_app. simpl. split; [| split].
  - rewrite Hs. rewrite list_to_set_app_L. simpl. set_solver.
  - apply NoDup_app. split; [exact Hnd |]. split.
    + intros x Hx [Heq | []]%list_elem_of_In. subst x.
      apply Hnin. rewrite Hs. apply elem_of_list_to_set. exact Hx.
    + apply NoDup_singleton.
  - set_solver.
Qed.

Lemma mergeOne_sound (st : gset Z * list ReviewRequest) (rr x : ReviewRequest) :
  In x (mergeOne st rr).2 -> In x st.2 \/ (x = rr /\ Number rr <> 0).
Proof.
  destruct st as [seen merged]. unfold mergeOne. simpl.
  destruct (Z.eqb_spec (Number rr) 0) as [H0 | H0]; [auto |].
  destruct (decide (Number rr ∈ seen)); [auto |]. simpl.
  intros [H | [<- | []]]%in_app_or; auto.
Qed.

Lemma mergeOne_grows (st : gset Z * list ReviewRequest) (rr : ReviewRequest) :
  st.1 ⊆ (mergeOne st rr).1 /\
  (exists more, (mergeOne st rr).2 = st.2 ++ more) /\
  (Number rr <> 0 -> Number rr ∈ (mergeOne st rr).1).
Proof.
  destruct st as [seen merged]. unfold mergeOne. simpl.
  destruct (Z.eqb_spec (Number rr) 0) as [H0 | H0].
  - split; [set_solver |]. split; [exists []; now rewrite app_nil_r | contradiction].
  - destruct (decide (Number rr ∈ seen)); simpl.
    + split; [set_solver |]. split; [exists []; now rewrite app_nil_r | auto].
    + split; [set_solver |]. split; [eauto | set_solver].
Qed.

Lemma mergeNodes_spec (nodes : list ReviewRequest) :
  forall st : gset Z * list ReviewRequest,
    merge_inv st ->
    let st' := fold_left mergeOne nodes st in
    merge_inv st' /\ st.1 ⊆ st'.1 /\
    (exists more, st'.2 = st.2 ++ more) /\
    (forall x, In x st'.2 -> In x st.2 \/ (In x nodes /\ Number x <> 0)) /\
    (forall rr, In rr nodes -> Number rr <> 0 -> Number rr ∈ st'.1).
Proof.
  induction nodes as [|rr rest IH]; intros st Hinv; simpl.
  - split; [exact Hinv |]. split; [set_solver |].
    split; [exists []; now rewrite app_nil_r |]. split; [auto | intros ? []].
  - destruct (IH (mergeOne st rr) (mergeOne_inv st rr Hinv))
      as (Hinv' & Hsub & (more & Hmore) & Hsound & Hcompl).
    destruct (mergeOne_grows st rr) as (Hsub1 & (more1 & Hmore1) & Hin1).
    split; [exact Hinv' |]. split; [set_solver |]. split.
    { exists (more1 ++ more). rewrite Hmore, Hmore1. now rewrite app_assoc. }
    split.
    + intros x Hx. destruct (Hsound x Hx) as [H | [H Hn]]; [| auto].
      destruct (mergeOne_sound st rr x H) as [H' | [-> Hn]]; auto.
    + intros x [<- | Hx] Hn; [| auto]. apply Hsub, Hin1, Hn.
Qed.

(** X5: the list that [GetReviewRequests] returns has no number twice and no
    number 0; each of its entries comes from one of the two searches, and
    every number other than 0 that a search returned is in it; entries of
    the first search come first.  A poll therefore meets every new pull
    request once: the new ones are the entries whose number is not in the
    seen set. *)
Theorem mergeReviewRequests_spec (requested rereview : list ReviewRequest) :
  let merged := mergeReviewRequests requested rereview in
  NoDup (map Number merged) /\
  ~ In 0 (map Number merged) /\
  (forall rr, In rr merged ->
              (In rr requested \/ In rr rereview) /\ Number rr <> 0) /\
  (forall rr, In rr requested \/ In rr rereview -> Number rr <> 0 ->
              In (Number rr) (map Number merged)) /\
  (exists more, merged = (fold_left mergeOne requested (∅, [])).2 ++ more) /\
  (forall seen : gset string,
      Spec.fresh seen merged =
      List.filter (fun pr => negb (bool_decide (Spec.prKey pr ∈ seen))) merged).
Proof.
  unfold mergeReviewRequests, mergeLists. simpl.
  assert (H0 : merge_inv (∅, [])).
  { unfold merge_inv. simpl. split; [reflexivity |].
    split; [constructor | set_solver]. }
  destruct (mergeNodes_spec requested (∅, []) H0)
    as (Hinv1 & _ & _ & Hsound1 & Hcompl1).
  destruct (mergeNodes_spec rereview _ Hinv1)
    as ((Hs & Hnd & Hz) & Hsub & Hmore & Hsound2 & Hcompl2).
  split; [exact Hnd |]. split.
  { intros Hin. apply Hz. rewrite Hs. apply elem_of_list_to_set.
    apply list_elem_of_In, Hin. }
  split.
  { intros rr Hrr. destruct (Hsound2 rr Hrr) as [H | [H Hn]]; [| auto].
    destruct (Hsound1 rr H) as [[] | [H' Hn]]. auto. }
  split; [| split; [exact Hmore |
                     intros seen; apply PollFacts.fresh_filter, Hnd]].
  intros rr [Hrr | Hrr] Hn.
  - apply list_elem_of_In.
    apply (proj1 (elem_of_list_to_set (C := gset Z) _ _)). rewrite <- Hs.
    apply Hsub, Hcompl1; assumption.
  - apply list_elem_of_In.
    apply (proj1 (elem_of_list_to_set (C := gset Z) _ _)). rewrite <- Hs.
    apply Hcompl2; assumption.
Qed.

Lemma mergeReviewRequests_spec_witness :
  In Machine.pr42 (mergeReviewRequests [Machine.pr42] [Machine.pr42; Machine.pr99]) /\
  In 99 (map Number (mergeReviewRequests [Machine.pr42] [Machine.pr42; Machine.pr99])) /\
  NoDup (map Number (mergeReviewRequests [Machine.pr42] [Machine.pr42; Machine.pr99])).
Proof.
  destruct (mergeReviewRequests_spec [Machine.pr42] [Machine.pr42; Machine.pr99])
    as (Hnd & _ & _ & Hcompl & _ & _).
  split; [left; reflexivity |]. split; [| exact Hnd].
  apply (Hcompl Machine.pr99); [right; right; left; reflexivity |].
  vm_compute. discriminate.
Defined.

(** X6: [splitRepo] cuts at the first slash: the owner has no slash in it
    and owner, slash and repo give the full name back; a name without a
    slash is taken as the owner of a repo with the empty name. *)
Theorem splitRepo_spec (fullRepo : string) :
  contains "/" (splitRepo fullRepo).1 = false /\
  (if contains "/" fullRepo
   then (splitRepo fullRepo).1 +:+ "/" +:+ (splitRepo fullRepo).2 = fullRepo
   else splitRepo fullRepo = (fullRepo, "")).
Proof.
  unfold splitRepo, SplitN2.
  destruct (cut "/" fullRepo) as [[o r] |] eqn:Hcut; simpl.
  - destruct (KeysMore.cut_inv _ _ _ _ Hcut) as [-> Ho].
    split; [exact Ho |].
    assert (contains "/" (o +:+ String "/" r) = true) as ->.
    { clear. induction o as [|c o IH]; simpl_app; simpl; [reflexivity |].
      rewrite IH. apply orb_true_r. }
    reflexivity.
  - destruct (contains "/" fullRepo) eqn:Hc.
    + destruct (NamesFacts.contains_split _ _ Hc) as (a & b & -> & Ha).
      rewrite (cut_append "/" a b Ha) in Hcut. discriminate.
    + auto.
Qed.

End GithubFacts.

(** ** Filters of the inbox, statistics and repo names *)

Module InboxFacts.
Import GoStr GoStrFacts Github Inbox.

Lemma IsAuthor_loop_In (authors : list string) (login : string) :
  Config.IsAuthor_loop authors login = true <-> In login authors.
Proof.
  induction authors as [|a rest IH]; simpl; [split; [discriminate | tauto] |].
  destruct (String.eqb_spec a login) as [-> | Hne].
  - split; auto.
  - rewrite IH. split; [auto | intros [? | ?]; [contradiction | assumption]].
Qed.

(** X7: with a non-empty author list the inbox filter keeps exactly the pull
    requests that the daemon would queue ([Config.IsAuthor]); with an empty
    list the filter keeps every pull request, while the daemon queues
    none. *)
Theorem filterByAuthors_spec (cfg : Config.Config) (prs : list ReviewRequest) :
  (Config.Authors cfg <> [] ->
   filterByAuthors prs (Config.Authors cfg) =
   List.filter (Spec.by_author cfg) prs) /\
  (Config.Authors cfg = [] ->
   filterByAuthors prs (Config.Authors cfg) = prs /\
   List.filter (Spec.by_author cfg) prs = []).
Proof.
  unfold Spec.by_author, Config.IsAuthor. split.
  - intros Hne. unfold filterByAuthors.
    destruct (Config.Authors cfg) as [|a rest] eqn:E; [contradiction |].
    apply List.filter_ext. intros pr.
    destruct (Config.IsAuthor_loop (a :: rest) (AuthorLogin pr)) eqn:Hl.
    + apply bool_decide_eq_true_2, elem_of_list_to_set, list_elem_of_In.
      now apply IsAuthor_loop_In.
    + apply bool_decide_eq_false_2.
      intros Hin%elem_of_list_to_set%list_elem_of_In%IsAuthor_loop_In.
      congruence.
  - intros ->. split; [reflexivity |].
    induction prs as [|pr prs IH]; [reflexivity | exact IH].
Qed.

Lemma filterByAuthors_spec_witness :
  filterByAuthors [Machine.pr42; Machine.pr99] (Config.Authors Machine.acme) =
    [Machine.pr42] /\
  filterByAuthors [Machine.pr42; Machine.pr99] [] = [Machine.pr42; Machine.pr99].
Proof.
  destruct (filterByAuthors_spec Machine.acme [Machine.pr42; Machine.pr99])
    as [H _].
  split; [| reflexivity]. rewrite H; [reflexivity | discriminate].
Defined.

Lemma localPRNumbers_fold (wts : list Worktree.Worktree) :
  forall (m : gset Z) (n : Z),
    n ∈ fold_left
          (fun (m : gset Z) wt =>
             match Worktree.Type' wt with
             | Worktree.TypePRReview =>
                 if 0 <? Worktree.PRNumber wt
                 then {[Worktree.PRNumber wt]} ∪ m else m
             | Worktree.TypeFeature => m
             end) wts m
    <-> n ∈ m \/
        exists wt, In wt wts /\ Worktree.Type' wt = Worktree.TypePRReview /\
                   Worktree.PRNumber wt = n /\ 0 < n.
Proof.
  induction wts as [|wt rest IH]; intros m n; simpl.
  - split; [auto | intros [H | (wt & [] & _)]; exact H].
  - rewrite IH. split.
    + intros [H | (w & Hw & Ht & Hn & Hp)].
      * destruct (Worktree.Type' wt) eqn:Ht; [| auto].
        destruct (Z.ltb_spec 0 (Worktree.PRNumber wt)); [| auto].
        apply elem_of_union in H as [H | H]; [| auto].
        apply elem_of_singleton in H. subst n. right. exists wt. auto.
      * right. exists w. auto.
    + intros [H | (w & [<- | Hw] & Ht & Hn & Hp)].
      * left. destruct (Worktree.Type' wt); [| exact H].
        destruct (0 <? Worktree.PRNumber wt); [set_solver | exact H].
      * left. rewrite Ht. destruct (Z.ltb_spec 0 (Worktree.PRNumber wt)); [| lia].
        set_solver.
      * right. exists w. auto.
Qed.

(** X8: the inbox leaves out exactly the review requests that have a review
    worktree with their (positive) number on disk, and keeps the order of
    the others.  In particular the request of number [n] is left out once
    the directory [<repo>-pr-<n>] that setup creates is in the inventory. *)
Theorem filterLocalPRs_spec (wts : list Worktree.Worktree)
    (prs : list ReviewRequest) :
  (forall n : Z,
      n ∈ localPRNumbers wts <->
      exists wt, In wt wts /\ Worktree.Type' wt = Worktree.TypePRReview /\
                 Worktree.PRNumber wt = n /\ 0 < n) /\
  (forall pr : ReviewRequest,
      In pr (filterLocalPRsFromReviews prs (localPRNumbers wts)) <->
      In pr prs /\ Number pr ∉ localPRNumbers wts) /\
  (forall (path branch repo : string) (n : Z),
      0 < n <= GoInt.max_int ->
      In (Worktree.worktreeOf path (repo +:+ "-pr-" +:+ Itoa n) branch repo) wts ->
      forall pr, In pr (filterLocalPRsFromReviews prs (localPRNumbers wts)) ->
                 Number pr <> n).
Proof.
  assert (Hlocal : forall n : Z,
      n ∈ localPRNumbers wts <->
      exists wt, In wt wts /\ Worktree.Type' wt = Worktree.TypePRReview /\
                 Worktree.PRNumber wt = n /\ 0 < n).
  { intros n. unfold localPRNumbers. rewrite localPRNumbers_fold.
    split; [intros [H | H]; [set_solver | exact H] | auto]. }
  assert (Hfilter : forall pr : ReviewRequest,
      In pr (filterLocalPRsFromReviews prs (localPRNumbers wts)) <->
      In pr prs /\ Number pr ∉ localPRNumbers wts).
  { intros pr. unfold filterLocalPRsFromReviews. rewrite List.filter_In.
    rewrite negb_true_iff, bool_decide_eq_false. reflexivity. }
  split; [exact Hlocal |]. split; [exact Hfilter |].
  intros path branch repo n Hn Hin pr Hpr Heq.
  apply Hfilter in Hpr as [_ Hnot]. apply Hnot. rewrite Heq.
  apply Hlocal. eexists. split; [exact Hin |].
  destruct (NamesFacts.worktreeOf_Classify
              path (repo +:+ "-pr-" +:+ Itoa n) branch repo) as [-> ->].
  rewrite Itoa_nonneg by lia.
  destruct (utoa_spec n ltac:(lia)) as (Hne & Hd & Hp).
  rewrite (WorktreeFacts.Classify_digits repo (utoa n) n Hne Hd Hp).
  assert (GoInt.in_range n = true) as ->.
  { unfold GoInt.in_range, GoInt.min_int. apply andb_true_iff.
    split; apply Z.leb_le; [lia | tauto]. }
  simpl. auto with zarith.
Qed.

Lemma filterLocalPRs_spec_witness :
  Forall (fun pr => Number pr <> 42)
    (filterLocalPRsFromReviews [Machine.pr42; Machine.pr99]
       (localPRNumbers
          [Worktree.worktreeOf "/tmp/acme/app-pr-42"
             ("app" +:+ "-pr-" +:+ Itoa 42) "pr-42" "app"])).
Proof.
  apply List.Forall_forall. intros pr.
  destruct (filterLocalPRs_spec
              [Worktree.worktreeOf "/tmp/acme/app-pr-42"
                 ("app" +:+ "-pr-" +:+ Itoa 42) "pr-42" "app"]
              [Machine.pr42; Machine.pr99]) as (_ & _ & H).
  apply (H "/tmp/acme/app-pr-42"%string "pr-42"%string "app"%string 42).
  - unfold GoInt.max_int. lia.
  - left. reflexivity.
Defined.

End InboxFacts.

(** ** Statistics and repo names *)

Module StatsFacts.
Import GoStr GoStr2 Worktree Discovery SpecMore.

Lemma countOne_fields (st : Stats) (wt : Worktree) :
  Total (countOne st wt) = Total st /\
  PRReviews (countOne st wt) =
    PRReviews st + count_type TypePRReview [wt] /\
  Features (countOne st wt) = Features st + count_type TypeFeature [wt] /\
  (forall r, lookup0 (ByRepo (countOne st wt)) r =
             lookup0 (ByRepo st) r + count_repo r [wt]) /\
  (forall r, ByRepo (countOne st wt) !! r = None ->
             ByRepo st !! r = None /\ Repo wt <> r).
Proof.
  unfold countOne, count_type, count_repo, lookup0.
  destruct (Type' wt) eqn:Ht; simpl; rewrite ?Ht; simpl;
    (split; [reflexivity |]; split; [lia |]; split; [lia |]; split;
     [ intros r; destruct (String.eqb_spec (Repo wt) r) as [<- | Hne]; simpl;
       [rewrite lookup_insert_eq; simpl; lia
       | rewrite lookup_insert_ne by exact Hne; lia]
     | intros r; destruct (String.eqb_spec (Repo wt) r) as [<- | Hne];
       [rewrite lookup_insert_eq; discriminate
       | rewrite lookup_insert_ne by exact Hne; auto] ]).
Qed.

Lemma fold_countOne (wts : list Worktree) :
  forall st : Stats,
    let st' := fold_left countOne wts st in
    Total st' = Total st /\
    PRReviews st' = PRReviews st + count_type TypePRReview wts /\
    Features st' = Features st + count_type TypeFeature wts /\
    (forall r, lookup0 (ByRepo st') r =
               lookup0 (ByRepo st) r + count_repo r wts) /\
    (forall r, ByRepo st' !! r = None ->
               ByRepo st !! r = None /\ count_repo r wts = 0).
Proof.
  induction wts as [|wt rest IH]; intros st; simpl.
  - unfold count_type, count_repo. simpl.
    repeat match goal with |- _ /\ _ => split end;
      try lia; intros; try split; try lia; auto.
  - destruct (IH (countOne st wt)) as (Ht & Hp & Hf & Hr & Hn).
    destruct (countOne_fields st wt) as (Ht1 & Hp1 & Hf1 & Hr1 & Hn1).
    assert (Hct : forall t, count_type t (wt :: rest) =
                            count_type t [wt] + count_type t rest).
    { intros t. unfold count_type. simpl.
      destruct (Type' wt), t; simpl; lia. }
    assert (Hcr : forall r, count_repo r (wt :: rest) =
                            count_repo r [wt] + count_repo r rest).
    { intros r. unfold count_repo. simpl.
      destruct (String.eqb (Repo wt) r); simpl; lia. }
    split; [congruence |]. split; [rewrite Hp, Hp1, Hct; lia |].
    split; [rewrite Hf, Hf1, Hct; lia |]. split.
    + intros r. rewrite Hr, Hr1, Hcr. lia.
    + intros r Hnone. destruct (Hn r Hnone) as [H1 H2].
      destruct (Hn1 r H1) as [H3 H4]. split; [exact H3 |].
      rewrite Hcr, H2. unfold count_repo. simpl.
      destruct (String.eqb_spec (Repo wt) r); [contradiction | reflexivity].
Qed.

Lemma count_type_total (wts : list Worktree) :
  count_type TypePRReview wts + count_type TypeFeature wts =
  Z.of_nat (length wts).
Proof.
  unfold count_type. induction wts as [|wt rest IH]; simpl; [reflexivity |].
  destruct (Type' wt); simpl; lia.
Qed.

Lemma fold_countOne_pos (r : string) (wts : list Worktree) :
  forall st : Stats,
    (forall v, ByRepo st !! r = Some v -> 0 < v) ->
    forall v, ByRepo (fold_left countOne wts st) !! r = Some v -> 0 < v.
Proof.
  induction wts as [|wt l IHl]; intros st Hst; simpl; [exact Hst |].
  apply IHl. intros v. unfold countOne.
  assert (Hins : <[Repo wt := default 0 (ByRepo st !! Repo wt) + 1]>
                   (ByRepo st) !! r = Some v -> 0 < v).
  { destruct (decide (Repo wt = r)) as [<- | Hne].
    - rewrite lookup_insert_eq. intros [= <-].
      destruct (ByRepo st !! Repo wt) as [u |] eqn:Eu; simpl; [| lia].
      specialize (Hst u eq_refl). lia.
    - rewrite lookup_insert_ne by exact Hne. apply Hst. }
  destruct (Type' wt); simpl; exact Hins.
Qed.

(** X9: the statistics of [GetStats] add up: every worktree is counted once
    as a review or as feature work, so [Total = PRReviews + Features]; the
    entry of a repo in [ByRepo] is the number of its worktrees, and a repo
    has an entry only when it has a worktree.  [GetStats] reads the
    inventory once and does nothing else. *)
Theorem GetStats_spec {S : Type} (h : Sys.Handler S) (s : S) :
  let wts := (h _ Sys.ListAll s).1 in
  Sys.run h GetStats s =
    (Sys.Done (statsOf wts), (h _ Sys.ListAll s).2, [Sys.Ev Sys.ListAll wts]) /\
  Total (statsOf wts) = Z.of_nat (length wts) /\
  Total (statsOf wts) = PRReviews (statsOf wts) + Features (statsOf wts) /\
  PRReviews (statsOf wts) = count_type TypePRReview wts /\
  Features (statsOf wts) = count_type TypeFeature wts /\
  (forall r : string,
      ByRepo (statsOf wts) !! r =
      if count_repo r wts =? 0 then None else Some (count_repo r wts)).
Proof.
  unfold GetStats. cbn. unfold mbind, prog_bind, mret, prog_ret, Sys.call. cbn.
  destruct (h _ Sys.ListAll s) as [wts s1]. cbn.
  split; [reflexivity |].
  unfold statsOf.
  destruct (fold_countOne wts (mkStats (Z.of_nat (length wts)) 0 0 ∅))
    as (Ht & Hp & Hf & Hr & Hn). simpl in *.
  split; [exact Ht |]. split; [rewrite Ht, Hp, Hf, <- count_type_total; lia |].
  split; [rewrite Hp; lia |]. split; [rewrite Hf; lia |].
  intros r. specialize (Hr r). specialize (Hn r). unfold lookup0 in Hr.
  rewrite lookup_empty in Hr. simpl in Hr.
  destruct (ByRepo _ !! r) as [v |] eqn:E; simpl in Hr.
  - subst v. apply fold_countOne_pos in E;
      [| simpl; intros v; rewrite lookup_empty; discriminate].
    destruct (Z.eqb_spec (count_repo r wts) 0); [lia | reflexivity].
  - destruct (Hn eq_refl) as [_ ->]. reflexivity.
Qed.

End StatsFacts.

Module RepoNameFacts.
Import GoStr GoStr2 Config ConfigMore.

Lemma findFullName_Some (range : list (string * RepoConfig)) (full name : string) :
  findFullName range full = Some name ->
  exists repo, In (name, repo) range /\ FullName repo = full.
Proof.
  induction range as [|[n r] rest IH]; simpl; [discriminate |].
  destruct (String.eqb_spec (FullName r) full) as [Heq | Hne].
  - intros [= <-]. exists r. auto.
  - intros H. destruct (IH H) as (repo & Hin & Hf). exists repo. auto.
Qed.

Lemma findFullName_None (range : list (string * RepoConfig)) (full : string) :
  findFullName range full = None ->
  forall name repo, In (name, repo) range -> FullName repo <> full.
Proof.
  induction range as [|[n r] rest IH]; simpl; [intros _ ? ? [] |].
  destruct (String.eqb_spec (FullName r) full) as [Heq | Hne]; [discriminate |].
  intros H name repo [[= <- <-] | Hin]; [exact Hne | exact (IH H _ _ Hin)].
Qed.

Lemma Split_nonempty (sep : ascii) (s : string) : Split sep s <> [].
Proof.
  induction s as [|c s IH]; simpl; [discriminate |].
  destruct (Ascii.eqb c sep); [discriminate |].
  destruct (Split sep s); [contradiction | discriminate].
Qed.

Lemma Split_last_no_sep (sep : ascii) (s : string) :
  contains sep (List.last (Split sep s) EmptyString) = false.
Proof.
  induction s as [|c s IH]; simpl; [reflexivity |].
  destruct (Ascii.eqb_spec c sep) as [-> | Hne].
  - pose proof (Split_nonempty sep s).
    destruct (Split sep s) as [|p rest]; [contradiction | exact IH].
  - pose proof (Split_nonempty sep s).
    destruct (Split sep s) as [|p rest] eqn:E; [contradiction |].
    destruct rest as [|q rest].
    + simpl in *. rewrite IH.
      destruct (Ascii.eqb_spec c sep); [contradiction | reflexivity].
    + exact IH.
Qed.

(** X10: [RepoShortName] undoes [RepoFullName] whatever the order in which
    the map is walked: when some configured repo has the full name, the
    answer is the short name of one that has it, so [RepoFullName] of the
    answer is the full name again, and it is that repo's own short name when
    no other repo shares the full name.  Otherwise the answer is the text
    after the last slash. *)
Theorem RepoShortName_spec (c : Config) (range : list (string * RepoConfig))
    (full : string) :
  range ≡ₚ map_to_list (Repos c) ->
  ((exists name repo, Repos c !! name = Some repo /\ FullName repo = full) ->
   RepoFullName c (RepoShortName range full) = full /\
   forall name repo,
     Repos c !! name = Some repo -> FullName repo = full ->
     (forall name' repo', Repos c !! name' = Some repo' ->
                          FullName repo' = full -> name' = name) ->
     RepoShortName range full = name) /\
  ((forall name repo, Repos c !! name = Some repo -> FullName repo <> full) ->
   RepoShortName range full = List.last (Split "/" full) EmptyString /\
   contains "/" (RepoShortName range full) = false).
Proof.
  intros Hperm.
  assert (Hin : forall name repo,
             In (name, repo) range <-> Repos c !! name = Some repo).
  { intros name repo. rewrite <- list_elem_of_In, Hperm.
    apply elem_of_map_to_list. }
  unfold RepoShortName. split.
  - intros (name & repo & Hl & Hf).
    destruct (findFullName range full) as [n |] eqn:E.
    + apply findFullName_Some in E as (r & Hr & Hfr).
      apply Hin in Hr. split.
      * unfold RepoFullName. now rewrite Hr.
      * intros name0 repo0 H0 Hf0 Huniq. exact (Huniq n r Hr Hfr).
    + exfalso. apply Hin in Hl.
      exact (findFullName_None range full E name repo Hl Hf).
  - intros Hnone.
    destruct (findFullName range full) as [n |] eqn:E.
    + apply findFullName_Some in E as (r & Hr & Hfr).
      apply Hin in Hr. destruct (Hnone n r Hr Hfr).
    + split; [reflexivity | apply Split_last_no_sep].
Qed.

Lemma RepoShortName_spec_witness :
  RepoFullName Machine.acme
    (RepoShortName (map_to_list (Config.Repos Machine.acme)) "acme/app") =
  "acme/app" /\
  RepoShortName (map_to_list (Config.Repos Machine.acme)) "other/tools" = "tools".
Proof.
  split.
  - apply (RepoShortName_spec Machine.acme _ "acme/app" (reflexivity _)).
    exists "app"%string. eexists. split; [vm_compute; reflexivity | reflexivity].
  - vm_compute. reflexivity.
Defined.

End RepoNameFacts.

(** ** More of the two reconcilers *)

Module ReconcileMore.
Import Sys Err GoStr Keys SysFacts SpecMore.

(** X11: the cleanup reconciler never panics; it returns a terminal error
    exactly when the key does not parse or the repo has no base path; it
    returns a retriable error exactly when [git worktree remove] failed; and
    it prints its closing line exactly when it returns success.  It starts at
    most one subprocess and never takes the mutex. *)
Theorem cleanup_Reconcile_outcomes {S : Type} (h : Handler S) (s : S)
    (cfg : Config.Config) (key : string) :
  let '(res, _, tr) := run h (CleanupReconciler.Reconcile cfg key) s in
  (exists err : option GoError, res = Done err) /\
  ((exists (e : GoError) (reason : string),
       res = Done (Some e) /\ GetNonRetriableDetails e = Some reason)
   <-> match ParsePRKey key with
       | inr _ => True
       | inl (repo, _) => Config.RepoBasePath cfg repo = ""
       end) /\
  ((exists e : GoError, res = Done (Some e) /\ GetNonRetriableDetails e = None)
   <-> subprocess_failed tr = true) /\
  (res = Done None <->
   exists label, printed tr = [("Cleanup complete for %s", [label])]) /\
  (res <> Done None -> printed tr = []) /\
  (length (subprocesses tr) <= 1)%nat /\
  locks_taken tr = 0%nat.
Proof.
  unfold CleanupReconciler.Reconcile.
  destruct (ParsePRKey key) as [[repo n] | err].
  2:{ cbn. split; [eauto |]. split; [split; [tauto | intros _; eauto] |].
      split; [split; [intros (e & He & Hr); simplify_eq | discriminate] |].
      split; [split; [discriminate | intros (l & Hl); discriminate] |].
      split; [reflexivity |]. split; [lia | reflexivity]. }
  destruct (String.eqb_spec (Config.RepoBasePath cfg repo) "") as [Hb | Hb].
  { cbn. split; [eauto |]. split; [split; [tauto | intros _; eauto] |].
    split; [split; [intros (e & He & Hr); simplify_eq | discriminate] |].
    split; [split; [discriminate | intros (l & Hl); discriminate] |].
    split; [reflexivity |]. split; [lia | reflexivity]. }
  unfold CleanupReconciler.removeWorktree.
  explore;
    (split; [eauto |]);
    (split; [split; [intros (e & reason & He & Hr); simplify_eq
                    | intros ?; contradiction] |]);
    (split; [split; [intros (e & He & Hr); simplify_eq; try reflexivity
                    | intros Hf; try discriminate Hf; eexists; split; reflexivity] |]);
    (split; [split; [intros Hd; try discriminate Hd; eexists; reflexivity
                    | intros (l & Hl); try discriminate Hl; reflexivity] |]);
    (split; [intros Hd; try reflexivity; contradiction |]);
    (split; [cbn; lia | reflexivity]).
Qed.

Lemma cleanup_Reconcile_outcomes_witness :
  (run Machine.world (CleanupReconciler.Reconcile Machine.acme "app:19")
     Machine.with_worktree19).1.1 = Done None /\
  printed (run Machine.world (CleanupReconciler.Reconcile Machine.acme "app:19")
             Machine.with_worktree19).2 =
    [("Cleanup complete for %s", [LFmt "%s PR #%d" [AStr "app"; AInt 19]])] /\
  printed (run Machine.world (CleanupReconciler.Reconcile Machine.acme "app")
             Machine.with_worktree19).2 = [].
Proof.
  split; [reflexivity |]. split; [reflexivity |].
  pose proof (cleanup_Reconcile_outcomes Machine.world Machine.with_worktree19
                Machine.acme "app") as H.
  destruct (run Machine.world (CleanupReconciler.Reconcile Machine.acme "app")
              Machine.with_worktree19) as [[res s'] tr] eqn:E.
  destruct H as (_ & _ & _ & _ & Hp & _). apply Hp.
  vm_compute in E. simplify_eq. discriminate.
Defined.

(** X12: [ensureWorktree] takes the mutex at most once and has released it
    when it returns, on every path; the subprocesses it starts are, in this
    order, [git fetch] of the pull request's head and [git worktree add].
    [git worktree add] is started only after [git fetch] has succeeded: a
    failed fetch ends the run with the error of the fetch, a failed add with
    the error of the add, and without a failure the result is success.  So
    it returns an error exactly when one of the two failed; and it removes
    the stale [index.lock] of the new worktree exactly when [git worktree
    add] was started and succeeded. *)
Theorem ensureWorktree_discipline {S : Type} (h : Handler S) (s : S)
    (originPath worktreePath worktreeName : string) (prNumber : Z) :
  let fetch :=
    ("git", ["fetch"; "origin";
             "+pull/" +:+ Itoa prNumber +:+ "/head:pr-" +:+ Itoa prNumber],
     originPath) in
  let add :=
    ("git", ["worktree"; "add"; worktreePath; "pr-" +:+ Itoa prNumber],
     originPath) in
  let lockFile :=
    filepath_Join originPath
      (filepath_Join ".git"
         (filepath_Join "worktrees" (filepath_Join worktreeName "index.lock"))) in
  let '(res, _, tr) :=
    run h (SetupReconciler.ensureWorktree originPath worktreePath worktreeName
             prNumber) s in
  (exists err : option GoError, res = Done err) /\
  (locks_taken tr <= 1)%nat /\ held_after false tr = false /\
  exec_under_lock false tr = true /\
  (subprocesses tr = [] \/ subprocesses tr = [fetch] \/
   subprocesses tr = [fetch; add]) /\
  ((exists e, res = Done (Some e) /\ GetNonRetriableDetails e = None)
   <-> subprocess_failed tr = true) /\
  (removed_files tr = [lockFile] <->
   subprocesses tr = [fetch; add] /\ res = Done None) /\
  (removed_files tr = [] \/ removed_files tr = [lockFile]) /\
  map fst (subprocess_outcomes tr) = subprocesses tr /\
  match subprocess_outcomes tr with
  | [] => res = Done None
  | [(cmd, (out, Some err))] =>
      cmd = fetch /\
      res = Done (Some (Wrapf "git fetch: %w: %s" [AStr out] (LibError err)))
  | [(cmd1, (_, None)); (cmd2, (out, Some err))] =>
      cmd1 = fetch /\ cmd2 = add /\
      res = Done (Some (Wrapf "git worktree add: %w: %s" [AStr out]
                          (LibError err)))
  | [(cmd1, (_, None)); (cmd2, (_, None))] =>
      cmd1 = fetch /\ cmd2 = add /\ res = Done None
  | _ => False
  end.
Proof.
  unfold SetupReconciler.ensureWorktree.
  explore;
    (split; [eauto |]); (split; [cbn; lia |]);
    (split; [reflexivity |]); (split; [reflexivity |]);
    (split; [auto |]);
    (split; [split; [intros (e & He & Hr); simplify_eq; try reflexivity
                    | intros Hf; try discriminate Hf; eexists; split; reflexivity] |]);
    (split; [split; [intros Hrm; try discriminate Hrm; split; reflexivity
                    | intros [Hs Hr]; try discriminate Hs; try discriminate Hr;
                      reflexivity] |]);
    (split; [auto |]); (split; [reflexivity |]);
    repeat split; reflexivity.
Qed.

Lemma ensureWorktree_discipline_witness :
  removed_files
    (run Machine.world
       (SetupReconciler.ensureWorktree "/tmp/acme/app" "/tmp/acme/app-pr-42"
          "app-pr-42" 42) Machine.quiet).2 =
    ["/tmp/acme/app/.git/worktrees/app-pr-42/index.lock"].
Proof.
  pose proof (ensureWorktree_discipline Machine.world Machine.quiet
                "/tmp/acme/app" "/tmp/acme/app-pr-42" "app-pr-42" 42) as H.
  cbv zeta in H.
  destruct (run Machine.world
              (SetupReconciler.ensureWorktree "/tmp/acme/app"
                 "/tmp/acme/app-pr-42" "app-pr-42" 42) Machine.quiet)
    as [[res s'] tr] eqn:E.
  destruct H as (_ & _ & _ & _ & _ & _ & H & _). apply H.
  vm_compute in E. simplify_eq. split; reflexivity.
Defined.

End ReconcileMore.

(** ** A second setup of the same key *)

Module SetupAgain.
Import Sys Err GoStr Keys SysFacts SpecMore.
Import SetupReconciler.

(** X13: the setup of a key whose worktree and [CLAUDE.local.md] are already
    on disk (a key handed out a second time) starts no subprocess, does not
    take the mutex and injects nothing; but it writes the cache entry of the
    pull request again and sends the worktree-ready notification again, and
    returns success. *)
Theorem Reconcile_again {S : Type} (h : Handler S) (s : S)
    (r : SetupReconciler) (key repo : string) (n : Z)
    (pr : Github.ReviewRequest) :
  let basePath := Config.RepoBasePath (cfg r) repo in
  let worktreePath := filepath_Join basePath (repo +:+ "-pr-" +:+ Itoa n) in
  ParsePRKey key = inl (repo, n) ->
  basePath <> "" ->
  getPRData r key = Some pr ->
  (forall s0 : S, (h _ (OsStat worktreePath) s0).1 = StatOk) ->
  (forall s0 : S,
      (h _ (OsStat (filepath_Join worktreePath "CLAUDE.local.md")) s0).1 = StatOk) ->
  (forall s0 : S, (h _ ReadCacheFile s0).1 <> Some PRCacheData.JsonNull) ->
  let '(res, _, tr) := run h (Reconcile r key) s in
  res = Done None /\
  subprocesses tr = [] /\ locks_taken tr = 0%nat /\ injected tr = [] /\
  removed_files tr = [] /\
  ready_notified tr = [(n, worktreePath)] /\
  (exists file : option PRCacheData.Json,
      In (Ev ReadCacheFile file) tr /\
      cache_writes tr =
        [PRCacheData.JsonObject
           (<[prcache.cacheKey repo n :=
                PRCacheData.mkPRMeta (Github.Title pr) (Github.AuthorLogin pr)]>
              (loaded_of file))]).
Proof.
  intros basePath worktreePath Hkey Hbase Hdata Hwt Hmd Hnull.
  unfold Reconcile. rewrite Hkey. fold basePath.
  destruct (String.eqb_spec basePath "") as [? | _]; [contradiction |].
  rewrite Hdata. fold worktreePath.
  unfold ensureWorktree, ensureContextInjected, prcache.Set_, prcache.Load,
    prcache.Save.
  cbn. answer. pose proof (Hwt s) as H1. rewrite E in H1. cbn in H1. subst x.
  cbn. answer. pose proof (Hmd s0) as H2. rewrite E0 in H2. cbn in H2. subst x.
  cbn. answer. pose proof (Hnull s1) as H3. rewrite E1 in H3. cbn in H3.
  destruct x as [[| | m] |]; try contradiction;
    explore;
    (repeat (split; [reflexivity |]));
    (eexists; split; [do 2 right; left; reflexivity | reflexivity]).
Qed.

Lemma Reconcile_again_witness :
  exists (s' : unit) (tr : list Event),
    run (Machine.scripted Machine2.set_up42)
      (Reconcile Machine.rec42 "app:42") tt = (Done None, s', tr) /\
    subprocesses tr = [] /\ locks_taken tr = 0%nat /\ injected tr = [] /\
    ready_notified tr = [(42, "/tmp/acme/app-pr-42")].
Proof.
  pose proof (Reconcile_again (Machine.scripted Machine2.set_up42) tt
                Machine.rec42 "app:42" "app" 42 Machine.pr42) as H.
  cbv zeta in H.
  specialize (H eq_refl).
  specialize (H ltac:(vm_compute; discriminate)).
  specialize (H eq_refl (fun _ => eq_refl) (fun _ => eq_refl)).
  specialize (H ltac:(intros s0; vm_compute; discriminate)).
  destruct (run (Machine.scripted Machine2.set_up42)
              (Reconcile Machine.rec42 "app:42") tt) as [[res s'] tr].
  destruct H as (-> & Hs & Hl & Hi & _ & Hn & _).
  exists s', tr. split; [reflexivity |].
  split; [exact Hs |]. split; [exact Hl |]. split; [exact Hi | exact Hn].
Defined.

End SetupAgain.

(** ** More of the poll *)

Module PollMore.
Import Sys Err GoStr GoStrFacts Keys SysFacts SpecMore.
Import SetupReconciler Watch Spec.

Lemma fresh_props (reviews : list Github.ReviewRequest) :
  forall seen : gset string,
    NoDup (map prKey (fresh seen reviews)) /\
    forall pr, In pr (fresh seen reviews) -> (prKey pr ∉ seen) /\ In pr reviews.
Proof.
  induction reviews as [|pr rest IH]; intros seen; cbn [fresh].
  - split; [constructor | intros ? []].
  - fold (prKey pr). destruct (decide (prKey pr ∈ seen)) as [Hin | Hnin].
    + destruct (IH seen) as [Hnd Hall]. split; [exact Hnd |].
      intros q Hq. destruct (Hall q Hq). split; [assumption | right; assumption].
    + destruct (IH ({[prKey pr]} ∪ seen)) as [Hnd Hall]. split.
      * cbn [map]. apply NoDup_cons. split; [| exact Hnd].
        intros Hin%list_elem_of_In%in_map_iff. destruct Hin as (q & Heq & Hq).
        destruct (Hall q Hq) as [Hnot _]. apply Hnot. rewrite Heq. set_solver.
      * intros q [<- | Hq]; [split; [exact Hnin | left; reflexivity] |].
        destruct (Hall q Hq) as [Hnot Hr]. split; [set_solver | right; exact Hr].
Qed.

Lemma stored_cfg (c : Config.Config) (new : list Github.ReviewRequest) :
  forall rec, cfg (stored c rec new) = cfg rec.
Proof.
  unfold stored. induction (List.filter (by_author c) new) as [|pr l IH];
    intros rec; simpl; [reflexivity |].
  rewrite IH. reflexivity.
Qed.

Lemma stored_lookup (l : list Github.ReviewRequest) :
  forall rec : SetupReconciler,
    NoDup (map setup_key l) ->
    let rec' := fold_left (fun r pr => StorePRData r (setup_key pr) pr) l rec in
    (forall pr, In pr l -> getPRData rec' (setup_key pr) = Some pr) /\
    (forall key, ~ In key (map setup_key l) ->
                 getPRData rec' key = getPRData rec key).
Proof.
  induction l as [|p l IH]; intros rec Hnd; simpl.
  - split; [intros ? [] | reflexivity].
  - cbn [map] in Hnd. apply NoDup_cons in Hnd as [Hnotin Hnd].
    destruct (IH (StorePRData rec (setup_key p) p) Hnd) as [Hin Hout].
    split.
    + intros pr [<- | Hpr]; [| exact (Hin pr Hpr)].
      rewrite Hout by (intros H; apply Hnotin, list_elem_of_In, H).
      unfold getPRData, StorePRData. simpl. apply lookup_insert_eq.
    + intros key Hkey. rewrite Hout by tauto.
      unfold getPRData, StorePRData. simpl. apply lookup_insert_ne.
      intros Heq. apply Hkey. left. exact Heq.
Qed.

Lemma setup_keys_NoDup (l : list Github.ReviewRequest) :
  NoDup (map prKey l) -> NoDup (map setup_key l).
Proof.
  induction l as [|p l IH]; cbn [map]; [constructor |].
  intros [Hnotin Hnd]%NoDup_cons. apply NoDup_cons. split; [| exact (IH Hnd)].
  intros Hin%list_elem_of_In%in_map_iff. destruct Hin as (q & Heq & Hq).
  apply KeysMore.MakePRKey_eq_inv in Heq as [_ Heq].
  apply Hnotin, list_elem_of_In, in_map_iff. exists q. split; [| exact Hq].
  unfold prKey. now rewrite Heq.
Qed.

Lemma filter_NoDup_map {A B : Type} (f : A -> B) (p : A -> bool) (l : list A) :
  NoDup (map f l) -> NoDup (map f (List.filter p l)).
Proof.
  induction l as [|a l IH]; cbn [map List.filter]; [constructor |].
  intros [Hnotin Hnd]%NoDup_cons. destruct (p a); [| exact (IH Hnd)].
  cbn [map]. apply NoDup_cons. split; [| exact (IH Hnd)].
  intros Hin%list_elem_of_In%in_map_iff. destruct Hin as (q & Heq & Hq).
  apply Hnotin, list_elem_of_In, in_map_iff. exists q.
  apply List.filter_In in Hq as [Hq _]. auto.
Qed.

(** X14: every key that a poll hands to the setup queue has its payload in
    the reconciler the poll leaves behind: the pull request of that key, new
    in this poll and by a configured author.  So the setup of a queued key
    does not end in "missing PR metadata".  The payloads of all other keys
    and the configuration of the reconciler are as before. *)
Theorem pollOnce_payloads {S : Type} (h : Handler S) (s s0 : S)
    (c : Config.Config) (seen : gset string) (rec : SetupReconciler)
    (reviews : list Github.ReviewRequest) :
  h _ (GetReviewRequests "chainguard-dev/mono") s = (inl reviews, s0) ->
  let '(res, _, tr) := run h (pollOnce c seen rec) s in
  exists (seen' : gset string) (rec' : SetupReconciler),
    res = Done (seen', rec') /\
    cfg rec' = cfg rec /\
    (forall (key : string) (prio : Z),
        In (key, prio) (queued_setup tr) ->
        prio = 1 /\
        exists pr, In pr reviews /\ key = setup_key pr /\
                   getPRData rec' key = Some pr /\
                   by_author c pr = true /\ prKey pr ∉ seen) /\
    (forall key : string,
        ~ In key (map fst (queued_setup tr)) ->
        getPRData rec' key = getPRData rec key).
Proof.
  intros Hget. unfold pollOnce. rewrite run_bind.
  cbn [call run]. rewrite Hget. cbn [run]. rewrite run_bind.
  destruct (PollFacts.pollLoop_spec h c reviews seen rec s0)
    as (seen1 & s1 & loop & -> & -> & Hn & Hq & Hc).
  unfold saveState. cbn. answer. destruct x. cbn.
  destruct (fresh_props reviews seen) as [Hnd Hfresh].
  pose proof (setup_keys_NoDup _ Hnd) as Hkeys.
  pose proof (filter_NoDup_map setup_key (by_author c) _ Hkeys) as Hkeys'.
  destruct (stored_lookup (List.filter (by_author c) (fresh seen reviews)) rec Hkeys')
    as [Hin Hout].
  assert (Hqs : queued_setup (loop ++ [Ev (WriteLastCheck (Z.of_nat (length reviews))
                   (list_to_set (map prKey reviews) ∪ seen)) ()]) =
                map (fun pr => (setup_key pr, 1))
                  (List.filter (by_author c) (fresh seen reviews))).
  { rewrite queued_setup_app, Hq. cbn. apply app_nil_r. }
  rewrite Hqs.
  eexists _, _. split; [reflexivity |]. split; [apply stored_cfg |]. split.
  - intros key prio [pr [[= <- <-] Hpr]]%in_map_iff. split; [reflexivity |].
    exists pr. pose proof Hpr as Hpr'.
    apply List.filter_In in Hpr' as [Hf Hauth].
    destruct (Hfresh pr Hf) as [Hnot Hrev].
    split; [exact Hrev |]. split; [reflexivity |].
    split; [exact (Hin pr Hpr) |]. split; [exact Hauth | exact Hnot].
  - intros key Hkey. apply Hout. intros Hk. apply Hkey.
    rewrite map_map. cbn. exact Hk.
Qed.

Lemma pollOnce_payloads_witness :
  exists (seen' : gset string) (rec' : SetupReconciler),
    (run Machine.world
       (pollOnce Machine.acme ∅ (mkSetupReconciler Machine.acme ∅))
       Machine.two_reviews).1.1 = Done (seen', rec') /\
    getPRData rec' "app:42" = Some Machine.pr42.
Proof.
  pose proof (pollOnce_payloads Machine.world Machine.two_reviews
                Machine.two_reviews Machine.acme ∅
                (mkSetupReconciler Machine.acme ∅)
                [Machine.pr42; Machine.pr99] eq_refl) as H.
  destruct (run Machine.world
              (pollOnce Machine.acme ∅ (mkSetupReconciler Machine.acme ∅))
              Machine.two_reviews) as [[res s'] tr] eqn:E.
  destruct H as (seen' & rec' & -> & _ & Hq & _).
  exists seen', rec'. split; [reflexivity |].
  destruct (Hq "app:42"%string 1) as (_ & pr & Hin & Hkey & Hget & _).
  { vm_compute in E. simplify_eq. cbn. left. reflexivity. }
  rewrite Hget. f_equal.
  destruct Hin as [<- | [<- | []]]; [reflexivity |].
  vm_compute in Hkey. discriminate Hkey.
Defined.

Lemma pollLoop_all_seen {S : Type} (h : Handler S) (c : Config.Config)
    (seen : gset string) (rec : SetupReconciler)
    (reviews : list Github.ReviewRequest) (s : S) :
  (forall pr, In pr reviews -> prKey pr ∈ seen) ->
  run h (pollLoop c reviews (seen, rec)) s = (Done (seen, rec), s, []).
Proof.
  induction reviews as [|pr rest IH]; intros Hall; [reflexivity |].
  cbn [pollLoop]. rewrite run_bind. unfold pollStep.
  fold (prKey pr). destruct (decide (prKey pr ∈ seen)) as [Hin | Hnin].
  - cbn. rewrite IH by (intros q Hq; apply Hall; right; exact Hq). reflexivity.
  - exfalso. apply Hnin, Hall. left. reflexivity.
Qed.

(** X15: a poll without news changes nothing.  When the fetch fails, the
    poll prints the error and returns the seen set and the reconciler as they
    were, and no check point is written.  When every returned pull request
    is already in the seen set (as in a second poll with the same answer),
    nothing is notified, queued or printed, the seen set and the reconciler
    stay as they were, and the check point is written with the count. *)
Theorem pollOnce_no_news {S : Type} (h : Handler S) (s : S)
    (c : Config.Config) (seen : gset string) (rec : SetupReconciler) :
  let got := (h _ (GetReviewRequests "chainguard-dev/mono") s).1 in
  match got with
  | inr _ => True
  | inl reviews => forall pr, In pr reviews -> prKey pr ∈ seen
  end ->
  let '(res, _, tr) := run h (pollOnce c seen rec) s in
  res = Done (seen, rec) /\
  notified tr = [] /\ queued_setup tr = [] /\
  checkpoints tr =
    match got with
    | inr _ => []
    | inl reviews => [(Z.of_nat (length reviews), seen)]
    end /\
  printed tr =
    match got with
    | inr err => [("Error fetching reviews: %v", [LErr (LibError err)])]
    | inl _ => []
    end.
Proof.
  cbv zeta. unfold pollOnce. rewrite run_bind. cbn [call run].
  destruct (h _ (GetReviewRequests "chainguard-dev/mono") s) as [got s0].
  cbn [fst run]. destruct got as [reviews | err]; intros Hall.
  - rewrite run_bind, (pollLoop_all_seen h c seen rec reviews s0 Hall).
    unfold saveState. cbn. answer. destruct x. cbn.
    repeat split; reflexivity.
  - cbn. answer. destruct x. cbn. repeat split; reflexivity.
Qed.

Lemma pollOnce_no_news_witness :
  let second :=
    run Machine.world
      (pollOnce Machine.acme {["42"; "99"]} Machine.rec42) Machine.two_reviews in
  second.1.1 = Done ({["42"; "99"]}, Machine.rec42) /\
  notified second.2 = [] /\ queued_setup second.2 = [].
Proof.
  pose proof (pollOnce_no_news Machine.world Machine.two_reviews Machine.acme
                {["42"; "99"]} Machine.rec42) as H.
  cbv zeta in H.
  assert (Hall : match (Machine.world _ (GetReviewRequests "chainguard-dev/mono")
                          Machine.two_reviews).1 with
                 | inr _ => True
                 | inl reviews =>
                     forall pr, In pr reviews ->
                                prKey pr ∈ ({["42"; "99"]} : gset string)
                 end).
  { cbn. intros pr [<- | [<- | []]]; vm_compute; set_solver. }
  specialize (H Hall). cbv zeta.
  destruct (run Machine.world
              (pollOnce Machine.acme {["42"; "99"]} Machine.rec42)
              Machine.two_reviews) as [[res s'] tr].
  destruct H as (-> & Hn & Hq & _). cbn. auto.
Defined.

End PollMore.

(** ** The display cache, the daemon's state and the review rows *)

Module StatusFacts.
Import Sys Err GoStr GoStrFacts Keys SysFacts SpecMore PRCacheData.

(** X16: [Set] is a load, merge and store: unless the file holds [null], it
    returns, and what it hands to the file is the cache it read with the
    entry of the pull request replaced.  A [Get] that reads that content
    back finds the new entry under its key, finds every other pull request
    as it was in the cache before, and only reads. *)
Theorem Set_Get_roundtrip {S : Type} (h : Handler S) (s : S)
    (repo : string) (pr : Z) (title author : string) :
  (h _ ReadCacheFile s).1 <> Some JsonNull ->
  let before := loaded_of (h _ ReadCacheFile s).1 in
  let after := <[prcache.cacheKey repo pr := mkPRMeta title author]> before in
  let '(res, _, tr) := run h (prcache.Set_ repo pr title author) s in
  res = Done tt /\ cache_writes tr = [JsonObject after] /\
  forall (S' : Type) (h' : Handler S') (s' : S'),
    (h' _ ReadCacheFile s').1 = Some (JsonObject after) ->
    run h' (prcache.Get repo pr) s' =
      (Done (mkPRMeta title author, true), (h' _ ReadCacheFile s').2,
       [Ev ReadCacheFile (Some (JsonObject after))]) /\
    forall (repo' : string) (pr' : Z),
      (repo', pr') <> (repo, pr) ->
      (run h' (prcache.Get repo' pr') s').1.1 =
        Done match before !! prcache.cacheKey repo' pr' with
             | Some meta => (meta, true)
             | None => (mkPRMeta "" "", false)
             end.
Proof.
  intros Hnull before after.
  unfold prcache.Set_, prcache.Load, prcache.Save. cbn.
  subst after before.
  destruct (h _ ReadCacheFile s) as [file s1]. cbn in *.
  destruct file as [[| | m] |]; try contradiction; explore;
    (split; [reflexivity |]; split; [reflexivity |];
     intros S' h' s' Hread; unfold prcache.Get, prcache.Load; cbn;
     destruct (h' _ ReadCacheFile s') as [file' s1']; cbn in *; subst file';
     cbn; rewrite lookup_insert_eq; split; [reflexivity |];
     intros repo' pr' Hne; cbn;
     rewrite lookup_insert_ne
       by (intros Heq; apply KeysMore.cacheKey_eq_inv in Heq as [-> ->];
           apply Hne; reflexivity);
     match goal with
     | |- context [?m !! ?k] => destruct (m !! k)
     end; reflexivity).
Qed.

Lemma Set_Get_roundtrip_witness :
  (run Machine.world (prcache.Set_ "app" 43 "Fix typo" "bob")
     Machine2.set_up42).1.1 = Done tt /\
  cache_writes
    (run Machine.world (prcache.Set_ "app" 43 "Fix typo" "bob")
       Machine2.set_up42).2 =
    [JsonObject
       (<["app/43" := mkPRMeta "Fix typo" "bob"]>
          {[ "app/42" := mkPRMeta "Add pagination" "alice" ]})].
Proof.
  pose proof (Set_Get_roundtrip Machine.world Machine2.set_up42
                "app" 43 "Fix typo" "bob"
                ltac:(vm_compute; discriminate)) as H.
  cbv zeta in H.
  destruct (run Machine.world (prcache.Set_ "app" 43 "Fix typo" "bob")
              Machine2.set_up42) as [[res s'] tr].
  destruct H as (Hres & Hw & _). split; [exact Hres | exact Hw].
Defined.

(** X17: [getDaemonStatus] reads the pid file and probes the process, and
    never writes or removes the pid file.  From the same state it says
    "running" exactly when [watchIsRunning] says so, with the same pid, and
    "stale" exactly when [watchIsRunning] would remove the pid file. *)
Theorem getDaemonStatus_spec {S : Type} (h : Handler S) (s : S) :
  let '(res, _, tr) := run h Status.getDaemonStatus s in
  let '(res2, _, tr2) := run h Watch.watchIsRunning s in
  exists (state pidStr : string) (running : bool) (pid : Z),
    res = Done (state, pidStr) /\ res2 = Done (running, pid) /\
    (state = "running" \/ state = "stale" \/ state = "stopped") /\
    (state = "running" <-> running = true) /\
    (state = "stale" <-> pid_removed tr2 = true) /\
    (state = "stopped" <-> pidStr = "") /\
    (running = true -> Atoi pidStr = Some pid /\ live_found tr = true) /\
    pid_removed tr = false /\ pid_writes tr = [].
Proof.
  unfold Status.getDaemonStatus, Watch.watchIsRunning. cbn.
  destruct (h _ ReadPidFile s) as [[d |] s1]; cbn.
  2:{ exists "stopped"%string, ""%string, false, 0. repeat split; auto; try discriminate. }
  destruct (Atoi (TrimSpace d)) as [pid |] eqn:Hpid; cbn.
  2:{ exists "stopped"%string, ""%string, false, 0. repeat split; auto; try discriminate. }
  destruct (h _ (Kill0 pid) s1) as [[|] s2]; cbn.
  - exists "running"%string, (TrimSpace d), true, pid.
    repeat split; auto; try discriminate.
    intros Hempty. rewrite Hempty in Hpid. discriminate Hpid.
  - answer. destruct x. cbn.
    exists "stale"%string, (TrimSpace d), false, 0.
    repeat split; auto; try discriminate.
    intros Hempty. rewrite Hempty in Hpid. discriminate Hpid.
Qed.

Lemma getDaemonStatus_spec_witness :
  (run Machine.world Status.getDaemonStatus Machine.daemon_running).1.1 =
    Done ("running", "4242") /\
  (run Machine.world Watch.watchIsRunning Machine.daemon_running).1.1 =
    Done (true, 4242).
Proof.
  pose proof (getDaemonStatus_spec Machine.world Machine.daemon_running) as H.
  destruct (run Machine.world Status.getDaemonStatus Machine.daemon_running)
    as [[res s'] tr] eqn:E1.
  destruct (run Machine.world Watch.watchIsRunning Machine.daemon_running)
    as [[res2 s2] tr2] eqn:E2.
  destruct H as (state & pidStr & running & pid & -> & -> & _ & Hrun & _ & _ & Hpid & _).
  vm_compute in E1. vm_compute in E2. simplify_eq.
  destruct (Hpid eq_refl) as [_ _]. split; reflexivity.
Defined.

End StatusFacts.

(** ** The review rows of the status command *)

Module EnrichFacts.
Import Sys Err GoStr GoStrFacts Keys SysFacts SpecMore PRCacheData.
Import Status.

Section Enrich.
Context {S : Type} (h : Handler S) (cfg : Config.Config) (days : Z).
Context (prCache : prcache.GoMap) (hasClient : bool).
Context (state_of : string -> Z -> string + string).
Context (last_of : string -> LastAct).
Hypothesis Hstate :
  forall fullRepo n s, (h _ (GetPRState fullRepo n) s).1 = state_of fullRepo n.
Hypothesis Hlast : forall path s, (h _ (LastActivity path) s).1 = last_of path.
Hypothesis Hdays : 0 < days.

Lemma enrichOne_spec (wt : Worktree.Worktree) (s : S) :
  exists (s' : S) (tr : list Event) (r : StatusPRReview),
    run h (enrichOne cfg prCache hasClient days wt) s = (Done r, s', tr) /\
    Worktree_ r = wt /\
    row_ok cfg days hasClient state_of last_of r /\
    (hasClient = false -> state_queries tr = []).
Proof.
  unfold enrichOne, CleanupReconciler.AgeDays.
  cbn. answer.
  pose proof (Hlast (Worktree.Path wt) s) as Hl.
  rewrite E in Hl. cbn in Hl.
  destruct x as [msg | | age]; cbn;
    (destruct hasClient; cbn;
     [ destruct (Z.ltb_spec 0 (Worktree.PRNumber wt)) as [Hpos | Hnpos]; cbn;
       [ answer;
         match goal with
         | E' : h _ (GetPRState ?r ?n) ?s1 = _ |- _ =>
             pose proof (Hstate r n s1) as Hs; rewrite E' in Hs; cbn in Hs
         end;
         match goal with
         | x0 : (string + string)%type |- _ =>
             destruct x0 as [state | err]; cbn;
             [ destruct (String.eqb_spec state "MERGED") as [-> | Hne]; cbn |]
         end
       | ]
     | ]);
    eexists _, _, _; (split; [reflexivity |]); cbn;
    (split; [reflexivity |]);
    (split; [| first [reflexivity | discriminate]]);
    unfold row_ok, Spec.merged_and_aged; cbn; rewrite <- ?Hs, <- ?Hl; cbn;
    repeat (first
      [ match goal with
        | |- _ /\ _ => split
        | |- _ <-> _ => split
        | |- _ -> _ => intro
        | H : _ /\ _ |- _ => destruct H
        | H : Worktree.Type' wt = _ |- _ => rewrite H in *; clear H
        | |- context [Z.ltb ?a ?b] => destruct (Z.ltb_spec a b)
        | |- context [Z.leb ?a ?b] => destruct (Z.leb_spec a b)
        | |- context [Z.eqb ?a ?b] => destruct (Z.eqb_spec a b)
        | |- context [String.eqb ?a ?b] => destruct (String.eqb_spec a b)
        | H : context [Z.ltb ?a ?b] |- _ => destruct (Z.ltb_spec a b)
        | H : context [Z.leb ?a ?b] |- _ => destruct (Z.leb_spec a b)
        | H : context [Z.eqb ?a ?b] |- _ => destruct (Z.eqb_spec a b)
        | H : context [String.eqb ?a ?b] |- _ => destruct (String.eqb_spec a b)
        end ]; cbn in *);
    try lia; try discriminate; try congruence; try reflexivity.
Qed.

Lemma enrichLoop_spec (wts : list Worktree.Worktree) :
  forall s : S,
  exists (s' : S) (tr : list Event) (rows : list StatusPRReview),
    run h (enrichLoop cfg prCache hasClient days wts) s = (Done rows, s', tr) /\
    map Worktree_ rows = wts /\
    Forall (row_ok cfg days hasClient state_of last_of) rows /\
    (hasClient = false -> state_queries tr = []).
Proof.
  induction wts as [|wt rest IH]; intros s.
  - eexists _, _, _. split; [reflexivity |]. repeat split; auto.
  - cbn [enrichLoop]. rewrite run_bind.
    destruct (enrichOne_spec wt s) as (s1 & tr1 & r & -> & Hwt & Hok & Hq1).
    rewrite run_bind.
    destruct (IH s1) as (s2 & tr2 & rows & -> & Hmap & Hall & Hq2).
    cbn. eexists _, _, _. split; [reflexivity |].
    split; [cbn; congruence |]. split; [constructor; assumption |].
    intros Hc. rewrite app_nil_r.
    assert (Happ : forall a b, state_queries (a ++ b) =
                               state_queries a ++ state_queries b).
    { induction a as [|[X c x] a IHa]; intros b; [reflexivity |].
      destruct c; cbn; rewrite ?IHa; reflexivity. }
    rewrite Happ, (Hq1 Hc), (Hq2 Hc). reflexivity.
Qed.

End Enrich.

(** X18: [enrichPRReviews] gives one row per worktree, in their order; the
    age of a row is never negative (an undated worktree counts as 0 days),
    the days until cleanup lie between 0 and the configured days and are
    set only for a merged pull request.  Without a client no remote state is
    asked for and every state is empty.  With a client, a review worktree is
    shown as merged with 0 days left exactly when the cleanup scan of the
    daemon would hand it to the cleanup queue. *)
Theorem enrichPRReviews_spec {S : Type} (h : Handler S) (s : S)
    (cfg : Config.Config) (wts : list Worktree.Worktree)
    (prCache : prcache.GoMap)
    (state_of : string -> Z -> string + string)
    (last_of : string -> LastAct) :
  (forall fullRepo n s0, (h _ (GetPRState fullRepo n) s0).1 = state_of fullRepo n) ->
  (forall path s0, (h _ (LastActivity path) s0).1 = last_of path) ->
  let days := Config.GetCleanupAfterDays (Config.Watch cfg) in
  let hasClient := match (h _ NewClient s).1 with None => true | Some _ => false end in
  let '(res, _, tr) := run h (enrichPRReviews cfg wts prCache) s in
  exists rows : list StatusPRReview,
    res = Done rows /\ map Worktree_ rows = wts /\
    Forall (row_ok cfg days hasClient state_of last_of) rows /\
    (hasClient = false -> state_queries tr = []).
Proof.
  intros Hstate Hlast days hasClient. unfold enrichPRReviews. cbn.
  subst hasClient. destruct (h _ NewClient s) as [c s1]. cbn.
  fold days.
  pose proof (ScanFacts.GetCleanupAfterDays_pos (Config.Watch cfg)) as Hpos.
  destruct (enrichLoop_spec h cfg days prCache
              (match c with None => true | Some _ => false end)
              state_of last_of Hstate Hlast Hpos wts s1)
    as (s2 & tr & rows & Hrun & Hmap & Hall & Hq).
  rewrite Hrun. exists rows. split; [reflexivity |].
  split; [exact Hmap |]. split; [exact Hall |]. exact Hq.
Qed.

Lemma enrichPRReviews_spec_witness :
  exists rows : list StatusPRReview,
    (run (Machine.scripted Machine.merged_worktrees)
       (enrichPRReviews Machine.acme [Machine.wt19; Machine.wt20] (Some ∅))
       tt).1.1 = Done rows /\
    map Worktree_ rows = [Machine.wt19; Machine.wt20] /\
    map State rows = ["MERGED"; "MERGED"] /\
    map CleanupIn rows = [0; 3].
Proof.
  pose proof (enrichPRReviews_spec (Machine.scripted Machine.merged_worktrees)
                tt Machine.acme [Machine.wt19; Machine.wt20] (Some ∅)
                (Machine.remoteState Machine.merged_worktrees)
                (Machine.lastActivity Machine.merged_worktrees)
                (fun _ _ _ => eq_refl) (fun _ _ => eq_refl)) as H.
  cbv zeta in H.
  destruct (run (Machine.scripted Machine.merged_worktrees)
              (enrichPRReviews Machine.acme [Machine.wt19; Machine.wt20] (Some ∅))
              tt) as [[res s'] tr] eqn:E.
  destruct H as (rows & -> & Hmap & _).
  exists rows. split; [reflexivity |]. split; [exact Hmap |].
  vm_compute in E. simplify_eq. split; reflexivity.
Defined.

End EnrichFacts.

(** ** The lock cleaner and [watch stop] *)

Module LockFacts.
Import SysX Err GoStr GoStr2 SpecMore.
Import Locks.

Lemma runx_bind {S A B : Type} (h : Handler S) (p : Prog A) (f : A -> Prog B)
    (s : S) :
  run h (bind p f) s =
    let '(r, s1, tr1) := run h p s in
    match r with
    | Sys.Done a => let '(r2, s2, tr2) := run h (f a) s1 in (r2, s2, tr1 ++ tr2)
    | Sys.Crashed msg => (Sys.Crashed msg, s1, tr1)
    end.
Proof.
  revert s. induction p as [a | msg | X c k IH]; intros s; cbn.
  - destruct (run h (f a) s) as [[r2 s2] tr2]. reflexivity.
  - reflexivity.
  - destruct (h X c s) as [x s1]. rewrite IH.
    destruct (run h (k x) s1) as [[r s2] tr1].
    destruct r as [a | msg]; [| reflexivity].
    destruct (run h (f a) s2) as [[r2 s3] tr2]. reflexivity.
Qed.

Lemma projections_app (a b : list Event) :
  removed (a ++ b) = removed a ++ removed b /\
  files_read (a ++ b) = files_read a ++ files_read b /\
  probed (a ++ b) = probed a ++ probed b /\
  logged (a ++ b) = logged a ++ logged b /\
  dir_listings (a ++ b) = dir_listings a ++ dir_listings b.
Proof.
  induction a as [|[X c x] a IHa]; [auto |].
  destruct IHa as (H1 & H2 & H3 & H4 & H5).
  destruct c as [X c0 | | | | |]; cbn; try destruct c0; cbn;
    rewrite ?H1, ?H2, ?H3, ?H4, ?H5; auto.
Qed.

Lemma holderAlive_spec {S : Type} (h : Handler S) (fields : list string) (s : S) :
  exists (alive : bool) (s' : S) (tr : list Event),
    run h (holderAlive fields) s = (Sys.Done alive, s', tr) /\
    removed tr = [] /\ files_read tr = [] /\ logged tr = [] /\
    dir_listings tr = [] /\
    match firstInt fields with
    | Some pid => probed tr = [(pid, alive)]
    | None => probed tr = [] /\ alive = false
    end.
Proof.
  induction fields as [|f rest IH]; cbn.
  - eexists _, _, _. repeat split; reflexivity.
  - destruct (Atoi f) as [pid |]; [| exact IH].
    cbn. unfold call. cbn. answer.
    eexists _, _, _. repeat split; reflexivity.
Qed.

Lemma removeStaleLock_facts {S : Type} (h : Handler S) (s : S)
    (lockFile name : string) :
  let data := (h _ (ReadFile lockFile) s).1 in
  let '(res, _, tr) := run h (removeStaleLock lockFile name) s in
  res = Sys.Done tt /\
  files_read tr = [lockFile] /\
  (removed tr = [] \/ removed tr = [lockFile]) /\
  (probed tr = [] \/
   exists (pid : Z) (alive : bool) (d : string),
     probed tr = [(pid, alive)] /\ data = Some d /\
     firstInt (Fields (TrimSpace d)) = Some pid) /\
  (removed tr = [lockFile] <->
   data <> None /\ forall pid, ~ In (pid, true) (probed tr)) /\
  ((exists d, data = Some d /\ firstInt (Fields (TrimSpace d)) = None) ->
   removed tr = [lockFile]) /\
  logged tr =
    map (fun _ => ("warn", "Removing stale index.lock for worktree: %s",
                   [LStr name])) (removed tr) /\
  dir_listings tr = [].
Proof.
  unfold removeStaleLock. cbn.
  destruct (h _ (ReadFile lockFile) s) as [[d |] s1]; cbn.
  2:{ split; [reflexivity |]. split; [reflexivity |]. split; [auto |].
      split; [auto |]. split; [split; [discriminate | intros [H _]; contradiction] |].
      split; [intros (d & Hd & _); discriminate |]. split; reflexivity. }
  unfold mbind, progx_bind. rewrite runx_bind.
  destruct (holderAlive_spec h (Fields (TrimSpace d)) s1)
    as (alive & s2 & tr & -> & Hrm & Hrd & Hlog & Hdl & Hp).
  pose proof (projections_app tr) as Happ.
  destruct alive; cbn.
  - destruct (Happ []) as (H1 & H2 & H3 & H4 & H5).
    rewrite H1, H2, H3, H4, H5, Hrm, Hrd, Hlog, Hdl. cbn. rewrite app_nil_r.
    destruct (firstInt (Fields (TrimSpace d))) as [pid |] eqn:Hf.
    2:{ destruct Hp as [_ Hp]. discriminate Hp. }
    rewrite Hp.
    split; [reflexivity |]. split; [reflexivity |]. split; [auto |].
    split; [right; exists pid, true, d; auto |].
    split; [split; [discriminate | intros [_ H]; exfalso; apply (H pid); left; reflexivity] |].
    split; [intros (d0 & [= <-] & Hn); congruence |]. split; reflexivity.
  - unfold call. cbn. answer. destruct x. cbn. answer. destruct x. cbn.
    match goal with
    | |- context [tr ++ ?l] => destruct (Happ l) as (H1 & H2 & H3 & H4 & H5)
    end.
    rewrite H1, H2, H3, H4, H5, Hrm, Hrd, Hlog, Hdl. cbn.
    split; [reflexivity |]. split; [reflexivity |]. split; [auto |].
    destruct (firstInt (Fields (TrimSpace d))) as [pid |] eqn:Hf.
    + rewrite Hp. cbn.
      split; [right; exists pid, false, d; auto |].
      split; [split; [intros _; split; [discriminate |];
                      intros p [[= _ ?] | []]; discriminate
                     | reflexivity] |].
      split; [reflexivity |]. split; reflexivity.
    + destruct Hp as [Hp _]. rewrite Hp. cbn.
      split; [auto |].
      split; [split; [intros _; split; [discriminate | intros p []] | reflexivity] |].
      split; [reflexivity |]. split; reflexivity.
Qed.

(** X19: [removeStaleLock] reads the lock file and probes at most one
    process: the one named by the first field of the file that reads as a
    number, the fields being what [strings.Fields] makes of the text, set
    apart by any white space of [unicode.IsSpace].  It removes the lock
    file, and nothing else, exactly when the file could be read and no
    probed process is alive; so a lock file without any number in it is
    always removed.  A removal is announced with a warning. *)
Theorem removeStaleLock_spec {S : Type} (h : Handler S) (s : S)
    (lockFile name : string) :
  let data := (h _ (ReadFile lockFile) s).1 in
  let '(res, _, tr) := run h (removeStaleLock lockFile name) s in
  res = Sys.Done tt /\
  files_read tr = [lockFile] /\
  (removed tr = [] \/ removed tr = [lockFile]) /\
  (probed tr = [] \/
   exists (pid : Z) (alive : bool) (d : string),
     probed tr = [(pid, alive)] /\ data = Some d /\
     firstInt (Fields (TrimSpace d)) = Some pid) /\
  (removed tr = [lockFile] <->
   data <> None /\ forall pid, ~ In (pid, true) (probed tr)) /\
  ((exists d, data = Some d /\ firstInt (Fields (TrimSpace d)) = None) ->
   removed tr = [lockFile]) /\
  logged tr =
    map (fun _ => ("warn", "Removing stale index.lock for worktree: %s",
                   [LStr name])) (removed tr).
Proof.
  pose proof (removeStaleLock_facts h s lockFile name) as H. cbv zeta in *.
  destruct (run h (removeStaleLock lockFile name) s) as [[res s'] tr].
  destruct H as (H1 & H2 & H3 & H4 & H5 & H6 & H7 & _).
  repeat (split; [assumption |]). assumption.
Qed.

Lemma removeStaleLock_spec_witness :
  removed
    (run Machine2.worldx
       (removeStaleLock "/tmp/acme/app/.git/worktrees/app-pr-20/index.lock"
          "app-pr-20") Machine2.locked).2 =
    ["/tmp/acme/app/.git/worktrees/app-pr-20/index.lock"].
Proof.
  pose proof (removeStaleLock_spec Machine2.worldx Machine2.locked
                "/tmp/acme/app/.git/worktrees/app-pr-20/index.lock"
                "app-pr-20") as H.
  cbv zeta in H.
  destruct (run Machine2.worldx
              (removeStaleLock "/tmp/acme/app/.git/worktrees/app-pr-20/index.lock"
                 "app-pr-20") Machine2.locked) as [[res s'] tr].
  destruct H as (_ & _ & _ & _ & _ & H & _). apply H.
  exists "DIRC"%string. split; reflexivity.
Defined.

(** A lock file whose fields are set apart by a no-break space: the
    process 4242 is found and probed, and as it is alive the lock stays. *)
Example removeStaleLock_no_break_space :
  Fields (TrimSpace Machine2.lock_no_break) = ["4242"; "host"] /\
  probed
    (run Machine2.worldx
       (removeStaleLock "/tmp/acme/app/.git/index.lock" "app")
       Machine2.locked_no_break).2 = [(4242, true)] /\
  removed
    (run Machine2.worldx
       (removeStaleLock "/tmp/acme/app/.git/index.lock" "app")
       Machine2.locked_no_break).2 = [].
Proof. repeat split; reflexivity. Qed.

Lemma cleanEntries_spec {S : Type} (h : Handler S) (worktreesDir : string)
    (entries : list (string * bool)) :
  forall s : S,
  exists (s' : S) (tr : list Event),
    run h (cleanEntries worktreesDir entries) s = (Sys.Done tt, s', tr) /\
    files_read tr =
      map (entryLock worktreesDir) (map fst (List.filter snd entries)) /\
    (forall p, In p (removed tr) -> In p (files_read tr)) /\
    dir_listings tr = [].
Proof.
  induction entries as [|[name isDir] rest IH]; intros s.
  - eexists _, _. split; [reflexivity |]. repeat split; auto.
  - cbn [cleanEntries]. unfold mbind, progx_bind. rewrite runx_bind.
    destruct isDir; cbn [List.filter snd map fst].
    + pose proof (removeStaleLock_facts h s
                    (filepath_Join worktreesDir (filepath_Join name "index.lock"))
                    name) as H.
      cbv zeta in H.
      destruct (run h (removeStaleLock _ name) s) as [[res s1] tr1].
      destruct H as (-> & Hr & Hrm & _ & _ & _ & _ & Hd).
      destruct (IH s1) as (s2 & tr2 & -> & Hr2 & Hrm2 & Hd2).
      eexists _, _. split; [reflexivity |].
      destruct (projections_app tr1 tr2) as (H1 & H2 & _ & _ & H5).
      rewrite H1, H2, H5, Hr, Hr2, Hd, Hd2.
      split; [reflexivity |]. split; [| reflexivity].
      intros p [Hp | Hp]%in_app_or.
      * destruct Hrm as [Hrm | Hrm]; rewrite Hrm in Hp; [destruct Hp |].
        destruct Hp as [<- | []]. left. reflexivity.
      * right. rewrite <- Hr2. exact (Hrm2 p Hp).
    + cbn. destruct (IH s) as (s2 & tr2 & -> & Hr2 & Hrm2 & Hd2).
      eexists _, _. split; [reflexivity |]. auto.
Qed.

Lemma stats_app (a b : list Event) : stats (a ++ b) = stats a ++ stats b.
Proof.
  induction a as [|[X c x] a IH]; [reflexivity |].
  destruct c as [X c0 | | | | |]; cbn; try destruct c0; cbn;
    rewrite ?IH; reflexivity.
Qed.

Lemma holderAlive_stats {S : Type} (h : Handler S) (fields : list string) (s : S) :
  stats (run h (holderAlive fields) s).2 = [].
Proof.
  induction fields as [|f rest IH]; cbn; [reflexivity |].
  destruct (Atoi f) as [pid |]; [| exact IH].
  cbn. unfold call. cbn. answer. reflexivity.
Qed.

Lemma removeStaleLock_stats {S : Type} (h : Handler S) (s : S)
    (lockFile name : string) :
  stats (run h (removeStaleLock lockFile name) s).2 = [].
Proof.
  unfold removeStaleLock. cbn.
  destruct (h _ (ReadFile lockFile) s) as [[d |] s1]; cbn; [| reflexivity].
  unfold mbind, progx_bind. rewrite runx_bind.
  pose proof (holderAlive_stats h (Fields (TrimSpace d)) s1) as Hs.
  destruct (holderAlive_spec h (Fields (TrimSpace d)) s1)
    as (alive & s2 & tr & E & _).
  rewrite E in Hs |- *. cbn in Hs.
  destruct alive; cbn.
  - rewrite stats_app, Hs. reflexivity.
  - unfold call. cbn. answer. destruct x. cbn. answer. destruct x. cbn.
    rewrite stats_app, Hs. reflexivity.
Qed.

Lemma cleanEntries_stats {S : Type} (h : Handler S) (worktreesDir : string)
    (entries : list (string * bool)) :
  forall s : S, stats (run h (cleanEntries worktreesDir entries) s).2 = [].
Proof.
  induction entries as [|[name isDir] rest IH]; intros s; [reflexivity |].
  cbn [cleanEntries]. unfold mbind, progx_bind. rewrite runx_bind.
  destruct isDir.
  - pose proof (removeStaleLock_stats h s
                  (filepath_Join worktreesDir (filepath_Join name "index.lock"))
                  name) as Hs.
    pose proof (removeStaleLock_facts h s
                  (filepath_Join worktreesDir (filepath_Join name "index.lock"))
                  name) as H.
    cbv zeta in H.
    destruct (run h (removeStaleLock _ name) s) as [[res s1] tr1].
    destruct H as (-> & _). cbn in Hs.
    specialize (IH s1).
    destruct (run h (cleanEntries worktreesDir rest) s1) as [[res2 s2] tr2].
    cbn in IH |- *. rewrite stats_app, Hs, IH. reflexivity.
  - cbn. specialize (IH s).
    destruct (run h (cleanEntries worktreesDir rest) s) as [[res2 s2] tr2].
    exact IH.
Qed.

(** X20: [CleanStaleLocks] asks [os.Stat] for the [.git] directory of the
    clone, once and before anything else, and stops there when the answer is
    that it does not exist.  On any other answer it lists [.git/worktrees],
    once, and, when that listing succeeds, looks at the [index.lock] of
    every directory entry, in the order of the listing, and then at the
    clone's own; it removes only files it has read.  For a repo without base
    path it does nothing at all, and when [.git/worktrees] cannot be listed
    it reads and removes nothing, the clone's own lock included. *)
Theorem CleanStaleLocks_spec {S : Type} (h : Handler S) (s : S)
    (cfg : Config.Config) (repo : string) :
  let basePath := Config.RepoBasePath cfg repo in
  let gitDir := filepath_Join basePath (filepath_Join repo ".git") in
  let worktreesDir := filepath_Join gitDir "worktrees" in
  let st := (h _ (Base (Sys.OsStat gitDir)) s).1 in
  let listing :=
    (h _ (ReadDir worktreesDir) (h _ (Base (Sys.OsStat gitDir)) s).2).1 in
  let '(res, _, tr) := run h (CleanStaleLocks cfg repo) s in
  res = Sys.Done tt /\
  (basePath = "" -> tr = []) /\
  (forall p, In p (removed tr) -> In p (files_read tr)) /\
  match dir_listings tr with
  | [] => files_read tr = []
  | [(dir, None)] => dir = worktreesDir /\ files_read tr = []
  | [(dir, Some entries)] =>
      dir = worktreesDir /\
      files_read tr =
        map (entryLock worktreesDir) (map fst (List.filter snd entries)) ++
        [filepath_Join gitDir "index.lock"]
  | _ => False
  end /\
  (basePath <> "" ->
   stats tr = [(gitDir, st)] /\
   match st with
   | Sys.StatNotExist => tr = [Ev (Base (Sys.OsStat gitDir)) Sys.StatNotExist]
   | _ => dir_listings tr = [(worktreesDir, listing)]
   end).
Proof.
  intros basePath gitDir worktreesDir st listing. subst st listing.
  unfold CleanStaleLocks.
  fold basePath. destruct (String.eqb_spec basePath "") as [Hb | Hb].
  { cbn. repeat split; auto. all: contradiction. }
  fold gitDir worktreesDir. cbn -[removeStaleLock cleanEntries]. answer.
  cbn [fst snd].
  assert (Hnone : forall s1 : S,
             let '(res, _, tr) :=
               run h (Do (ReadDir worktreesDir)
                        (fun entries =>
                           match entries with
                           | None => mret tt
                           | Some es =>
                               cleanEntries worktreesDir es;;
                               removeStaleLock (filepath_Join gitDir "index.lock") repo
                           end)) s1 in
             res = Sys.Done tt /\
             (forall p, In p (removed tr) -> In p (files_read tr)) /\
             match dir_listings tr with
             | [] => files_read tr = []
             | [(dir, None)] => dir = worktreesDir /\ files_read tr = []
             | [(dir, Some entries)] =>
                 dir = worktreesDir /\
                 files_read tr =
                   map (entryLock worktreesDir) (map fst (List.filter snd entries)) ++
                   [filepath_Join gitDir "index.lock"]
             | _ => False
             end /\
             stats tr = [] /\
             dir_listings tr = [(worktreesDir, (h _ (ReadDir worktreesDir) s1).1)]).
  { intros s1. cbn -[removeStaleLock cleanEntries].
    destruct (h _ (ReadDir worktreesDir) s1) as [[es |] s2];
      cbn -[removeStaleLock cleanEntries].
    2:{ repeat split; auto. }
    unfold mbind, progx_bind. rewrite runx_bind.
    pose proof (cleanEntries_stats h worktreesDir es s2) as Hst1.
    destruct (cleanEntries_spec h worktreesDir es s2)
      as (s3 & tr1 & E1 & Hr1 & Hrm1 & Hd1).
    rewrite E1 in Hst1 |- *. cbn in Hst1.
    pose proof (removeStaleLock_stats h s3 (filepath_Join gitDir "index.lock") repo)
      as Hst2.
    pose proof (removeStaleLock_facts h s3 (filepath_Join gitDir "index.lock") repo)
      as H. cbv zeta in H.
    destruct (run h (removeStaleLock _ repo) s3) as [[res s4] tr2].
    destruct H as (-> & Hr & Hrm & _ & _ & _ & _ & Hd). cbn in Hst2.
    destruct (projections_app tr1 tr2) as (H1 & H2 & _ & _ & H5).
    cbn. rewrite H1, H2, H5, Hr, Hr1, Hd, Hd1, stats_app, Hst1, Hst2. cbn.
    split; [reflexivity |]. split; [| auto].
    intros p [Hp | Hp]%in_app_or; apply in_or_app.
    - left. rewrite <- Hr1. exact (Hrm1 p Hp).
    - right. destruct Hrm as [Hrm | Hrm]; rewrite Hrm in Hp;
        [destruct Hp | exact Hp]. }
  destruct x; cbn -[removeStaleLock cleanEntries];
    try (specialize (Hnone s0); cbn -[removeStaleLock cleanEntries] in Hnone;
         destruct (h _ (ReadDir worktreesDir) s0) as [es s1];
         match type of Hnone with
         | context [run h ?p ?s1] =>
             destruct (run h p s1) as [[res s2] tr]
         end;
         destruct Hnone as (-> & Hrm & Hd & Hst & Hdl);
         split; [reflexivity |]; split; [intros ?; contradiction |];
         split; [assumption |]; split; [assumption |];
         intros _; cbn in Hst, Hdl |- *; rewrite Hst; split; [reflexivity | exact Hdl]).
  split; [reflexivity |]. split; [intros ?; contradiction |].
  split; [intros p [] |]. split; [reflexivity |].
  intros _. split; reflexivity.
Qed.

Lemma CleanStaleLocks_spec_witness :
  (run Machine2.worldx (CleanStaleLocks Machine.acme "other") Machine2.locked).2
    = [] /\
  files_read
    (run Machine2.worldx (CleanStaleLocks Machine.acme "app") Machine2.locked).2 =
    ["/tmp/acme/app/.git/worktrees/app-pr-19/index.lock";
     "/tmp/acme/app/.git/worktrees/app-pr-20/index.lock";
     "/tmp/acme/app/.git/index.lock"] /\
  removed
    (run Machine2.worldx (CleanStaleLocks Machine.acme "app") Machine2.locked).2 =
    ["/tmp/acme/app/.git/worktrees/app-pr-20/index.lock";
     "/tmp/acme/app/.git/index.lock"] /\
  stats
    (run Machine2.worldx (CleanStaleLocks Machine.acme "app") Machine2.locked).2 =
    [("/tmp/acme/app/.git", Sys.StatOk)].
Proof.
  split; [| split; [| split]; reflexivity].
  pose proof (CleanStaleLocks_spec Machine2.worldx Machine2.locked
                Machine.acme "other") as H.
  cbv zeta in H.
  destruct (run Machine2.worldx (CleanStaleLocks Machine.acme "other")
              Machine2.locked) as [[res s'] tr].
  destruct H as (_ & H & _). apply H. reflexivity.
Defined.

(** X21: [watch stop] never returns an error.  It sends [SIGTERM] at most
    once, and only to the process whose number it read from the pid file
    and that answered the probe; it then removes the pid file and reports
    the stop.  When no such process is found it sends nothing and warns that
    the daemon is not running; a pid file that names a dead process is
    removed on the way. *)
Theorem watchStop_spec {S : Type} (h : Handler S) (s : S) :
  let '(res, _, tr) := run h WatchStop.watchStop s in
  res = Sys.Done None /\
  (forall pid, In pid (terminated tr) ->
     terminated tr = [pid] /\ probed tr = [(pid, true)] /\
     exists d, pid_file_reads tr = [Some d] /\ Atoi (TrimSpace d) = Some pid) /\
  (terminated tr = [] <->
   logged tr = [("warn", "Watch daemon is not running", [])]) /\
  (forall pid, terminated tr = [pid] ->
     logged tr = [("success", "Watch daemon stopped (PID: %d)", [LInt pid])]) /\
  pid_file_removals tr = length (probed tr) /\
  (length (probed tr) <= 1)%nat.
Proof.
  unfold WatchStop.watchStop, Watch.watchIsRunning. cbn.
  destruct (h _ (Base Sys.ReadPidFile) s) as [[d |] s1]; cbn.
  2:{ answer. destruct x. cbn.
      split; [reflexivity |]. split; [intros pid [] |].
      split; [split; reflexivity |]. split; [discriminate |].
      split; [reflexivity | lia]. }
  destruct (Atoi (TrimSpace d)) as [pid |] eqn:Hpid; cbn.
  2:{ answer. destruct x. cbn.
      split; [reflexivity |]. split; [intros pid [] |].
      split; [split; reflexivity |]. split; [discriminate |].
      split; [reflexivity | lia]. }
  destruct (h _ (Base (Sys.Kill0 pid)) s1) as [[|] s2]; cbn.
  - answer. destruct x. cbn. answer. destruct x. cbn. answer. destruct x. cbn.
    split; [reflexivity |]. split.
    { intros p [<- | []]. split; [reflexivity |]. split; [reflexivity |].
      exists d. auto. }
    split; [split; discriminate |].
    split; [intros p [= <-]; reflexivity |]. split; [reflexivity | lia].
  - answer. destruct x. cbn. answer. destruct x. cbn.
    split; [reflexivity |]. split; [intros p [] |].
    split; [split; reflexivity |]. split; [discriminate |].
    split; [reflexivity | lia].
Qed.

Lemma watchStop_spec_witness :
  terminated (run Machine2.worldx WatchStop.watchStop Machine2.locked).2 = [4242] /\
  logged (run Machine2.worldx WatchStop.watchStop Machine2.locked).2 =
    [("success", "Watch daemon stopped (PID: %d)", [LInt 4242])].
Proof.
  pose proof (watchStop_spec Machine2.worldx Machine2.locked) as H.
  destruct (run Machine2.worldx WatchStop.watchStop Machine2.locked)
    as [[res s'] tr] eqn:E.
  destruct H as (_ & _ & _ & H & _).
  assert (Ht : terminated tr = [4242]).
  { vm_compute in E. simplify_eq. reflexivity. }
  split; [exact Ht | exact (H 4242 Ht)].
Defined.

End LockFacts.

(** ** The lines of [git worktree list] *)

Module ListFacts.
Import GoStr GoStr2 GoStrFacts Worktree SpecMore ListParse.

Ltac tests :=
  repeat match goal with
         | |- context [N.eqb ?a ?b] => destruct (N.eqb_spec a b); try lia
         | |- context [N.leb ?a ?b] => destruct (N.leb_spec a b); try lia
         end;
  reflexivity.

(** No byte of a white-space rune of two or three bytes is an ASCII byte. *)
Lemma is_space2_ascii_l (c1 c2 : ascii) :
  (N_of_ascii c1 < 128)%N -> is_space2 c1 c2 = false.
Proof. intros H. unfold is_space2. cbv zeta. tests. Qed.

Lemma is_space2_ascii_r (c1 c2 : ascii) :
  (N_of_ascii c2 < 128)%N -> is_space2 c1 c2 = false.
Proof. intros H. unfold is_space2. cbv zeta. tests. Qed.

Lemma is_space3_ascii_1 (c1 c2 c3 : ascii) :
  (N_of_ascii c1 < 128)%N -> is_space3 c1 c2 c3 = false.
Proof. intros H. unfold is_space3. cbv zeta. tests. Qed.

Lemma is_space3_ascii_2 (c1 c2 c3 : ascii) :
  (N_of_ascii c2 < 128)%N -> is_space3 c1 c2 c3 = false.
Proof. intros H. unfold is_space3. cbv zeta. tests. Qed.

Lemma is_space3_ascii_3 (c1 c2 c3 : ascii) :
  (N_of_ascii c3 < 128)%N -> is_space3 c1 c2 c3 = false.
Proof. intros H. unfold is_space3. cbv zeta. tests. Qed.

(** An ASCII byte after a text does not change the white-space rune at the
    start of the text. *)
Lemma space_rune_ascii_r (c : ascii) (rest : string) :
  (N_of_ascii c < 128)%N ->
  forall (x : ascii) (w : string),
    space_rune (String x (w +:+ String c rest)) = space_rune (String x w).
Proof.
  intros Hc x w. destruct w as [|y [|z w]]; simpl_app; unfold space_rune.
  - rewrite (is_space2_ascii_r x c Hc).
    destruct (is_space x); [reflexivity |].
    destruct rest; [reflexivity |]. now rewrite (is_space3_ascii_2 x c _ Hc).
  - now rewrite (is_space3_ascii_3 x y c Hc).
  - reflexivity.
Qed.

(** An ASCII byte other than white space starts no white-space rune. *)
Lemma space_rune_ascii_l (c : ascii) (rest : string) :
  (N_of_ascii c < 128)%N -> is_space c = false ->
  space_rune (String c rest) = 0%nat.
Proof.
  intros Hc Hs. unfold space_rune. rewrite Hs.
  destruct rest as [|y rest]; [reflexivity |].
  rewrite (is_space2_ascii_l c y Hc).
  destruct rest as [|z rest]; [reflexivity |].
  now rewrite (is_space3_ascii_1 c y z Hc).
Qed.

Lemma Fields_go_byte (cur : string) (c : ascii) (rest : string) :
  space_rune (String c rest) = 0%nat ->
  Fields_go cur (String c rest) = Fields_go (cur +:+ String c "") rest.
Proof.
  unfold space_rune. cbn [Fields_go].
  destruct (is_space c); [discriminate |].
  destruct rest as [|y rest]; [reflexivity |].
  destruct (is_space2 c y); [discriminate |].
  destruct rest as [|z rest]; [reflexivity |].
  destruct (is_space3 c y z); [discriminate | reflexivity].
Qed.

Lemma has_space_cons (c : ascii) (rest : string) :
  has_space (String c rest) = false ->
  space_rune (String c rest) = 0%nat /\ has_space rest = false.
Proof.
  cbn [has_space]. intros [H1 H2]%orb_false_iff. split; [| exact H2].
  apply negb_false_iff, Nat.eqb_eq in H1. exact H1.
Qed.

Lemma Fields_go_word (word : string) :
  forall (cur : string) (c : ascii) (rest : string),
    (N_of_ascii c < 128)%N -> has_space word = false ->
    Fields_go cur (word +:+ String c rest) =
    Fields_go (cur +:+ word) (String c rest).
Proof.
  induction word as [|x w IH]; intros cur c rest Hc Hw.
  - now rewrite app_nil_l, append_nil_r.
  - apply has_space_cons in Hw as [Hx Hw]. rewrite app_cons.
    rewrite Fields_go_byte by (rewrite (space_rune_ascii_r c rest Hc); exact Hx).
    rewrite (IH _ c rest Hc Hw). f_equal. rewrite append_assoc. reflexivity.
Qed.

Lemma Fields_first (path rest : string) :
  path <> "" -> has_space path = false ->
  Fields (path +:+ " " +:+ rest) = path :: Fields rest.
Proof.
  intros Hne Hp. unfold Fields. simpl_app.
  rewrite (Fields_go_word path "" " " rest ltac:(cbn; lia) Hp).
  rewrite app_nil_l. cbn [Fields_go]. change (is_space " ") with true.
  cbv iota. destruct path; [contradiction | reflexivity].
Qed.

(** White space of two and three bytes is trimmed and splits fields; a
    lone continuation byte and the zero-width space U+200B (the bytes E2 80
    8B) are no white space. *)
Example white_space_runes :
  TrimSpace (String "194" (String "160"
               ("4242" +:+ String "227" (String "128" (String "128" ""))))) =
    "4242" /\
  TrimSpace (String "160" "") = String "160" "" /\
  TrimSpace (String "226" (String "128" (String "139" "x"))) =
    String "226" (String "128" (String "139" "x")) /\
  Fields ("a" +:+ String "226" (String "128" (String "168" "b"))) = ["a"; "b"] /\
  Fields ("a" +:+ String "226" (String "128" (String "139" "b"))) =
    ["a" +:+ String "226" (String "128" (String "139" "b"))] /\
  Fields (String "009" "a  b" +:+ String "010" "") = ["a"; "b"].
Proof. repeat split; reflexivity. Qed.

Lemma contains_app (sep : ascii) (a b : string) :
  contains sep (a +:+ b) = contains sep a || contains sep b.
Proof.
  induction a as [|c a IH]; simpl_app; simpl; [reflexivity |].
  rewrite IH. apply orb_assoc.
Qed.

Lemma substring_skip (a s : string) (n m : nat) :
  String.substring (String.length a + n) m (a +:+ s) = String.substring n m s.
Proof.
  induction a as [|c a IH]; simpl_app; simpl; [reflexivity | exact IH].
Qed.

Lemma lineBranch_bracket (pre branch tail : string) :
  contains "[" pre = false -> contains "]" branch = false ->
  lineBranch (pre +:+ "[" +:+ branch +:+ "]" +:+ tail) = branch.
Proof.
  intros Hpre Hbr. unfold lineBranch. simpl_app.
  rewrite (NamesFacts.Index_app "[" pre _ Hpre).
  assert (Hl : 0 <= len pre) by (unfold len; lia).
  destruct (Z.leb_spec 0 (len pre)); [| lia].
  rewrite NamesFacts.slice_from_app.
  rewrite <- (app_cons "[" branch (String "]" tail)).
  rewrite <- (app_nil_l (String "[" branch +:+ String "]" tail)) at 1.
  rewrite app_nil_l.
  assert (Hc : contains "]" (String "[" branch) = false).
  { simpl. exact Hbr. }
  rewrite (NamesFacts.Index_app "]" (String "[" branch) tail Hc).
  unfold len. simpl String.length.
  destruct (Z.leb_spec 0 (Z.of_nat (Datatypes.S (String.length branch)))); [| lia].
  replace (Z.to_nat (Z.of_nat (String.length pre) + 1))
    with (String.length pre + 1)%nat by lia.
  replace (Z.to_nat (Z.of_nat (String.length pre) +
                     Z.of_nat (Datatypes.S (String.length branch))) -
           (String.length pre + 1))%nat
    with (String.length branch) by lia.
  rewrite substring_skip. simpl.
  apply NamesFacts.substring_prefix.
Qed.

Lemma strip_slashes_id (name : string) :
  name <> "" -> contains "/" name = false ->
  forall dir : string, strip_slashes (dir +:+ name) = dir +:+ name.
Proof.
  intros Hne Hc.
  assert (Hbase : strip_slashes name = name).
  { clear Hne. induction name as [|c n IH]; [reflexivity |].
    simpl in Hc. apply orb_false_iff in Hc as [Hc Hn].
    simpl. rewrite (IH Hn). destruct n; [| reflexivity].
    rewrite Hc. reflexivity. }
  induction dir as [|c d IH]; [now rewrite app_nil_l |].
  rewrite app_cons. simpl. rewrite IH.
  destruct (d +:+ name) eqn:E; [| reflexivity].
  exfalso. destruct d; [rewrite app_nil_l in E; contradiction |].
  rewrite app_cons in E. discriminate E.
Qed.

Lemma Split_app (sep : ascii) (a b : string) :
  Split sep (a +:+ String sep b) = Split sep a ++ Split sep b.
Proof.
  induction a as [|c a IH].
  - rewrite app_nil_l. simpl. now rewrite Ascii.eqb_refl.
  - rewrite app_cons. simpl. rewrite IH.
    pose proof (RepoNameFacts.Split_nonempty sep a) as Hn.
    destruct (Ascii.eqb c sep); [reflexivity |].
    destruct (Split sep a) as [|p r]; [contradiction | reflexivity].
Qed.

Lemma Split_none (sep : ascii) (name : string) :
  contains sep name = false -> Split sep name = [name].
Proof.
  induction name as [|c n IH]; [reflexivity |].
  simpl. intros Hc. apply orb_false_iff in Hc as [Hc Hn].
  rewrite Hc, (IH Hn). reflexivity.
Qed.

Lemma filepath_Base_Join (dir name : string) :
  name <> "" -> contains "/" name = false ->
  filepath_Base (dir +:+ "/" +:+ name) = name.
Proof.
  intros Hne Hc. unfold filepath_Base.
  destruct (dir +:+ "/" +:+ name) eqn:E.
  { destruct dir; [rewrite app_nil_l in E | rewrite app_cons in E];
      discriminate E. }
  rewrite <- E. clear E.
  rewrite <- append_assoc. rewrite (strip_slashes_id name Hne Hc).
  rewrite append_assoc. simpl_app.
  destruct (dir +:+ String "/" name) eqn:E.
  { destruct dir; [rewrite app_nil_l in E | rewrite app_cons in E];
      discriminate E. }
  rewrite <- E. rewrite Split_app, (Split_none _ _ Hc).
  apply last_last.
Qed.

Lemma has_space_eq (c : ascii) (rest : string) :
  has_space (String c rest) =
  negb (Nat.eqb (space_rune (String c rest)) 0) || has_space rest.
Proof. reflexivity. Qed.

(** White space does not come about at the seam of two texts when the
    second starts with an ASCII byte. *)
Lemma has_space_app (a : string) (c : ascii) (b : string) :
  (N_of_ascii c < 128)%N ->
  has_space (a +:+ String c b) = has_space a || has_space (String c b).
Proof.
  intros Hc. induction a as [|x a IH]; [reflexivity |].
  rewrite app_cons, (has_space_eq x (a +:+ String c b)), (has_space_eq x a).
  rewrite (space_rune_ascii_r c b Hc x a), IH. apply orb_assoc.
Qed.

Lemma has_space_plain (c : ascii) (rest : string) :
  (N_of_ascii c < 128)%N -> is_space c = false ->
  has_space (String c rest) = has_space rest.
Proof.
  intros Hc Hs. now rewrite has_space_eq, (space_rune_ascii_l c rest Hc Hs).
Qed.

Lemma all_digits_no (bad : ascii) (s : string) :
  is_digit bad = false -> all_digits s = true -> contains bad s = false.
Proof. apply KeysMore.all_digits_contains. Qed.

Lemma digits_has_space (s : string) :
  all_digits s = true -> has_space s = false.
Proof.
  induction s as [|c s IH]; [reflexivity |].
  intros Hd. simpl in Hd. apply andb_true_iff in Hd as [Hc Hs].
  unfold is_digit in Hc. apply andb_true_iff in Hc as [H1 H2].
  apply N.leb_le in H1, H2.
  rewrite has_space_plain; [exact (IH Hs) | lia |].
  unfold is_space. cbv zeta. tests.
Qed.

Lemma utoa_has_space (n : Z) : 0 <= n -> has_space (utoa n) = false.
Proof.
  intros Hn. destruct (utoa_spec n Hn) as (_ & Hd & _).
  exact (digits_has_space _ Hd).
Qed.

(** X22: a line of [git worktree list] that starts with a path without
    white space, followed by a blank and by a first bracket pair, gives the
    record of that path with the text of the brackets as branch, unless the
    path is the main clone, which is left out; empty lines give nothing.
    For the directory [<base>/<repo>-pr-<n>] that the setup reconciler
    creates, [ListForRepo] so lists a PR review with number [n], and the
    cleanup scan makes of it the key [<repo>:<n>] that setup was given.
    Every record of the list has the repo it was listed for, a path other
    than the main clone, the last element of the path as name, and the type
    and number that [Classify] gives to that name. *)
Theorem parseLine_spec (originPath repo : string) :
  parseLine originPath repo "" = None /\
  (forall path mid branch tail : string,
      path <> "" -> has_space path = false ->
      contains "[" path = false -> contains "[" mid = false ->
      contains "]" branch = false ->
      parseLine originPath repo
        (path +:+ " " +:+ mid +:+ "[" +:+ branch +:+ "]" +:+ tail) =
      if String.eqb path originPath then None
      else Some (worktreeOf path (filepath_Base path) branch repo)) /\
  (forall (basePath mid branch tail : string) (n : Z),
      basePath <> "" -> 0 < n <= GoInt.max_int ->
      has_space basePath = false -> has_space repo = false ->
      contains "[" basePath = false -> contains "[" repo = false ->
      contains "/" repo = false ->
      contains "[" mid = false -> contains "]" branch = false ->
      originPath = filepath_Join basePath repo ->
      exists wt : Worktree,
        parseLine originPath repo
          (filepath_Join basePath (repo +:+ "-pr-" +:+ Itoa n) +:+ " " +:+
           mid +:+ "[" +:+ branch +:+ "]" +:+ tail) = Some wt /\
        Type' wt = TypePRReview /\ PRNumber wt = n /\ Repo wt = repo /\
        Path wt = filepath_Join basePath (repo +:+ "-pr-" +:+ Itoa n) /\
        Spec.cleanup_key wt = Keys.MakePRKey repo n) /\
  (forall (lines : list string) (wt : Worktree),
      In wt (parseLines originPath repo lines) ->
      Repo wt = repo /\ Path wt <> originPath /\
      Name wt = filepath_Base (Path wt) /\
      (Type' wt, PRNumber wt) = Classify (Name wt)).
Proof.
  assert (Hline : forall path mid branch tail : string,
      path <> "" -> has_space path = false ->
      contains "[" path = false -> contains "[" mid = false ->
      contains "]" branch = false ->
      parseLine originPath repo
        (path +:+ " " +:+ mid +:+ "[" +:+ branch +:+ "]" +:+ tail) =
      if String.eqb path originPath then None
      else Some (worktreeOf path (filepath_Base path) branch repo)).
  { intros path mid branch tail Hne Hsp Hb Hmid Hbr. unfold parseLine.
    destruct (String.eqb_spec
                (path +:+ " " +:+ mid +:+ "[" +:+ branch +:+ "]" +:+ tail) "")
      as [E | _].
    { destruct path; [contradiction |]. rewrite app_cons in E. discriminate E. }
    rewrite (Fields_first path _ Hne Hsp).
    destruct (String.eqb path originPath); [reflexivity |].
    do 2 f_equal.
    replace (path +:+ " " +:+ mid +:+ "[" +:+ branch +:+ "]" +:+ tail)
      with ((path +:+ " " +:+ mid) +:+ "[" +:+ branch +:+ "]" +:+ tail)
      by (rewrite !append_assoc; reflexivity).
    apply lineBranch_bracket; [| exact Hbr].
    rewrite !contains_app, Hb, Hmid. reflexivity. }
  split; [reflexivity |]. split; [exact Hline |]. split.
  2:{ intros lines wt Hin. unfold parseLines in Hin.
      apply list_elem_of_In, list_elem_of_omap in Hin as (line & _ & Hp).
      unfold parseLine in Hp.
      destruct (String.eqb line ""); [discriminate |].
      destruct (Fields line) as [|path rest]; [discriminate |].
      destruct (String.eqb_spec path originPath) as [? | Hne]; [discriminate |].
      injection Hp as <-.
      destruct (NamesFacts.worktreeOf_Classify path (filepath_Base path)
                  (lineBranch line) repo) as [Ht Hn].
      assert (Hf : Repo (worktreeOf path (filepath_Base path) (lineBranch line) repo)
                   = repo /\
                   Path (worktreeOf path (filepath_Base path) (lineBranch line) repo)
                   = path /\
                   Name (worktreeOf path (filepath_Base path) (lineBranch line) repo)
                   = filepath_Base path).
      { unfold worktreeOf. destruct (Classify (filepath_Base path)). auto. }
      destruct Hf as (HR & HP & HN). rewrite HR, HP, HN, Ht, Hn.
      split; [reflexivity |]. split; [exact Hne |]. split; [reflexivity |].
      destruct (Classify (filepath_Base path)); reflexivity. }
  intros basePath mid branch tail n Hbase Hn Hsb Hsr Hbb Hbr Hslash Hmid Hbranch ->.
  rewrite (Itoa_nonneg n) by lia.
  destruct (utoa_spec n ltac:(lia)) as (Hne & Hd & Hp).
  set (name := repo +:+ "-pr-" +:+ utoa n).
  assert (Hname : name <> "").
  { unfold name. destruct repo; [rewrite app_nil_l | rewrite app_cons];
      discriminate. }
  assert (Hjoin : filepath_Join basePath name = basePath +:+ "/" +:+ name).
  { unfold filepath_Join. destruct basePath; [contradiction |].
    destruct name; [contradiction | reflexivity]. }
  assert (Hcn : contains "/" name = false).
  { unfold name. rewrite !contains_app, Hslash.
    rewrite (all_digits_no "/" _ eq_refl Hd). reflexivity. }
  assert (Hbase' : filepath_Base (filepath_Join basePath name) = name).
  { rewrite Hjoin. apply (filepath_Base_Join basePath name Hname Hcn). }
  assert (Hr : GoInt.in_range n = true).
  { unfold GoInt.in_range, GoInt.min_int. apply andb_true_iff.
    split; apply Z.leb_le; [lia | tauto]. }
  assert (Hcl : Classify name = (TypePRReview, n)).
  { unfold name.
    rewrite (WorktreeFacts.Classify_digits repo (utoa n) n Hne Hd Hp), Hr.
    reflexivity. }
  assert (Hneq : String.eqb (filepath_Join basePath name)
                   (filepath_Join basePath repo) = false).
  { apply String.eqb_neq. intros E.
    apply (f_equal String.length) in E. rewrite Hjoin in E.
    assert (Hlen : (String.length (filepath_Join basePath repo) <=
                    String.length basePath + 1 + String.length repo)%nat).
    { unfold filepath_Join. destruct basePath; [contradiction |].
      destruct repo; [simpl; lia |].
      rewrite !length_append. simpl. lia. }
    unfold name in E. rewrite !length_append in E. simpl in E. lia. }
  exists (worktreeOf (filepath_Join basePath name) name branch repo).
  split.
  - rewrite Hline, Hneq, Hbase'; [reflexivity | | | | exact Hmid | exact Hbranch].
    + rewrite Hjoin. destruct basePath; [contradiction |].
      rewrite app_cons. discriminate.
    + rewrite Hjoin. simpl_app.
      rewrite (has_space_app basePath "/" name ltac:(cbn; lia)), Hsb.
      rewrite (has_space_plain "/" name ltac:(cbn; lia) eq_refl).
      unfold name. simpl_app.
      rewrite (has_space_app repo "-" _ ltac:(cbn; lia)), Hsr.
      rewrite !has_space_plain by (cbn; first [lia | reflexivity]).
      exact (utoa_has_space n ltac:(lia)).
    + rewrite Hjoin, !contains_app, Hbb. unfold name.
      rewrite !contains_app, Hbr, (all_digits_no "[" _ eq_refl Hd).
      reflexivity.
  - destruct (NamesFacts.worktreeOf_Classify (filepath_Join basePath name)
                name branch repo) as [Ht Hnum].
    rewrite Hcl in Ht, Hnum. simpl in Ht, Hnum.
    assert (Hrepo : Repo (worktreeOf (filepath_Join basePath name) name branch repo)
                    = repo /\
                    Path (worktreeOf (filepath_Join basePath name) name branch repo)
                    = filepath_Join basePath name).
    { unfold worktreeOf. destruct (Classify name). auto. }
    destruct Hrepo as [HR HP]. unfold Spec.cleanup_key.
    rewrite Ht, Hnum, HR, HP. repeat split; reflexivity.
Qed.

Lemma parseLine_spec_witness :
  exists wt : Worktree,
    parseLine "/tmp/acme/app" "app"
      ("/tmp/acme/app-pr-42  abc1234 [pr-42]") = Some wt /\
    Type' wt = TypePRReview /\ PRNumber wt = 42 /\
    Spec.cleanup_key wt = "app:42".
Proof.
  destruct (parseLine_spec "/tmp/acme/app" "app") as (_ & _ & H & _).
  destruct (H "/tmp/acme" " abc1234 " "pr-42" "" 42) as (wt & Hw & Ht & Hn & _ & _ & Hk);
    try reflexivity; try discriminate.
  { unfold GoInt.max_int. lia. }
  exists wt. split; [exact Hw |]. split; [exact Ht |]. split; [exact Hn |].
  exact Hk.
Defined.

End ListFacts.

(** ** The daemon after a restart *)

Module RestartFacts.
Import SysX Err GoStr GoStrFacts SpecMore.
Import SetupReconciler Watch Spec Restart.

Lemma run_lift {S A : Type} (h : Handler S) (p : Sys.Prog A) :
  forall s : S,
    Sys.run (fun X c => h X (Base c)) p s =
    ((run h (lift p) s).1.1, (run h (lift p) s).1.2,
     base_events (run h (lift p) s).2).
Proof.
  induction p as [a | msg | X c k IH]; intros s; cbn; try reflexivity.
  destruct (h X (Base c) s) as [x s1]. rewrite IH.
  destruct (run h (lift (k x)) s1) as [[r s2] tr]. reflexivity.
Qed.

Lemma loadSeenPRs_fold (prs : list string) :
  forall acc : gset string,
    fold_left (fun (m : gset string) pr => {[pr]} ∪ m) prs acc =
    list_to_set prs ∪ acc.
Proof.
  induction prs as [|p prs IH]; intros acc; cbn.
  - set_solver.
  - rewrite IH. set_solver.
Qed.

Lemma pollOnce_run {S : Type} (h : Sys.Handler S) (s s0 : S)
    (c : Config.Config) (seen : gset string) (rec : SetupReconciler)
    (reviews : list Github.ReviewRequest) :
  h _ (Sys.GetReviewRequests "chainguard-dev/mono") s = (inl reviews, s0) ->
  exists (s' : S) (tr : list Sys.Event),
    Sys.run h (pollOnce c seen rec) s =
      (Sys.Done (list_to_set (map prKey reviews) ∪ seen,
                 stored c rec (fresh seen reviews)), s', tr) /\
    Sys.notified tr = map info (fresh seen reviews) /\
    Sys.queued_setup tr =
      map (fun pr => (setup_key pr, 1))
        (List.filter (by_author c) (fresh seen reviews)) /\
    Sys.checkpoints tr =
      [(Z.of_nat (length reviews), list_to_set (map prKey reviews) ∪ seen)].
Proof.
  intros Hget. unfold pollOnce. rewrite SysFacts.run_bind.
  cbn [Sys.call Sys.run]. rewrite Hget. cbn [Sys.run].
  rewrite SysFacts.run_bind.
  destruct (PollFacts.pollLoop_spec h c reviews seen rec s0)
    as (seen1 & s1 & loop & -> & -> & Hn & Hq & Hc).
  unfold saveState. cbn. answer. destruct x. cbn.
  eexists _, _. split; [reflexivity |].
  cbn [Sys.notified Sys.queued_setup Sys.checkpoints].
  rewrite SysFacts.notified_app, SysFacts.queued_setup_app,
    SysFacts.checkpoints_app, Hn, Hq, Hc. cbn.
  rewrite !app_nil_r. repeat split; reflexivity.
Qed.

(** X23: after a restart the daemon takes as seen exactly the numbers in
    [seen_prs] of [last_check.json] (none when the file is missing or cannot
    be decoded).  Its initial poll notifies the returned review requests
    that are new against that set, queues those of configured authors, and
    writes the check point with the enlarged set; so with the check point
    lost, every returned pull request is notified again. *)
Theorem firstPoll_spec {S : Type} (h : Handler S) (s s1 : S)
    (c : Config.Config) (rec : SetupReconciler)
    (reviews : list Github.ReviewRequest) :
  let file := (h _ ReadLastCheck s).1 in
  let seen : gset string :=
    match file with
    | Some (CheckState _ _ prs) => list_to_set prs
    | _ => ∅
    end in
  h _ (Base (Sys.GetReviewRequests "chainguard-dev/mono")) (h _ ReadLastCheck s).2
    = (inl reviews, s1) ->
  let '(res, _, tr) := run h (firstPoll c rec) s in
  res = Sys.Done (list_to_set (map prKey reviews) ∪ seen,
                  stored c rec (fresh seen reviews)) /\
  Sys.notified (base_events tr) = map info (fresh seen reviews) /\
  Sys.queued_setup (base_events tr) =
    map (fun pr => (setup_key pr, 1))
      (List.filter (by_author c) (fresh seen reviews)) /\
  Sys.checkpoints (base_events tr) =
    [(Z.of_nat (length reviews), list_to_set (map prKey reviews) ∪ seen)] /\
  (seen = ∅ -> NoDup (map Github.Number reviews) ->
   Sys.notified (base_events tr) = map info reviews).
Proof.
  intros file seen Hget. unfold firstPoll, loadSeenPRs. cbn -[pollOnce].
  subst seen file. destruct (h _ ReadLastCheck s) as [file s0].
  cbn -[pollOnce] in *.
  assert (Hstep : forall seen : gset string,
             let '(res, _, tr) := run h (lift (pollOnce c seen rec)) s0 in
             res = Sys.Done (list_to_set (map prKey reviews) ∪ seen,
                             stored c rec (fresh seen reviews)) /\
             Sys.notified (base_events tr) = map info (fresh seen reviews) /\
             Sys.queued_setup (base_events tr) =
               map (fun pr => (setup_key pr, 1))
                 (List.filter (by_author c) (fresh seen reviews)) /\
             Sys.checkpoints (base_events tr) =
               [(Z.of_nat (length reviews),
                 list_to_set (map prKey reviews) ∪ seen)] /\
             (seen = ∅ -> NoDup (map Github.Number reviews) ->
              Sys.notified (base_events tr) = map info reviews)).
  { intros seen.
    destruct (pollOnce_run (fun X c0 => h X (Base c0)) s0 s1 c seen rec reviews Hget)
      as (s' & tr0 & Hrun & Hn & Hq & Hc).
    rewrite run_lift in Hrun.
    destruct (run h (lift (pollOnce c seen rec)) s0) as [[res s2] tr].
    cbn in Hrun. injection Hrun as -> -> <-.
    split; [reflexivity |]. split; [exact Hn |]. split; [exact Hq |].
    split; [exact Hc |].
    intros -> Hnd. rewrite Hn, (PollFacts.fresh_filter reviews ∅ Hnd).
    f_equal. clear. induction reviews as [|pr l IH]; [reflexivity |].
    cbn. rewrite bool_decide_eq_false_2 by set_solver. cbn. now rewrite IH. }
  destruct file as [[| ts n prs] |]; cbn -[pollOnce].
  - specialize (Hstep ∅).
    destruct (run h (lift (pollOnce c ∅ rec)) s0) as [[res s2] tr]. exact Hstep.
  - rewrite loadSeenPRs_fold.
    replace (list_to_set prs ∪ ∅ : gset string) with (list_to_set prs : gset string)
      by set_solver.
    specialize (Hstep (list_to_set prs)).
    destruct (run h (lift (pollOnce c (list_to_set prs) rec)) s0) as [[res s2] tr].
    exact Hstep.
  - specialize (Hstep ∅).
    destruct (run h (lift (pollOnce c ∅ rec)) s0) as [[res s2] tr]. exact Hstep.
Qed.

Lemma firstPoll_spec_witness :
  Sys.notified
    (base_events
       (run Machine2.worldx
          (firstPoll Machine.acme (mkSetupReconciler Machine.acme ∅))
          Machine2.restarted).2) = [info Machine.pr99].
Proof.
  pose proof (firstPoll_spec Machine2.worldx Machine2.restarted
                Machine2.restarted Machine.acme
                (mkSetupReconciler Machine.acme ∅)
                [Machine.pr42; Machine.pr99] eq_refl) as H.
  cbv zeta in H.
  destruct (run Machine2.worldx
              (firstPoll Machine.acme (mkSetupReconciler Machine.acme ∅))
              Machine2.restarted) as [[res s'] tr].
  destruct H as (_ & Hn & _). cbn [snd]. rewrite Hn. reflexivity.
Defined.

End RestartFacts.

(** ** The stale worktrees of [zen cleanup] *)

Module StaleFacts.
Import SysX Err GoStr GoStrFacts SpecMore.
Import CleanupCmd.

Section Stale.
Context {S : Type} (h : Handler S) (cfg : Config.Config) (days : Z).
Context (clientOk : bool).
Context (state_of : string -> Z -> string + string).
Context (last_of : string -> Sys.LastAct).
Hypothesis Hstate :
  forall fullRepo n s,
    (h _ (Base (Sys.GetPRState fullRepo n)) s).1 = state_of fullRepo n.
Hypothesis Hlast :
  forall path s, (h _ (Base (Sys.LastActivity path)) s).1 = last_of path.

Lemma staleOne_spec (wt : Worktree.Worktree) (s : S) :
  exists (s' : S) (tr : list Event) (r : option staleWorktree),
    run h (staleOne cfg clientOk days wt) s = (Sys.Done r, s', tr) /\
    (forall st, r = Some st -> Worktree_ st = wt) /\
    (stale_by_age days last_of wt = true -> r <> None) /\
    (clientOk = true ->
     forall reason, stale_by_state cfg state_of wt = Some reason ->
                    r = Some (mkStale wt reason)) /\
    (Worktree.Type' wt = Worktree.TypePRReview -> r <> None ->
     (clientOk = true /\ stale_by_state cfg state_of wt <> None) \/
     stale_by_age days last_of wt = true) /\
    (clientOk = false -> (r <> None <-> stale_by_age days last_of wt = true)).
Proof.
  unfold staleOne, byNumber, byBranch, byAge, CleanupReconciler.AgeDays,
    stale_by_state, stale_by_age.
  destruct (Worktree.Type' wt) eqn:Ht; destruct clientOk; cbn;
    repeat (first
      [ match goal with
        | |- context [if 0 <? ?n then _ else _] => destruct (Z.ltb_spec 0 n)
        | |- context [if negb (String.eqb ?a ?b) then _ else _] =>
            destruct (String.eqb_spec a b)
        | |- context [if 0 <? ?n && _ then _ else _] => destruct (Z.ltb_spec 0 n)
        | |- context [let '(_, _) := h _ (Base (Sys.GetPRState ?r ?n)) ?s1 in _] =>
            let E := fresh "E" in
            pose proof (Hstate r n s1) as E;
            destruct (h _ (Base (Sys.GetPRState r n)) s1) as [[state | err] ?];
            cbn in E; rewrite <- E; clear E
        | |- context [let '(_, _) := h _ (Base (Sys.LastActivity ?p)) ?s1 in _] =>
            let E := fresh "E" in
            pose proof (Hlast p s1) as E;
            destruct (h _ (Base (Sys.LastActivity p)) s1) as [[msg | | age] ?];
            cbn in E; rewrite <- E; clear E
        | |- context [let '(_, _) := h _ (GetPRStateByBranch ?r ?b) ?s1 in _] =>
            destruct (h _ (GetPRStateByBranch r b) s1) as [[[state prNum] | err] ?]
        | |- context [String.eqb ?a ?b] => destruct (String.eqb_spec a b)
        | |- context [Z.leb ?a ?b] => destruct (Z.leb_spec a b)
        end ]; cbn);
    eexists _, _, _; (split; [reflexivity |]);
    (split; [intros st Hst; try discriminate Hst; injection Hst as <-; reflexivity |]);
    (split; [intros Ha; try discriminate Ha; discriminate |]);
    (split; [intros Hc reason Hr; try discriminate Hc; try discriminate Hr;
             injection Hr as <-; reflexivity |]);
    (split; [intros Hty Hr; try discriminate Hty; try (exfalso; apply Hr; reflexivity);
             first [ left; split; [reflexivity | discriminate]
                   | right; reflexivity ] |]);
    (intros Hc;
     first [ discriminate Hc
           | split; [intros Hr; try reflexivity; exfalso; apply Hr; reflexivity
                    | intros Ha; try discriminate Ha; discriminate] ]).
Qed.

Lemma staleLoop_spec (wts : list Worktree.Worktree) :
  forall s : S,
  exists (s' : S) (tr : list Event) (stale : list staleWorktree),
    run h (staleLoop cfg clientOk days wts) s = (Sys.Done stale, s', tr) /\
    sublist (map Worktree_ stale) wts /\
    (forall wt, In wt wts -> stale_by_age days last_of wt = true ->
                In wt (map Worktree_ stale)) /\
    (clientOk = true ->
     forall wt reason, In wt wts -> stale_by_state cfg state_of wt = Some reason ->
                       In (mkStale wt reason) stale) /\
    (forall st, In st stale ->
       Worktree.Type' (Worktree_ st) = Worktree.TypePRReview ->
       (clientOk = true /\ stale_by_state cfg state_of (Worktree_ st) <> None) \/
       stale_by_age days last_of (Worktree_ st) = true) /\
    (clientOk = false ->
     forall st, In st stale -> stale_by_age days last_of (Worktree_ st) = true).
Proof.
  induction wts as [|wt rest IH]; intros s.
  - eexists _, _, _. split; [reflexivity |]. cbn.
    split; [constructor |]. split; [intros ? [] |]. split; [intros _ ? ? [] |].
    split; [intros ? [] |]. intros _ ? [].
  - cbn [staleLoop]. unfold mbind, progx_bind. rewrite LockFacts.runx_bind.
    destruct (staleOne_spec wt s) as (s1 & tr1 & r & -> & Hw & Hage & Hst & Hrev & Hno).
    rewrite LockFacts.runx_bind.
    destruct (IH s1) as (s2 & tr2 & stale & -> & Hsub & Hage2 & Hst2 & Hrev2 & Hno2).
    cbn. eexists _, _, _. split; [reflexivity |].
    destruct r as [st |].
    + pose proof (Hw st eq_refl) as Hwt. cbn [map]. rewrite Hwt.
      split; [apply sublist_skip, Hsub |].
      split; [intros w [<- | Hin] Ha; [left; reflexivity | right; auto] |].
      split.
      { intros Hc w reason [<- | Hin] Hr.
        - left. specialize (Hst Hc reason Hr). congruence.
        - right. eauto. }
      split.
      { intros st' [<- | Hin] Hty; [| auto].
        rewrite Hwt in *. apply Hrev; [exact Hty | discriminate]. }
      intros Hc st' [<- | Hin]; [| auto].
      rewrite Hwt. apply (Hno Hc). discriminate.
    + split; [apply sublist_cons, Hsub |].
      split.
      { intros w [<- | Hin] Ha; [| auto]. exfalso. apply (Hage Ha). reflexivity. }
      split.
      { intros Hc w reason [<- | Hin] Hr; [| eauto].
        specialize (Hst Hc reason Hr). discriminate Hst. }
      split; [exact Hrev2 | exact Hno2].
Qed.

End Stale.

(** X24: the stale list of [zen cleanup] holds worktrees of the inventory,
    in its order, each at most once.  With a client, every review worktree
    with a positive number whose pull request is merged or closed is in it,
    with that reason, whatever its age and whatever [--days]; in particular
    every worktree that the daemon's cleanup scan would queue is in it as
    "PR merged".  Every worktree whose last commit is at least [--days] days
    old is in it.  A review worktree is in it only for one of these two
    reasons, and without a client only age counts. *)
Theorem findStale_spec {S : Type} (h : Handler S) (s : S)
    (cfg : Config.Config) (days : Z)
    (state_of : string -> Z -> string + string)
    (last_of : string -> Sys.LastAct) :
  (forall fullRepo n s0,
      (h _ (Base (Sys.GetPRState fullRepo n)) s0).1 = state_of fullRepo n) ->
  (forall path s0, (h _ (Base (Sys.LastActivity path)) s0).1 = last_of path) ->
  let wts := (h _ (Base Sys.ListAll) s).1 in
  let clientOk :=
    match (h _ (Base Sys.NewClient) (h _ (Base Sys.ListAll) s).2).1 with
    | None => true
    | Some _ => false
    end in
  let '(res, _, tr) := run h (findStale cfg days) s in
  exists stale : list staleWorktree,
    res = Sys.Done stale /\
    sublist (map Worktree_ stale) wts /\
    (forall wt, In wt wts -> stale_by_age days last_of wt = true ->
                In wt (map Worktree_ stale)) /\
    (clientOk = true ->
     forall wt reason, In wt wts -> stale_by_state cfg state_of wt = Some reason ->
                       In (mkStale wt reason) stale) /\
    (clientOk = true ->
     forall wt d, In wt wts -> 0 <= Worktree.PRNumber wt ->
                  Spec.merged_and_aged cfg d state_of last_of wt = true ->
                  In (mkStale wt (LStr "PR merged")) stale) /\
    (forall st, In st stale ->
       Worktree.Type' (Worktree_ st) = Worktree.TypePRReview ->
       (clientOk = true /\ stale_by_state cfg state_of (Worktree_ st) <> None) \/
       stale_by_age days last_of (Worktree_ st) = true) /\
    (clientOk = false ->
     forall st, In st stale -> stale_by_age days last_of (Worktree_ st) = true).
Proof.
  intros Hstate Hlast wts clientOk. unfold findStale. cbn -[staleLoop].
  subst wts clientOk.
  destruct (h _ (Base Sys.ListAll) s) as [wts s1]. cbn -[staleLoop].
  destruct (h _ (Base Sys.NewClient) s1) as [c s2]. cbn -[staleLoop].
  destruct (staleLoop_spec h cfg days
              (match c with None => true | Some _ => false end)
              state_of last_of Hstate Hlast wts s2)
    as (s3 & tr & stale & Hrun & Hsub & Hage & Hst & Hrev & Hno).
  rewrite Hrun. exists stale. split; [reflexivity |].
  split; [exact Hsub |]. split; [exact Hage |]. split; [exact Hst |].
  split; [| split; [exact Hrev | exact Hno]].
  intros Hc wt d Hin Hn Hm. apply (Hst Hc wt _ Hin).
  unfold Spec.merged_and_aged in Hm. unfold stale_by_state.
  destruct (Worktree.Type' wt); [| discriminate].
  apply andb_true_iff in Hm as [Hnz Hm].
  apply negb_true_iff, Z.eqb_neq in Hnz.
  destruct (Z.ltb_spec 0 (Worktree.PRNumber wt)); [| lia].
  destruct (state_of _ _) as [state | err]; [| discriminate].
  apply andb_true_iff in Hm as [Hm _]. rewrite Hm. reflexivity.
Qed.

Lemma findStale_spec_witness :
  exists stale : list staleWorktree,
    (run (Machine2.scriptedx Machine2.cleanup_time)
       (findStale Machine.acme 30) tt).1.1 = Sys.Done stale /\
    In (mkStale Machine.wt19 (LStr "PR merged")) stale /\
    map Reason stale =
      [LStr "PR merged"; LStr "PR merged";
       LFmt "No activity for %d days" [AInt 30]; LStr "PR merged";
       LFmt "PR #%d closed (not merged)" [AInt 77];
       LFmt "No activity for %d days" [AInt 30]].
Proof.
  pose proof (findStale_spec (Machine2.scriptedx Machine2.cleanup_time) tt
                Machine.acme 30
                (Machine.remoteState Machine.merged_worktrees)
                (Machine.lastActivity Machine.merged_worktrees)
                (fun _ _ _ => eq_refl) (fun _ _ => eq_refl)) as H.
  cbv zeta in H.
  destruct (run (Machine2.scriptedx Machine2.cleanup_time)
              (findStale Machine.acme 30) tt) as [[res s'] tr] eqn:E.
  destruct H as (stale & -> & _ & _ & _ & Hm & _).
  exists stale. split; [reflexivity |]. split.
  - apply (Hm eq_refl Machine.wt19 5); [left; reflexivity | vm_compute; discriminate
                                       | reflexivity].
  - vm_compute in E. simplify_eq. reflexivity.
Defined.

End StaleFacts.
